(** * llmcache: storage backends, cache facade and TF-IDF similarity search

    A shallow embedding of the JavaScript sources

      - [src/core/storage.js]     (JSON file backend, backend factory and resolver),
      - [src/license/limits.js]   (free-tier limits, limit status),
      - [src/license/checker.js]  (license file: activation, deactivation, [isPro]),
      - [src/core/cache.js]       (cache facade: paths, [init], hashing, limits,
                                   TTL, [stats], [clear], export and import),
      - [src/core/similarity.js]  (tokenizer, TF-IDF, cosine similarity, ranked
                                   search, best match),

    followed by the properties of the specification that these functions
    decide, and by further properties of the same functions.

    Conventions of the embedding.
      - A JavaScript object used as a dictionary is an association list in
        property order ([JsObj]); the values stored under the keys are records.
      - The cache directory on disk is a record ([CacheDir]); every method that
        reads or writes files takes it and returns the new one.
      - Integer counters ([hits], [totalEntries], ...) are in [Z]; the numbers of
        the similarity engine are IEEE 754 binary64 values, as in JavaScript,
        and are modelled by the primitive type [float].
      - Instants are milliseconds since the epoch, as [Date.prototype.valueOf]
        gives them; an absent or unparseable date string is [None]
        (an Invalid Date, whose comparisons are all false).  The time zone of
        the process, which [Date.prototype.setDate] goes by, is a parameter
        ([Js.Zone]).
      - Strings are kept as their UTF-8 bytes.
      - A [throw] is the constructor [Thrown] of [outcome]. *)

From Stdlib Require Import ZArith List String Ascii Bool Lia DecimalString.
From Stdlib Require DecimalPos.
From Stdlib Require Import Sorted Permutation.
From Stdlib Require Import Floats.
Import ListNotations.

Set Warnings "-inexact-float".

Local Open Scope Z_scope.
Local Open Scope list_scope.

(** ** Results of calls that may throw *)

Inductive outcome (A : Type) : Type :=
| Returned (a : A)
| Thrown (message : string).
Arguments Returned {A} a.
Arguments Thrown {A} message.

(** ** JavaScript objects as ordered dictionaries *)

Module JsObj.

(** [array_index k] is [Some n] when the property key [k] is an array index:
    the canonical decimal numeral of an integer [n <= 2^32 - 2].  Such keys
    are enumerated first, in ascending order, by [Object.keys],
    [Object.entries] and [for ... in]; all other keys follow in insertion
    order. *)
Definition digit_of (c : ascii) : option N :=
  let n := N_of_ascii c in
  if ((48 <=? n) && (n <=? 57))%N then Some (n - 48)%N else None.

Fixpoint decimal_of (s : string) (acc : N) : option N :=
  match s with
  | EmptyString => Some acc
  | String c s' =>
      match digit_of c with
      | Some d => decimal_of s' (10 * acc + d)%N
      | None => None
      end
  end.

Definition array_index (k : string) : option N :=
  match k with
  | EmptyString => None
  | String "0" EmptyString => Some 0%N
  | String "0" _ => None
  | _ =>
      match decimal_of k 0%N with
      | Some n => if (n <=? 4294967294)%N then Some n else None
      | None => None
      end
  end.

(** [inherited k]: [k] names a property that every object inherits from
    [Object.prototype], so that [o[k]] is a function (for [__proto__], the
    prototype) when [o] has no property [k] of its own. *)
Definition inherited (k : string) : bool :=
  existsb (String.eqb k)
    ["constructor"; "hasOwnProperty"; "isPrototypeOf"; "propertyIsEnumerable";
     "toLocaleString"; "toString"; "valueOf"; "__proto__";
     "__defineGetter__"; "__defineSetter__"; "__lookupGetter__";
     "__lookupSetter__"]%string.

Section Obj.
Context {V : Type}.

Definition t : Type := list (string * V).

Definition empty : t := [].

(** [o[k]] on the properties of [o] itself; [None] is [undefined] unless [k]
    is [inherited]. *)
Fixpoint get (k : string) (o : t) : option V :=
  match o with
  | [] => None
  | (k', v) :: o' => if String.eqb k k' then Some v else get k o'
  end.

(** Assignment to an existing property keeps its place. *)
Fixpoint replace (k : string) (v : V) (o : t) : t :=
  match o with
  | [] => []
  | (k', v') :: o' =>
      if String.eqb k k' then (k', v) :: o' else (k', v') :: replace k v o'
  end.

(** A new array-index key goes before the first property that is not an
    array index or has a greater index. *)
Fixpoint insert_index (n : N) (k : string) (v : V) (o : t) : t :=
  match o with
  | [] => [(k, v)]
  | (k', v') :: o' =>
      match array_index k' with
      | Some n' =>
          if (n' <? n)%N then (k', v') :: insert_index n k v o'
          else (k, v) :: o
      | None => (k, v) :: o
      end
  end.

(** [o[k] = v]. *)
Definition set (k : string) (v : V) (o : t) : t :=
  match get k o with
  | Some _ => replace k v o
  | None =>
      match array_index k with
      | Some n => insert_index n k v o
      | None => o ++ [(k, v)]
      end
  end.

(** [delete o[k]]. *)
Definition delete (k : string) (o : t) : t :=
  filter (fun p => negb (String.eqb k (fst p))) o.

(** [Object.keys(o)], [Object.entries(o)], [Object.keys(o).length]. *)
Definition keys (o : t) : list string := map fst o.
Definition entries (o : t) : list (string * V) := o.
Definition size (o : t) : Z := Z.of_nat (List.length o).

(** An object has each key once. *)
Definition wf (o : t) : Prop := NoDup (keys o).
End Obj.

Arguments t V : clear implicits.
End JsObj.

(** ** The data model of [storage.js] *)

(** A cache entry, as [cache.set] builds it.  [created] and [expires] are the
    instants the stored ISO strings denote. *)
Record Entry : Type := {
  prompt : string;
  response : string;
  model : string;
  created : option Z;
  hits : Z;
  tokens : Z;
  expires : option Z;
  tags : option (list string)
}.

Record Stats : Type := {
  totalEntries : Z;
  totalHits : Z;
  totalSaved : Z;
  costSaved : JsObj.t Z
}.

(** [BACKENDS] *)
Inductive Backend : Type := JSON | SQLITE | REDIS.

Definition backend_id (b : Backend) : string :=
  match b with
  | JSON => "json"
  | SQLITE => "sqlite"
  | REDIS => "redis"
  end.

Record Meta : Type := {
  backend : string;
  meta_created : option Z
}.

(** The document kept in [index.json]. *)
Record Data : Type := {
  entries : JsObj.t Entry;
  stats : Stats;
  meta : Meta
}.

(** What [index.json] holds: nothing, bytes that [JSON.parse] rejects, or a
    document, that is an object with [entries], [stats] and [meta] as [init]
    and [save] write it.  A file that parses to anything else (['{}'], say)
    is not among the stores described here. *)
Inductive IndexFile : Type :=
| Absent
| Corrupt
| Parsed (d : Data).

(** The cache directory: missing, or a directory in which the SQLite marker
    [cache.db] may be present and [index.json] is as [IndexFile] says. *)
Inductive CacheDir : Type :=
| NoDir
| Dir (cache_db : bool) (index_file : IndexFile).

Definition with_entries (d : Data) (es : JsObj.t Entry) : Data :=
  {| entries := es; stats := stats d; meta := meta d |}.

Definition with_stats (d : Data) (s : Stats) : Data :=
  {| entries := entries d; stats := s; meta := meta d |}.

Definition with_totalEntries (s : Stats) (n : Z) : Stats :=
  {| totalEntries := n; totalHits := totalHits s;
     totalSaved := totalSaved s; costSaved := costSaved s |}.

(** ** Dates and [parseInt] *)

Module Js.

(** The range of a valid [Date], in milliseconds around the epoch. *)
Definition max_time : Z := 8640000000000000.

Definition ms_per_day : Z := 86400000.

(** The time zone of the process: [LocalTime t] is the local time value of
    the instant [t] (its wall-clock reading, counted in milliseconds like an
    instant), and [UTC l] is the instant at which the wall clock reads [l]. *)
Record Zone : Type := {
  LocalTime : Z -> Z;
  UTC : Z -> Z
}.

(** [d.setDate(d.getDate() - days)] on the instant [now]: the date is
    taken and set in local time, so the wall-clock reading moves back by
    [days] whole days and the result is the instant of that reading; [None]
    is an Invalid Date ([days] is [NaN], or the result leaves the range of
    [Date]). *)
Definition minus_days (zone : Zone) (now : Z) (days : option Z) : option Z :=
  match days with
  | None => None
  | Some d =>
      let t := UTC zone (LocalTime zone now - d * ms_per_day) in
      if (Z.abs t <=? max_time) then Some t else None
  end.

(** [a < b] on two dates: false when either is invalid. *)
Definition date_lt (a b : option Z) : bool :=
  match a, b with
  | Some x, Some y => x <? y
  | _, _ => false
  end.

(** The white space of one byte: the space, and the characters from the
    tabulation to the carriage return. *)
Definition is_space (c : ascii) : bool :=
  let n := N_of_ascii c in
  ((n =? 32) || ((9 <=? n) && (n <=? 13)))%N.

(** The white space of more than one byte, in UTF-8: U+00A0; U+1680, U+2000
    to U+200A, U+2028, U+2029, U+202F, U+205F, U+3000 and U+FEFF. *)
Definition wide_space2 (a b : ascii) : bool :=
  ((N_of_ascii a =? 194) && (N_of_ascii b =? 160))%N.

Definition wide_space3 (a b c : ascii) : bool :=
  let a := N_of_ascii a in
  let b := N_of_ascii b in
  let c := N_of_ascii c in
  (((a =? 225) && (b =? 154) && (c =? 128))
   || ((a =? 226) && (b =? 128)
       && (((128 <=? c) && (c <=? 138)) || (c =? 168) || (c =? 169)
           || (c =? 175)))
   || ((a =? 226) && (b =? 129) && (c =? 159))
   || ((a =? 227) && (b =? 128) && (c =? 128))
   || ((a =? 239) && (b =? 187) && (c =? 191)))%N.

(** The text without the white space and the line terminators at its
    start. *)
Fixpoint skip_spaces (s : string) : string :=
  match s with
  | String a s1 =>
      if is_space a then skip_spaces s1
      else
        match s1 with
        | String b s2 =>
            if wide_space2 a b then skip_spaces s2
            else
              match s2 with
              | String c s3 =>
                  if wide_space3 a b c then skip_spaces s3 else s
              | EmptyString => s
              end
        | EmptyString => s
        end
  | EmptyString => s
  end.

Definition digit_in (radix : Z) (c : ascii) : option Z :=
  let n := Z.of_N (N_of_ascii c) in
  let d :=
    if (48 <=? n) && (n <=? 57) then Some (n - 48)
    else if (97 <=? n) && (n <=? 122) then Some (n - 87)
    else if (65 <=? n) && (n <=? 90) then Some (n - 55)
    else None in
  match d with
  | Some v => if v <? radix then Some v else None
  | None => None
  end.

(** The longest prefix of digits; [None] when there is no digit. *)
Fixpoint digits_prefix (radix : Z) (s : string) (acc : option Z) : option Z :=
  match s with
  | EmptyString => acc
  | String c s' =>
      match digit_in radix c with
      | Some d =>
          digits_prefix radix s'
            (Some (radix * match acc with Some a => a | None => 0 end + d))
      | None => acc
      end
  end.

(** [parseInt(s)] with no radix: leading white space, a sign, an optional
    [0x] prefix, then the longest prefix of digits; [None] is [NaN]. *)
Definition parseInt (s : string) : option Z :=
  let s := skip_spaces s in
  let '(neg, s) :=
    match s with
    | String "-" s' => (true, s')
    | String "+" s' => (false, s')
    | _ => (false, s)
    end in
  let '(radix, s) :=
    match s with
    | String "0" (String "x" s') => (16, s')
    | String "0" (String "X" s') => (16, s')
    | _ => (10, s)
    end in
  match digits_prefix radix s None with
  | Some v => Some (if neg then - v else v)
  | None => None
  end.

End Js.

(** ** [class JSONStorage]

    The methods look a hash up with [data.entries[hash]].  A hash is a text
    of hexadecimal digits and names no property of [Object.prototype], so
    the lookup reads the entries of the object itself, which is what
    [JsObj.get] gives.  The statements about these methods are made for
    such keys ([plain_key]). *)

Module JSONStorage.

Inductive InitResult : Type :=
| InitOk.                                   (* { success: true } *)

Inductive SetResult : Type :=
| SetOk (isNew : bool)                      (* { success: true, isNew } *)
| SetFailed (error : string).               (* { success: false, error } *)

Inductive DeleteResult : Type :=
| DeleteOk                                  (* { success: true } *)
| DeleteFailed.                             (* { success: false } *)

(** [{ success, removed }] *)
Record ClearResult : Type := {
  clear_success : bool;
  removed : Z
}.

(** [{ success, imported }] *)
Record ImportResult : Type := {
  import_success : bool;
  imported : Z
}.

(** [{ ...data.stats, cacheSize }] *)
Record StatsView : Type := {
  view : Stats;
  cacheSize : Z
}.

(** [{ hash, ...entry }] *)
Record Listed : Type := {
  hash : string;
  entry : Entry
}.

(** The argument of [updateStats]: the fields it overwrites. *)
Record StatsUpdate : Type := {
  upd_totalEntries : option Z;
  upd_totalHits : option Z;
  upd_totalSaved : option Z
}.

(** The argument of [clear]. *)
Record ClearOptions : Type := {
  olderThan : option string
}.

(** The argument of [importData]: a parsed document whose [entries] may be
    missing. *)
Record Snapshot : Type := {
  snap_entries : option (JsObj.t Entry)
}.

Definition snapshot_of (d : Data) : Snapshot :=
  {| snap_entries := Some (entries d) |}.

Definition fresh_stats : Stats :=
  {| totalEntries := 0; totalHits := 0; totalSaved := 0;
     costSaved := JsObj.empty |}.

Definition load (fs : CacheDir) : option Data :=
  match fs with
  | Dir _ (Parsed d) => Some d
  | _ => None
  end.

(** [fs.writeFileSync(this.indexFile, ...)]; every call follows a
    successful [load] or the [mkdirSync] of [init], so the directory is
    there. *)
Definition save (d : Data) (fs : CacheDir) : CacheDir :=
  match fs with
  | Dir db _ => Dir db (Parsed d)
  | NoDir => NoDir
  end.

Definition init (now : Z) (fs : CacheDir) : InitResult * CacheDir :=
  let fs :=
    match fs with
    | NoDir => Dir false Absent
    | Dir _ _ => fs
    end in
  match fs with
  | Dir _ Absent =>
      (InitOk,
       save {| entries := JsObj.empty; stats := fresh_stats;
               meta := {| backend := backend_id JSON;
                          meta_created := Some now |} |} fs)
  | _ => (InitOk, fs)
  end.

Definition get (h : string) (fs : CacheDir) : option Entry :=
  match load fs with
  | None => None
  | Some data => JsObj.get h (entries data)
  end.

Definition set (h : string) (e : Entry) (fs : CacheDir)
  : SetResult * CacheDir :=
  match load fs with
  | None => (SetFailed "Storage not initialized", fs)
  | Some data =>
      let isNew :=
        match JsObj.get h (entries data) with
        | Some _ => false
        | None => true
        end in
      let data := with_entries data (JsObj.set h e (entries data)) in
      let data :=
        if isNew
        then with_stats data
               (with_totalEntries (stats data) (totalEntries (stats data) + 1))
        else data in
      (SetOk isNew, save data fs)
  end.

Definition delete (h : string) (fs : CacheDir) : DeleteResult * CacheDir :=
  match load fs with
  | None => (DeleteFailed, fs)
  | Some data =>
      match JsObj.get h (entries data) with
      | Some _ =>
          let data := with_entries data (JsObj.delete h (entries data)) in
          let data :=
            with_stats data
              (with_totalEntries (stats data) (totalEntries (stats data) - 1)) in
          (DeleteOk, save data fs)
      | None => (DeleteFailed, fs)
      end
  end.

Definition list (fs : CacheDir) : list Listed :=
  match load fs with
  | None => []
  | Some data =>
      map (fun p => {| hash := fst p; entry := snd p |})
          (JsObj.entries (entries data))
  end.

Section FileSize.
(** [fs.statSync(indexFile).size]: the byte length of
    [JSON.stringify(data, null, 2)]. *)
Variable file_size : Data -> Z.

Definition getStats (fs : CacheDir) : option StatsView :=
  match load fs with
  | None => None
  | Some data =>
      Some {| view := stats data; cacheSize := file_size data |}
  end.
End FileSize.

Definition assign (s : Stats) (u : StatsUpdate) : Stats :=
  {| totalEntries :=
       match upd_totalEntries u with Some n => n | None => totalEntries s end;
     totalHits :=
       match upd_totalHits u with Some n => n | None => totalHits s end;
     totalSaved :=
       match upd_totalSaved u with Some n => n | None => totalSaved s end;
     costSaved := costSaved s |}.

Definition updateStats (u : StatsUpdate) (fs : CacheDir) : CacheDir :=
  match load fs with
  | None => fs
  | Some data => save (with_stats data (assign (stats data) u)) fs
  end.

(** [new Date(entry.created) < cutoff] *)
Definition older (cutoff : option Z) (e : Entry) : bool :=
  Js.date_lt (created e) cutoff.

(** One round of the loop of [clear] over [Object.entries(data.entries)]. *)
Definition clear_step (cutoff : option Z)
    (acc : JsObj.t Entry * Z) (p : string * Entry) : JsObj.t Entry * Z :=
  if older cutoff (snd p)
  then (JsObj.delete (fst p) (fst acc), snd acc + 1)
  else acc.

(** A string is truthy unless it is empty. *)
Definition truthy_string (o : option string) : option string :=
  match o with
  | Some EmptyString => None
  | _ => o
  end.

Definition clear (zone : Js.Zone) (options : ClearOptions) (now : Z)
    (fs : CacheDir) : ClearResult * CacheDir :=
  match load fs with
  | None => ({| clear_success := false; removed := 0 |}, fs)
  | Some data =>
      match truthy_string (olderThan options) with
      | Some text =>
          let days := Js.parseInt text in
          let cutoff := Js.minus_days zone now days in
          let '(es, n) :=
            fold_left (clear_step cutoff) (JsObj.entries (entries data))
                      (entries data, 0) in
          let data := with_entries data es in
          let data :=
            with_stats data
              (with_totalEntries (stats data) (totalEntries (stats data) - n)) in
          ({| clear_success := true; removed := n |}, save data fs)
      | None =>
          let n := JsObj.size (entries data) in
          let data :=
            {| entries := JsObj.empty; stats := fresh_stats;
               meta := meta data |} in
          ({| clear_success := true; removed := n |}, save data fs)
      end
  end.

Definition exportData (fs : CacheDir) : option Data := load fs.

Definition has (h : string) (es : JsObj.t Entry) : bool :=
  match JsObj.get h es with
  | Some _ => true
  | None => false
  end.

(** One round of the loop of [importData] over
    [Object.entries(importedData.entries || {})]. *)
Definition import_step (strategy : string)
    (acc : JsObj.t Entry * Z) (p : string * Entry) : JsObj.t Entry * Z :=
  let '(es, n) := acc in
  let '(h, e) := p in
  if String.eqb strategy "skip-existing" && has h es then acc
  else if String.eqb strategy "replace" || negb (has h es)
       then (JsObj.set h e es, n + 1)
       else if String.eqb strategy "merge" && negb (has h es)
            then (JsObj.set h e es, n + 1)
            else acc.

Definition importData (importedData : Snapshot) (strategy : string)
    (fs : CacheDir) : ImportResult * CacheDir :=
  match load fs with
  | None => ({| import_success := false; imported := 0 |}, fs)
  | Some data =>
      let incoming :=
        match snap_entries importedData with
        | Some es => es
        | None => JsObj.empty
        end in
      let '(es, n) :=
        fold_left (import_step strategy) (JsObj.entries incoming)
                  (entries data, 0) in
      let data := with_entries data es in
      let data :=
        with_stats data (with_totalEntries (stats data) (JsObj.size es)) in
      ({| import_success := true; imported := n |}, save data fs)
  end.

End JSONStorage.

(** ** [class SQLiteStorage]

    The constructor sets [this.db = null]; only [init] opens the database,
    and only under a PRO license.  These are the methods on an instance
    whose [db] is [null], which is the only instance the functions of
    [cache.js] ever hold ([getStorage] never calls [init]). *)

Module SQLiteStorage.

Definition get (h : string) : option Entry := None.

Definition set (h : string) (e : Entry) : JSONStorage.SetResult :=
  JSONStorage.SetFailed "Database not initialized".

Definition delete (h : string) : JSONStorage.DeleteResult :=
  JSONStorage.DeleteFailed.

Definition list : list JSONStorage.Listed := [].

Definition getStats : option JSONStorage.StatsView := None.

Definition clear : JSONStorage.ClearResult :=
  {| JSONStorage.clear_success := false; JSONStorage.removed := 0 |}.

Definition exportData : option Data := None.

(** [init()]: refused without a PRO license; with one, the outcome is that
    of [require('better-sqlite3')], [new Database(this.dbPath)] and the
    statements that create the tables, which are not part of these sources:
    [open_database] gives the message of the error they throw, if any, and
    the directory they leave. *)
Inductive InitResult : Type :=
| InitOk                                    (* { success: true } *)
| InitFailed (error : string).              (* { success: false, error } *)

Section Database.
Variable open_database : CacheDir -> option string * CacheDir.

Definition init (pro : bool) (fs : CacheDir) : InitResult * CacheDir :=
  if negb pro then (InitFailed "SQLite backend is a PRO feature", fs)
  else
    match open_database fs with
    | (None, fs') => (InitOk, fs')
    | (Some e, fs') => (InitFailed e, fs')
    end.
End Database.

End SQLiteStorage.

(** ** The backend factory and the backend resolver *)

(** The instance [createStorage] returns. *)
Inductive Storage : Type :=
| JSONStorageAt
| SQLiteStorageAt.

(** [createStorage(cachePath, backend = BACKENDS.JSON)]: the [switch] has a
    case for ['sqlite'], a case for ['redis'] that throws, and
    [case BACKENDS.JSON: default:] for every other identifier. *)
Definition createStorage (selector : option string) : outcome Storage :=
  let b :=
    match selector with
    | Some b => b
    | None => backend_id JSON
    end in
  if String.eqb b (backend_id SQLITE) then Returned SQLiteStorageAt
  else if String.eqb b (backend_id REDIS)
       then Thrown "Redis backend not yet implemented"
       else Returned JSONStorageAt.

(** [detectBackend(cachePath)]: looks for [cache.db] only. *)
Definition detectBackend (fs : CacheDir) : string :=
  match fs with
  | Dir true _ => backend_id SQLITE
  | _ => backend_id JSON
  end.

(** ** [license/limits.js], with [FREE_LIMITS] of [license/constants.js] *)

Module Limits.

Definition maxEntries : Z := 50.
Definition maxResponseSize : Z := 10 * 1024.

(** [{ allowed, reason? }] *)
Record Check : Type := {
  allowed : bool;
  reason : option string
}.

Definition show (n : Z) : string :=
  DecimalString.NilZero.string_of_int (Z.to_int n).

(** [Math.round(n / 1024)] for a byte count [n >= 0]. *)
Definition round_kb (n : Z) : Z := (2 * n + 1024) / 2048.

Definition canAddEntry (pro : bool) (currentCount : Z) : Check :=
  if pro then {| allowed := true; reason := None |}
  else if currentCount >=? maxEntries
       then {| allowed := false;
               reason := Some ("FREE version limited to " ++ show maxEntries
                                 ++ " cache entries")%string |}
       else {| allowed := true; reason := None |}.

Definition checkResponseSize (pro : bool) (size : Z) : Check :=
  if pro then {| allowed := true; reason := None |}
  else if size >? maxResponseSize
       then {| allowed := false;
               reason := Some ("FREE version limited to "
                                 ++ show (round_kb maxResponseSize)
                                 ++ "KB responses (found "
                                 ++ show (round_kb size) ++ "KB)")%string |}
       else {| allowed := true; reason := None |}.

(** [{ tier, unlimited, currentEntries?, maxEntries?, maxResponseSize? }] *)
Record LimitStatus : Type := {
  tier : string;
  unlimited : bool;
  status_currentEntries : option Z;
  status_maxEntries : option Z;
  status_maxResponseSize : option Z
}.

(** [getLimitStatus(currentEntries = 0)] *)
Definition getLimitStatus (pro : bool) (currentEntries : option Z)
  : LimitStatus :=
  if pro
  then {| tier := "pro"; unlimited := true; status_currentEntries := None;
          status_maxEntries := None; status_maxResponseSize := None |}
  else {| tier := "free"; unlimited := false;
          status_currentEntries :=
            Some (match currentEntries with Some n => n | None => 0 end);
          status_maxEntries := Some maxEntries;
          status_maxResponseSize := Some maxResponseSize |}.

(** What [getRemainingEntries] returns: [Infinity] or a count. *)
Inductive Remaining : Type :=
| Unlimited
| Finite (n : Z).

(** [getRemainingEntries(currentCount)] *)
Definition getRemainingEntries (pro : bool) (currentCount : Z) : Remaining :=
  if pro then Unlimited
  else Finite (Z.max 0 (maxEntries - currentCount)).

End Limits.

(** ** [license/checker.js] *)

Module Checker.

(** What [JSON.parse] makes of [license.json], as far as these functions
    look at it: [key] is [data.key] when that is a string; [expiresAt] is
    the date [new Date(data.expiresAt)] when [data.expiresAt] is truthy
    (an Invalid Date is [None] inside). *)
Record License : Type := {
  key : option string;
  expiresAt : option (option Z);
  activatedAt : option Z;
  machine : option string
}.

(** The license file: missing, something [JSON.parse] rejects or that is no
    object, or a license. *)
Inductive LicenseFile : Type :=
| NoLicense
| Unreadable
| Stored (l : License).

(** [getLicense()] at the instant [now]. *)
Definition getLicense (now : Z) (f : LicenseFile) : option License :=
  match f with
  | Stored l =>
      match key l with
      | Some k =>
          if String.eqb k "" || negb (String.prefix "LMC-" k) then None
          else
            match expiresAt l with
            | Some d => if Js.date_lt d (Some now) then None else Some l
            | None => Some l
            end
      | None => None
      end
  | _ => None
  end.

(** [isPro()] *)
Definition isPro (now : Z) (f : LicenseFile) : bool :=
  match getLicense now f with
  | Some _ => true
  | None => false
  end.

(** [{ success, message }] *)
Record Activation : Type := {
  act_success : bool;
  act_message : string
}.

(** [s.split(sep)] for a separator of one character. *)
Fixpoint split_on (sep : ascii) (piece : string) (s : string) : list string :=
  match s with
  | EmptyString => [piece]
  | String c s' =>
      if Ascii.eqb c sep then piece :: split_on sep EmptyString s'
      else split_on sep (piece ++ String c EmptyString) s'
  end.

(** [s.toUpperCase()] on a hexadecimal digest. *)
Fixpoint toUpperCase (s : string) : string :=
  match s with
  | EmptyString => EmptyString
  | String c s' =>
      let n := N_of_ascii c in
      String (if ((97 <=? n) && (n <=? 122))%N then ascii_of_N (n - 32) else c)
             (toUpperCase s')
  end.

Section Digest.
(** [crypto.createHash('md5').update(s).digest('hex')] and
    [os.hostname()]. *)
Variable md5_hex : string -> string.
Variable hostname : string.

Definition expectedChecksum (keyBody : string) : string :=
  toUpperCase (substring 0 4 (md5_hex keyBody)).

(** [activateLicense(key)] at the instant [now]; [None] is a key that is
    [null] or [undefined]. *)
Definition activateLicense (key : option string) (now : Z) (f : LicenseFile)
  : Activation * LicenseFile :=
  match JSONStorage.truthy_string key with
  | None =>
      ({| act_success := false;
          act_message :=
            "Invalid license key format. Expected: LMC-XXXX-XXXX-XXXX-XXXX" |},
       f)
  | Some k =>
      if negb (String.prefix "LMC-" k)
      then ({| act_success := false;
               act_message :=
                 "Invalid license key format. Expected: LMC-XXXX-XXXX-XXXX-XXXX" |},
            f)
      else
        let parts := split_on "-" EmptyString k in
        if negb (Nat.eqb (List.length parts) 5)
        then ({| act_success := false;
                 act_message := "Invalid license key format" |}, f)
        else
          let keyBody := String.concat "-" (firstn 4 parts) in
          let checksum := nth 4 parts EmptyString in
          if negb (String.eqb checksum (expectedChecksum keyBody))
          then ({| act_success := false;
                   act_message := "Invalid license key" |}, f)
          else ({| act_success := true;
                   act_message := "License activated successfully" |},
                Stored {| key := Some k; expiresAt := None;
                          activatedAt := Some now;
                          machine := Some hostname |})
  end.
End Digest.

(** [{ success: true, message }] or [{ success: false, error }] *)
Inductive Deactivation : Type :=
| Deactivated (message : string)
| NotActive (error : string).

(** [deactivateLicense()] *)
Definition deactivateLicense (f : LicenseFile) : Deactivation * LicenseFile :=
  match f with
  | NoLicense => (NotActive "No active license found", f)
  | _ => (Deactivated "License deactivated", NoLicense)
  end.

End Checker.

(** ** [core/cache.js] *)

Module Cache.

(** The license file and the cache directory. *)
Record World : Type := {
  licensed : bool;
  cache : CacheDir
}.

Definition isPro (w : World) : bool := licensed w.

Definition with_cache (w : World) (fs : CacheDir) : World :=
  {| licensed := licensed w; cache := fs |}.

(** The [options] of [set]. *)
Record SetOptions : Type := {
  opt_tokens : option Z;
  opt_ttl : option string;
  opt_tags : option (list string)
}.

Definition no_options : SetOptions :=
  {| opt_tokens := None; opt_ttl := None; opt_tags := None |}.

Inductive SetResult : Type :=
| NotInitialized (message : string)         (* { success: false, message } *)
| LimitExceeded (message : string)          (* ... limitExceeded: true *)
| Stored (hash : string) (isNew : bool) (tokens : Z)
| StorageFailed (error : string).           (* the backend's result *)

Definition limitExceeded (r : SetResult) : bool :=
  match r with
  | LimitExceeded _ => true
  | _ => false
  end.

Definition success (r : SetResult) : bool :=
  match r with
  | Stored _ _ _ => true
  | _ => false
  end.

(** What [get] returns on a hit. *)
Record Hit : Type := {
  hit_response : string;
  hit_model : string;
  hit_hits : Z;
  hit_created : option Z;
  hit_tokens : Z
}.

(** Strings are kept as their UTF-8 bytes: [Buffer.byteLength(s, 'utf8')]
    counts the bytes, [s.length] the UTF-16 code units. *)
Definition byteLength (s : string) : Z := Z.of_nat (String.length s).

Definition utf16_units (c : ascii) : Z :=
  let n := Z.of_N (N_of_ascii c) in
  if n <? 128 then 1
  else if n <? 192 then 0
  else if n <? 240 then 1
  else 2.

Fixpoint utf16_length (s : string) : Z :=
  match s with
  | EmptyString => 0
  | String c s' => utf16_units c + utf16_length s'
  end.

(** [Math.ceil(n / 4)] for a length [n]. *)
Definition ceil_quarter (n : Z) : Z := (n + 3) / 4.

Definition is_digit (c : ascii) : bool :=
  let n := N_of_ascii c in ((48 <=? n) && (n <=? 57))%N.

Fixpoint all_digits (s : string) : bool :=
  match s with
  | EmptyString => true
  | String c s' => is_digit c && all_digits s'
  end.

(** The match of [/^(\d+)(d|h|m|s)$/]: the digits and the unit. *)
Fixpoint split_last (s : string) : option (string * ascii) :=
  match s with
  | EmptyString => None
  | String c EmptyString => Some (EmptyString, c)
  | String c s' =>
      match split_last s' with
      | Some (front, l) => Some (String c front, l)
      | None => None
      end
  end.

Definition parseTTL (ttl : string) : option Z :=
  match split_last ttl with
  | Some (digits, unit) =>
      if all_digits digits && negb (String.eqb digits "")
      then
        match Js.parseInt digits with
        | Some value =>
            if Ascii.eqb unit "d" then Some (value * 86400000)
            else if Ascii.eqb unit "h" then Some (value * 3600000)
            else if Ascii.eqb unit "m" then Some (value * 60000)
            else if Ascii.eqb unit "s" then Some (value * 1000)
            else None
        | None => None
        end
      else None
  | None => None
  end.

Section Environment.
(** [crypto.createHash('sha256').update(s).digest('hex')] and the size of
    the index file on disk. *)
Variable sha256_hex : string -> string.
Variable file_size : Data -> Z.

Definition hashPrompt (prompt model : string) : string :=
  substring 0 12 (sha256_hex (model ++ ":" ++ prompt)%string).

Definition getStorage (w : World) : outcome (option Storage) :=
  match cache w with
  | NoDir => Returned None
  | Dir _ _ =>
      match createStorage (Some (detectBackend (cache w))) with
      | Returned s => Returned (Some s)
      | Thrown m => Thrown m
      end
  end.

Definition storage_getStats (s : Storage) (fs : CacheDir)
  : option JSONStorage.StatsView :=
  match s with
  | JSONStorageAt => JSONStorage.getStats file_size fs
  | SQLiteStorageAt => SQLiteStorage.getStats
  end.

Definition storage_get (s : Storage) (h : string) (fs : CacheDir)
  : option Entry :=
  match s with
  | JSONStorageAt => JSONStorage.get h fs
  | SQLiteStorageAt => SQLiteStorage.get h
  end.

Definition storage_set (s : Storage) (h : string) (e : Entry)
    (fs : CacheDir) : JSONStorage.SetResult * CacheDir :=
  match s with
  | JSONStorageAt => JSONStorage.set h e fs
  | SQLiteStorageAt => (SQLiteStorage.set h e, fs)
  end.

Definition storage_delete (s : Storage) (h : string) (fs : CacheDir)
  : JSONStorage.DeleteResult * CacheDir :=
  match s with
  | JSONStorageAt => JSONStorage.delete h fs
  | SQLiteStorageAt => (SQLiteStorage.delete h, fs)
  end.

(** [storage.updateStats && storage.updateStats(u)]: only the JSON
    backend has the method. *)
Definition storage_updateStats (s : Storage) (u : JSONStorage.StatsUpdate)
    (fs : CacheDir) : CacheDir :=
  match s with
  | JSONStorageAt => JSONStorage.updateStats u fs
  | SQLiteStorageAt => fs
  end.

Definition null_stats : string :=
  "TypeError: Cannot read properties of null (reading 'totalEntries')".

(** [set(prompt, response, model, options)] at the instant [now]. *)
Definition set (prompt response model : string) (options : SetOptions)
    (now : Z) (w : World) : outcome SetResult * World :=
  match getStorage w with
  | Thrown m => (Thrown m, w)
  | Returned None =>
      (Returned (NotInitialized "Cache not initialized. Run: llmcache init"), w)
  | Returned (Some storage) =>
      match storage_getStats storage (cache w) with
      | None => (Thrown null_stats, w)
      | Some stats =>
          let entryCheck :=
            Limits.canAddEntry (isPro w)
              (totalEntries (JSONStorage.view stats)) in
          if negb (Limits.allowed entryCheck)
          then (Returned (LimitExceeded
                  (match Limits.reason entryCheck with
                   | Some r => r | None => "" end)), w)
          else
            let sizeCheck :=
              Limits.checkResponseSize (isPro w) (byteLength response) in
            if negb (Limits.allowed sizeCheck)
            then (Returned (LimitExceeded
                    (match Limits.reason sizeCheck with
                     | Some r => r | None => "" end)), w)
            else
              let h := hashPrompt prompt model in
              let toks :=
                match opt_tokens options with
                | Some 0 | None => ceil_quarter (utf16_length response)
                | Some t => t
                end in
              let ttlMs :=
                match JSONStorage.truthy_string (opt_ttl options) with
                | Some ttl => if isPro w then parseTTL ttl else None
                | None => None
                end in
              let expiry : outcome (option Z) :=
                match ttlMs with
                | Some 0 | None => Returned None
                | Some ms =>
                    if Z.abs (now + ms) <=? Js.max_time
                    then Returned (Some (now + ms))
                    else Thrown "RangeError: Invalid time value"
                end in
              match expiry with
              | Thrown m => (Thrown m, w)
              | Returned exp =>
                  let entry :=
                    {| prompt := prompt; response := response;
                       model := model; created := Some now; hits := 0;
                       tokens := toks; expires := exp;
                       tags := match opt_tags options with
                               | Some ts => if isPro w then Some ts else None
                               | None => None
                               end |} in
                  let '(result, fs) := storage_set storage h entry (cache w) in
                  match result with
                  | JSONStorage.SetOk isNew =>
                      (Returned (Stored h isNew toks), with_cache w fs)
                  | JSONStorage.SetFailed e =>
                      (Returned (StorageFailed e), with_cache w fs)
                  end
              end
      end
  end.

Definition with_hits (e : Entry) (n : Z) : Entry :=
  {| prompt := prompt e; response := response e; model := model e;
     created := created e; hits := n; tokens := tokens e;
     expires := expires e; tags := tags e |}.

(** [get(prompt, model, options)] at the instant [now]. *)
Definition get (prompt' model' : string) (now : Z) (w : World)
  : outcome (option Hit) * World :=
  match getStorage w with
  | Thrown m => (Thrown m, w)
  | Returned None => (Returned None, w)
  | Returned (Some storage) =>
      let h := hashPrompt prompt' model' in
      match storage_get storage h (cache w) with
      | None => (Returned None, w)
      | Some entry =>
          if Js.date_lt (expires entry) (Some now)
          then
            (Returned None,
             with_cache w (snd (storage_delete storage h (cache w))))
          else
            let entry := with_hits entry (hits entry + 1) in
            let fs := snd (storage_set storage h entry (cache w)) in
            match storage_getStats storage fs with
            | None => (Thrown null_stats, with_cache w fs)
            | Some stats =>
                let u :=
                  {| JSONStorage.upd_totalEntries := None;
                     JSONStorage.upd_totalHits :=
                       Some (totalHits (JSONStorage.view stats) + 1);
                     JSONStorage.upd_totalSaved :=
                       Some (totalSaved (JSONStorage.view stats)
                             + byteLength (response entry)) |} in
                let fs := storage_updateStats storage u fs in
                (Returned
                   (Some {| hit_response := response entry;
                            hit_model := model entry;
                            hit_hits := hits entry;
                            hit_created := created entry;
                            hit_tokens := tokens entry |}),
                 with_cache w fs)
            end
      end
  end.

Definition storage_list (s : Storage) (fs : CacheDir)
  : list JSONStorage.Listed :=
  match s with
  | JSONStorageAt => JSONStorage.list fs
  | SQLiteStorageAt => SQLiteStorage.list
  end.

Definition storage_clear (s : Storage) (zone : Js.Zone)
    (options : JSONStorage.ClearOptions) (now : Z) (fs : CacheDir)
  : JSONStorage.ClearResult * CacheDir :=
  match s with
  | JSONStorageAt => JSONStorage.clear zone options now fs
  | SQLiteStorageAt => (SQLiteStorage.clear, fs)
  end.

Definition storage_exportData (s : Storage) (fs : CacheDir) : option Data :=
  match s with
  | JSONStorageAt => JSONStorage.exportData fs
  | SQLiteStorageAt => SQLiteStorage.exportData
  end.

(** What [clear] returns: its own failure, or the backend's result. *)
Inductive ClearOutcome : Type :=
| ClearNotInitialized (message : string)    (* { success: false, message } *)
| Cleared (r : JSONStorage.ClearResult).

(** [clear(options)] at the instant [now], in the time zone [zone]. *)
Definition clear (zone : Js.Zone) (options : JSONStorage.ClearOptions)
    (now : Z) (w : World) : outcome ClearOutcome * World :=
  match getStorage w with
  | Thrown m => (Thrown m, w)
  | Returned None =>
      (Returned (ClearNotInitialized "Cache not initialized"), w)
  | Returned (Some storage) =>
      let '(r, fs) := storage_clear storage zone options now (cache w) in
      (Returned (Cleared r), with_cache w fs)
  end.

(** [exportCache(options)] *)
Definition exportCache (w : World) : outcome (option Data) :=
  match getStorage w with
  | Thrown m => Thrown m
  | Returned None => Returned None
  | Returned (Some storage) =>
      Returned (storage_exportData storage (cache w))
  end.

(** What [importCache] returns: its own failure, or the backend's result. *)
Inductive ImportOutcome : Type :=
| ImportNotInitialized (message : string)   (* { success: false, message } *)
| Imported (r : JSONStorage.ImportResult).

(** [importCache(data, options)]; [strategy] is [options.strategy], [None]
    when it is left out.  Only the JSON backend has [importData]. *)
Definition importCache (data : JSONStorage.Snapshot)
    (strategy : option string) (w : World) : outcome ImportOutcome * World :=
  match getStorage w with
  | Thrown m => (Thrown m, w)
  | Returned None =>
      (Returned (ImportNotInitialized "Cache not initialized"), w)
  | Returned (Some JSONStorageAt) =>
      let '(r, fs) :=
        JSONStorage.importData data
          (match strategy with Some s => s | None => "merge"%string end)
          (cache w) in
      (Returned (Imported r), with_cache w fs)
  | Returned (Some SQLiteStorageAt) =>
      (Thrown "TypeError: storage.importData is not a function", w)
  end.

(** What [stats] returns.  [oldestEntry] and [newestEntry] are [null] or
    the [created] of an entry. *)
Record Report : Type := {
  rep_entries : Z;
  rep_totalHits : Z;
  tokensSaved : Z;
  rep_cacheSize : Z;
  rep_costSaved : JsObj.t Z;
  oldestEntry : option (option Z);
  newestEntry : option (option Z)
}.

(** [Math.round(n / 4)] for an integer [n]. *)
Definition round_quarter (n : Z) : Z := (n + 2) / 4.

(** [a.reduce(f)], with no initial value, where the array is not empty. *)
Definition reduce {A : Type} (f : A -> A -> A) (a : list A) : option A :=
  match a with
  | [] => None
  | x :: a' => Some (fold_left f a' x)
  end.

(** [(a, b) => new Date(a.created) < new Date(b.created) ? a : b] *)
Definition older_of (a b : JSONStorage.Listed) : JSONStorage.Listed :=
  if Js.date_lt (created (JSONStorage.entry a)) (created (JSONStorage.entry b))
  then a else b.

(** [(a, b) => new Date(a.created) > new Date(b.created) ? a : b] *)
Definition newer_of (a b : JSONStorage.Listed) : JSONStorage.Listed :=
  if Js.date_lt (created (JSONStorage.entry b)) (created (JSONStorage.entry a))
  then a else b.

Definition created_of (e : JSONStorage.Listed) : option Z :=
  created (JSONStorage.entry e).

(** [stats(options)] *)
Definition stats (w : World) : outcome (option Report) :=
  match getStorage w with
  | Thrown m => Thrown m
  | Returned None => Returned None
  | Returned (Some storage) =>
      match storage_getStats storage (cache w) with
      | None => Thrown null_stats
      | Some s =>
          let listed := storage_list storage (cache w) in
          Returned
            (Some {| rep_entries := totalEntries (JSONStorage.view s);
                     rep_totalHits := totalHits (JSONStorage.view s);
                     tokensSaved :=
                       round_quarter (totalSaved (JSONStorage.view s));
                     rep_cacheSize := JSONStorage.cacheSize s;
                     rep_costSaved := costSaved (JSONStorage.view s);
                     oldestEntry :=
                       option_map created_of (reduce older_of listed);
                     newestEntry :=
                       option_map created_of (reduce newer_of listed) |})
      end
  end.

(** What [init] returns. *)
Inductive InitOutcome : Type :=
| AlreadyExists (message : string)   (* { success: false, message, path } *)
| ProFeature (message : string)      (* { success: false, message } *)
| Initialized (backend : string)     (* { success: true, path, backend } *)
| BackendFailed (error : string).    (* the backend's { success: false, error } *)

Section Database.
(** See [SQLiteStorage.init]. *)
Variable open_database : CacheDir -> option string * CacheDir.

(** [init(options)] at the instant [now].  The options [global] and
    [customPath] name the directory, which is [cache w]; [backend] is
    [options.backend], [None] when it is left out. *)
Definition init (backend : option string) (now : Z) (w : World)
  : outcome InitOutcome * World :=
  let b := match backend with Some b => b | None => backend_id JSON end in
  match cache w with
  | Dir _ _ => (Returned (AlreadyExists "Cache already exists"), w)
  | NoDir =>
      if negb (String.eqb b (backend_id JSON)) && negb (isPro w)
      then (Returned (ProFeature (b ++ " backend is a PRO feature")), w)
      else
        match createStorage (Some b) with
        | Thrown m => (Thrown m, w)
        | Returned JSONStorageAt =>
            let '(_, fs) := JSONStorage.init now (cache w) in
            (Returned (Initialized b), with_cache w fs)
        | Returned SQLiteStorageAt =>
            match SQLiteStorage.init open_database (isPro w) (cache w) with
            | (SQLiteStorage.InitOk, fs) =>
                (Returned (Initialized b), with_cache w fs)
            | (SQLiteStorage.InitFailed e, fs) =>
                (Returned (BackendFailed e), with_cache w fs)
            end
        end
  end.
End Database.

End Environment.

(** [getCachePath(global = false, customPath = null)] and the [cachePath]
    that [init] computes from the same two options.  [resolve] is
    [path.resolve], [GLOBAL_CACHE_DIR] is
    [path.join(os.homedir(), '.llmcache', 'cache')], and [existsSync] tells
    which paths exist. *)
Section Paths.
Variable resolve : string -> string.
Variable GLOBAL_CACHE_DIR : string.
Variable existsSync : string -> bool.

Definition LOCAL_CACHE_DIR : string := ".llmcache".

Definition getCachePath (global : bool) (customPath : option string)
  : string :=
  match JSONStorage.truthy_string customPath with
  | Some p => resolve p
  | None =>
      if global then GLOBAL_CACHE_DIR
      else if existsSync (resolve LOCAL_CACHE_DIR)
           then resolve LOCAL_CACHE_DIR
           else if existsSync GLOBAL_CACHE_DIR then GLOBAL_CACHE_DIR
                else resolve LOCAL_CACHE_DIR
  end.

Definition init_cachePath (global : bool) (customPath : option string)
  : string :=
  match JSONStorage.truthy_string customPath with
  | Some p => resolve p
  | None => if global then GLOBAL_CACHE_DIR else resolve LOCAL_CACHE_DIR
  end.
End Paths.

End Cache.

(** ** [core/similarity.js] *)

Module Similarity.

(** *** Numbers *)

Definition float_of_nat (n : nat) : float :=
  PrimFloat.of_uint63 (Uint63.of_Z (Z.of_nat n)).

(** [x || 0] on a number that may be [undefined]: [NaN] and both zeros are
    falsy. *)
Definition or_zero (x : option float) : float :=
  match x with
  | Some v => if PrimFloat.is_nan v || PrimFloat.is_zero v then 0%float else v
  | None => 0%float
  end.

(** [o[k] || 0] as a factor of a product.  When [o] has no property [k] but
    [k] is inherited, the value is a function, which is truthy and whose
    number value is [NaN]. *)
Definition number_at (o : JsObj.t float) (k : string) : float :=
  match JsObj.get k o with
  | Some v => or_zero (Some v)
  | None => if JsObj.inherited k then nan else 0%float
  end.

(** [Math.round(x)]: the integer nearest to [x], ties towards [+Infinity];
    a result of zero keeps the sign of [x].  A finite [x] is [v * 2^e] for
    the integers [v] and [e] of its binary representation, and
    [floor(x + 1/2)] is computed on them exactly. *)
Definition Math_round (x : float) : float :=
  match Prim2SF x with
  | S754_finite s m e =>
      if 0 <=? e then x
      else
        let v := if s then Z.neg m else Z.pos m in
        let n := (2 * v + 2 ^ (- e)) / 2 ^ (1 - e) in
        if n =? 0 then (if s then (-0)%float else 0%float)
        else
          let a := PrimFloat.of_uint63 (Uint63.of_Z (Z.abs n)) in
          if n <? 0 then (- a)%float else a
  | _ => x
  end.

(** [Math.round(x * 100) / 100] *)
Definition round2 (x : float) : float :=
  (Math_round (x * 100) / 100)%float.

(** *** [tokenize] *)

Definition code (c : ascii) : N := N_of_ascii c.

(** The lower-case form of a character of one byte. *)
Definition lower (c : ascii) : ascii :=
  if ((65 <=? code c) && (code c <=? 90))%N
  then ascii_of_N (code c + 32)
  else c.

(** [text.toLowerCase()], as far as the letters of ASCII go: those of the
    text, and those that the lower-case forms of two characters beyond
    ASCII bring in.  U+0130, the capital I with a dot (bytes 196 176),
    becomes [i] and the combining dot U+0307 (bytes 204 135), and the Kelvin
    sign U+212A (bytes 226 132 170) becomes [k].  Every other character
    beyond ASCII has a lower-case form beyond ASCII, which [tokenize] blanks
    as it blanks the character itself: it is left as it is. *)
Fixpoint toLowerCase (s : string) : string :=
  match s with
  | String a s1 =>
      match s1 with
      | String b s2 =>
          if ((code a =? 196) && (code b =? 176))%N
          then String "i" (String "204" (String "135" (toLowerCase s2)))
          else
            match s2 with
            | String c s3 =>
                if ((code a =? 226) && (code b =? 132) && (code c =? 170))%N
                then String "k" (toLowerCase s3)
                else String (lower a) (toLowerCase s1)
            | EmptyString => String (lower a) (toLowerCase s1)
            end
      | EmptyString => String (lower a) EmptyString
      end
  | EmptyString => EmptyString
  end.

(** [\w] *)
Definition is_word (c : ascii) : bool :=
  let n := code c in
  (((48 <=? n) && (n <=? 57)) || ((65 <=? n) && (n <=? 90))
   || ((97 <=? n) && (n <=? 122)) || (n =? 95))%N.

(** [.replace(/[^\w\s]/g, ' ')] on one byte.  No byte of a character beyond
    ASCII is a word character; the white space beyond ASCII, which the
    pattern keeps, separates the words as the blanks put here do. *)
Definition blank_punctuation (c : ascii) : ascii :=
  if is_word c || Js.is_space c then c else " "%char.

Fixpoint map_string (f : ascii -> ascii) (s : string) : string :=
  match s with
  | EmptyString => EmptyString
  | String c s' => String (f c) (map_string f s')
  end.

(** [.split(/\s+/)]: the pieces between the runs of white space, the empty
    first and last pieces included. *)
Fixpoint split_spaces (in_gap : bool) (piece : string) (s : string)
  : list string :=
  match s with
  | EmptyString => [piece]
  | String c s' =>
      if Js.is_space c
      then if in_gap then split_spaces true EmptyString s'
           else piece :: split_spaces true EmptyString s'
      else split_spaces false (piece ++ String c EmptyString) s'
  end.

Definition tokenize (text : string) : list string :=
  filter (fun w => (2 <? String.length w)%nat)
    (split_spaces false EmptyString
       (map_string blank_punctuation (toLowerCase text))).

(** *** [termFrequency] *)

(** [tf[token] = (tf[token] || 0) + 1].  For a token that is an inherited
    name the value read is a function, or the string an earlier round left,
    and the sum is a string that is no numeral: every number computed from it
    later is [NaN], which stands for it here.  An assignment of a string to
    [__proto__] does nothing. *)
Definition count_token (tf : JsObj.t float) (token : string) : JsObj.t float :=
  if String.eqb token "__proto__" then tf
  else if JsObj.inherited token then JsObj.set token nan tf
  else JsObj.set token (or_zero (JsObj.get token tf) + 1)%float tf.

Definition map_values (f : float -> float) (o : JsObj.t float) : JsObj.t float :=
  map (fun p => (fst p, f (snd p))) o.

Definition termFrequency (tokens : list string) : JsObj.t float :=
  let total := float_of_nat (List.length tokens) in
  let tf := fold_left count_token tokens JsObj.empty in
  map_values (fun n => n / total)%float tf.

(** *** [inverseDocumentFrequency] *)

(** [new Set(doc)]: the distinct tokens, each at its first place. *)
Fixpoint distinct (seen : list string) (l : list string) : list string :=
  match l with
  | [] => []
  | x :: l' =>
      if existsb (String.eqb x) seen then distinct seen l'
      else x :: distinct (x :: seen) l'
  end.

Definition count_document (docCounts : JsObj.t float) (doc : list string)
  : JsObj.t float :=
  fold_left count_token (distinct [] doc) docCounts.

Section Log.
(** [Math.log] *)
Variable Math_log : float -> float.

Definition inverseDocumentFrequency (documents : list (list string))
  : JsObj.t float :=
  let numDocs := float_of_nat (List.length documents) in
  let docCounts := fold_left count_document documents JsObj.empty in
  map_values (fun n => Math_log (numDocs / n)%float) docCounts.

(** *** [tfidfVector] *)

Definition tfidfVector (tf idf : JsObj.t float) : JsObj.t float :=
  map (fun p => (fst p, (snd p * number_at idf (fst p))%float)) tf.

(** *** [cosineSimilarity] *)

(** The three accumulators of the loop. *)
Record Sums : Type := {
  dotProduct : float;
  mag1 : float;
  mag2 : float
}.

Definition accumulate (v1 v2 : JsObj.t float) (acc : Sums) (key : string)
  : Sums :=
  let val1 := number_at v1 key in
  let val2 := number_at v2 key in
  {| dotProduct := (dotProduct acc + val1 * val2)%float;
     mag1 := (mag1 acc + val1 * val1)%float;
     mag2 := (mag2 acc + val2 * val2)%float |}.

Definition sums (v1 v2 : JsObj.t float) : Sums :=
  let allKeys := distinct [] (JsObj.keys v1 ++ JsObj.keys v2) in
  fold_left (accumulate v1 v2) allKeys
    {| dotProduct := 0; mag1 := 0; mag2 := 0 |}.

Definition norm1 (v1 v2 : JsObj.t float) : float :=
  PrimFloat.sqrt (mag1 (sums v1 v2)).

Definition norm2 (v1 v2 : JsObj.t float) : float :=
  PrimFloat.sqrt (mag2 (sums v1 v2)).

Definition cosineSimilarity (v1 v2 : JsObj.t float) : float :=
  let s := sums v1 v2 in
  let m1 := PrimFloat.sqrt (mag1 s) in
  let m2 := PrimFloat.sqrt (mag2 s) in
  if (m1 =? 0)%float || (m2 =? 0)%float then 0%float
  else (dotProduct s / (m1 * m2))%float.

(** *** [findSimilar] *)

(** [{ threshold, limit }] *)
Record Options : Type := {
  threshold : option float;
  limit : option Z
}.

(** One element of [results]. *)
Record Match : Type := {
  m_hash : string;
  m_prompt : string;
  m_response : string;
  m_model : string;
  m_hits : Z;
  m_created : option Z;
  similarity : float
}.

(** [{ results, proRequired?, total? }] *)
Record Found : Type := {
  results : list Match;
  proRequired : bool;
  total : option Z
}.

(** [results.sort((a, b) => b.similarity - a.similarity)].
    [Array.prototype.sort] is stable and moves [b] in front of [a], which
    came first, exactly when the comparator's value at [(a, b)] is
    positive; a [NaN] value counts as [0].  [place a l] puts [a], which came
    before every element of [l], into the sorted [l]: behind the elements
    that must precede it and in front of all others. *)
Definition comparator (a b : Match) : float :=
  (similarity b - similarity a)%float.

Fixpoint place (a : Match) (l : list Match) : list Match :=
  match l with
  | [] => [a]
  | b :: l' =>
      if (0 <? comparator a b)%float then b :: place a l'
      else a :: l
  end.

Definition sort (l : list Match) : list Match :=
  fold_right place [] l.

(** [a.slice(0, n)] for an integer [n]: a negative [n] counts from the
    end. *)
Definition slice0 {A : Type} (n : Z) (a : list A) : list A :=
  if n <? 0 then firstn (Z.to_nat (Z.of_nat (List.length a) + n)) a
  else firstn (Z.to_nat n) a.

(** [documents]: the tokens of every prompt, then those of the query. *)
Definition documents_of (query : string) (listed : list JSONStorage.Listed)
  : list (list string) :=
  map (fun e => tokenize (prompt (JSONStorage.entry e))) listed
    ++ [tokenize query].

(** [idf] and [queryVector]. *)
Definition idf_of (query : string) (listed : list JSONStorage.Listed)
  : JsObj.t float :=
  inverseDocumentFrequency (documents_of query listed).

Definition queryVector_of (query : string) (listed : list JSONStorage.Listed)
  : JsObj.t float :=
  tfidfVector (termFrequency (tokenize query)) (idf_of query listed).

(** [similarity] in the loop, before it is rounded: the cosine of the query
    vector and the vector of the prompt. *)
Definition similarity_to (query : string) (listed : list JSONStorage.Listed)
    (prompt_text : string) : float :=
  cosineSimilarity (queryVector_of query listed)
    (tfidfVector (termFrequency (tokenize prompt_text)) (idf_of query listed)).

(** The element pushed for an entry. *)
Definition present (e : JSONStorage.Listed) (value : float) : Match :=
  {| m_hash := JSONStorage.hash e;
     m_prompt := prompt (JSONStorage.entry e);
     m_response := response (JSONStorage.entry e);
     m_model := model (JSONStorage.entry e);
     m_hits := hits (JSONStorage.entry e);
     m_created := created (JSONStorage.entry e);
     similarity := round2 value |}.

(** [similarity >= threshold] *)
Definition retained (th : float) (query : string)
    (listed : list JSONStorage.Listed) (e : JSONStorage.Listed) : bool :=
  (th <=? similarity_to query listed (prompt (JSONStorage.entry e)))%float.

(** The body of the [for] loop. *)
Definition candidate (th : float) (query : string)
    (listed : list JSONStorage.Listed) (e : JSONStorage.Listed) : list Match :=
  if retained th query listed e
  then [present e (similarity_to query listed (prompt (JSONStorage.entry e)))]
  else [].

(** [results] when the loop ends: the retained entries in the order of
    [storage.list()]. *)
Definition collected (th : float) (query : string)
    (listed : list JSONStorage.Listed) : list Match :=
  flat_map (candidate th query listed) listed.

Definition threshold_of (options : Options) : float :=
  match threshold options with
  | Some t => t
  | None => 0.3%float
  end.

Definition limit_of (options : Options) : Z :=
  match limit options with
  | Some n => n
  | None => 10
  end.

(** [findSimilar(query, storage, options)], given [isPro()] and the list
    [storage.list()] returns. *)
Definition findSimilar (pro : bool) (query : string)
    (listed : list JSONStorage.Listed) (options : Options) : Found :=
  if negb pro
  then {| results := []; proRequired := true; total := None |}
  else
    match listed with
    | [] => {| results := []; proRequired := false; total := None |}
    | _ =>
        let found := sort (collected (threshold_of options) query listed) in
        {| results := slice0 (limit_of options) found;
           proRequired := false;
           total := Some (Z.of_nat (List.length found)) |}
    end.

(** [getBestMatch(query, storage, minSimilarity = 0.8)] *)
Definition getBestMatch (pro : bool) (query : string)
    (listed : list JSONStorage.Listed) (minSimilarity : option float)
  : option Match :=
  if negb pro then None
  else
    let th := match minSimilarity with Some t => t | None => 0.8%float end in
    match results (findSimilar pro query listed
                     {| threshold := Some th; limit := Some 1 |}) with
    | m :: _ => Some m
    | [] => None
    end.

End Log.

End Similarity.

(** * The vocabulary of the properties

    The notions the statements below use, and the sample data of the
    examples. *)

(** A key that names no property of [Object.prototype]: [o[k]] is then the
    property [k] of [o] itself, or [undefined].  Every hash is such a key:
    it is made of hexadecimal digits. *)
Definition plain_key (k : string) : Prop := JsObj.inherited k = false.

Definition plain_keys {V : Type} (o : JsObj.t V) : Prop :=
  Forall plain_key (JsObj.keys o).


(** The incoming keys that the local object does not have. *)
Definition fresh_keys (es incoming : JsObj.t Entry) : list (string * Entry) :=
  filter (fun p => negb (JSONStorage.has (fst p) es)) incoming.

(** The keys [clear] deletes while it walks [l]. *)
Definition doomed (cutoff : option Z) (l : list (string * Entry)) (k : string)
  : bool :=
  existsb (fun q => String.eqb (fst q) k && JSONStorage.older cutoff (snd q)) l.

(** The mutating operations of the JSON backend. *)
Inductive Mutation : Type :=
| DoSet (h : string) (e : Entry)
| DoDelete (h : string)
| DoClear (options : JSONStorage.ClearOptions) (now : Z)
| DoImport (importedData : JSONStorage.Snapshot) (strategy : string).

Definition mutate (zone : Js.Zone) (fs : CacheDir) (m : Mutation) : CacheDir :=
  match m with
  | DoSet h e => snd (JSONStorage.set h e fs)
  | DoDelete h => snd (JSONStorage.delete h fs)
  | DoClear options now => snd (JSONStorage.clear zone options now fs)
  | DoImport importedData strategy =>
      snd (JSONStorage.importData importedData strategy fs)
  end.

Definition run (zone : Js.Zone) (ms : list Mutation) (fs : CacheDir)
  : CacheDir :=
  fold_left (mutate zone) ms fs.

(** The hashes a mutation names are plain keys. *)
Definition plain_mutation (m : Mutation) : Prop :=
  match m with
  | DoSet h _ | DoDelete h => plain_key h
  | DoClear _ _ => True
  | DoImport importedData _ =>
      match JSONStorage.snap_entries importedData with
      | Some incoming => plain_keys incoming
      | None => True
      end
  end.


(** The time zone of the examples. *)
Definition utc : Js.Zone :=
  {| Js.LocalTime := fun t => t; Js.UTC := fun l => l |}.

(** The entry counter agrees with the entries. *)
Definition consistent (d : Data) : Prop :=
  JsObj.wf (entries d) /\ totalEntries (stats d) = JsObj.size (entries d).

(** Sample data for the examples below. *)
Definition sample_entry (p r : string) (at_ms : Z) (n : Z) : Entry :=
  {| prompt := p; response := r; model := "default"; created := Some at_ms;
     hits := n; tokens := 1; expires := None; tags := None |}.

Definition sample_data (es : JsObj.t Entry) (s : Stats) : Data :=
  {| entries := es; stats := s;
     meta := {| backend := backend_id JSON; meta_created := Some 0 |} |}.

Definition counted (n h s : Z) : Stats :=
  {| totalEntries := n; totalHits := h; totalSaved := s;
     costSaved := JsObj.empty |}.

Definition two_entries : Data :=
  sample_data [("aaaaaaaaaaaa"%string, sample_entry "first" "one" 0 2);
               ("bbbbbbbbbbbb"%string, sample_entry "second" "two" 5 0)]
              (counted 2 2 6).

Definition import_sample_local : Data :=
  sample_data [("existing"%string, sample_entry "original" "data" 10 0)]
              (counted 1 0 0).

Definition import_sample_incoming : JsObj.t Entry :=
  [("existing"%string, sample_entry "new" "data" 20 0);
   ("newentry"%string, sample_entry "fresh" "data" 20 0)].






(** What the specification asks of the resolver: the SQL backend when
    [cache.db] is there, the JSON backend when only [index.json] is there,
    and "uninitialized" when neither is. *)
Inductive Resolution : Type :=
| UseSQL
| UseJSON
| Uninitialized.

Definition resolve_as_specified (fs : CacheDir) : Resolution :=
  match fs with
  | Dir true _ => UseSQL
  | Dir false Absent => Uninitialized
  | Dir false _ => UseJSON
  | NoDir => Uninitialized
  end.

(** A world whose cache directory is an initialized JSON store. *)
Definition json_world (pro : bool) (d : Data) : Cache.World :=
  {| Cache.licensed := pro; Cache.cache := Dir false (Parsed d) |}.

(** The entry [set] writes. *)
Definition entry_set (pro : bool) (p r m : string) (options : Cache.SetOptions)
    (now : Z) : Entry :=
  {| prompt := p; response := r; model := m; created := Some now; hits := 0;
     tokens := match Cache.opt_tokens options with
               | Some 0 | None => Cache.ceil_quarter (Cache.utf16_length r)
               | Some t => t
               end;
     expires := None;
     tags := match Cache.opt_tags options with
             | Some ts => if pro then Some ts else None
             | None => None
             end |}.

(** A stand-in for SHA-256 in the examples: the digest of a text is the text
    itself, so the hash of a pair is the first 12 characters of
    [model:prompt]. *)
Definition plain_digest (s : string) : string := s.

Definition flat_size (d : Data) : Z := 0.

Definition empty_store : Data := sample_data JsObj.empty (counted 0 0 0).

(** A store of 49 entries whose counter says so. *)
Fixpoint numbered_entries (n : nat) : JsObj.t Entry :=
  match n with
  | O => []
  | S n' =>
      numbered_entries n'
        ++ [(("k" ++ Limits.show (Z.of_nat n'))%string, sample_entry "p" "r" 0 0)]
  end.

Definition store_of_49 : Data :=
  sample_data (numbered_entries 49) (counted 49 0 0).

Definition sim_leb (a b : Similarity.Match) : bool :=
  (Similarity.similarity a <=? Similarity.similarity b)%float.

(** [a] is ranked no lower than [b]. *)
Definition outranks (a b : Similarity.Match) : Prop := sim_leb b a = true.

Definition is_number (m : Similarity.Match) : Prop :=
  PrimFloat.is_nan (Similarity.similarity m) = false.

(** The results whose presented similarity is [k]. *)
Definition tied (k : float) (l : list Similarity.Match) : list Similarity.Match :=
  filter (fun m => (Similarity.similarity m =? k)%float) l.

(** [Math.log] on the arguments the example below calls it with, to the
    nearest double. *)
Definition log_table (x : float) : float :=
  if (x =? 4)%float then 1.3862943611198906%float
  else if (x =? 2)%float then 0.6931471805599453%float
  else if (x =? 4 / 3)%float then 0.28768207245178085%float
  else if (x =? 1)%float then 0%float
  else nan.

Definition listed_as (h p : string) : JSONStorage.Listed :=
  {| JSONStorage.hash := h; JSONStorage.entry := sample_entry p "r" 0 0 |}.

Definition three_prompts : list JSONStorage.Listed :=
  [listed_as "111111111111" "python code examples";
   listed_as "222222222222" "tutorial";
   listed_as "333333333333" "tutorial code"].

Definition default_options : Similarity.Options :=
  {| Similarity.threshold := None; Similarity.limit := None |}.

(** A list is sorted non-increasing by [key]. *)
Fixpoint non_increasing {A : Type} (key : A -> float) (l : list A) : bool :=
  match l with
  | a :: (b :: _) as l' => (key b <=? key a)%float && non_increasing key l'
  | _ => true
  end.

Definition huge : JsObj.t float := [("a"%string, 1e200%float)].

(** Zero, a positive finite number or [+Infinity]. *)
Definition sf_nonneg (x : spec_float) : Prop :=
  match x with
  | S754_zero _ | S754_infinity false | S754_finite false _ _ => True
  | _ => False
  end.

(** Zero or a positive finite number. *)
Definition sf_finite_nonneg (x : spec_float) : Prop :=
  match x with
  | S754_zero _ | S754_finite false _ _ => True
  | _ => False
  end.

(** A number of magnitude at least [2^-537], or [+Infinity]: what the square
    root of a positive number is. *)
Definition sf_root (x : spec_float) : Prop :=
  match x with
  | S754_finite false m e => -536 <= Z.log2 (Zpos m) + 1 + e
  | S754_infinity false => True
  | _ => False
  end.

(** The mantissa and exponent of a binary64 number: 53 digits, or fewer at
    the least exponent. *)
Definition canonical (m : positive) (e : Z) : Prop :=
  -1074 <= e
  /\ Z.log2 (Zpos m) + 1 <= 53
  /\ (Z.log2 (Zpos m) + 1 = 53 \/ e = -1074).

(** The number [m * 2^e] as a multiple of [2^ez]. *)
Definition aligned (m : positive) (e ez : Z) : Z := Zpos m * 2 ^ (e - ez).

(** [0 <= x < Infinity] *)
Definition nonneg_finite (x : float) : bool :=
  ((0 <=? x) && (x <? infinity))%float.

(** The entries of the vector are non-negative and finite. *)
Definition nonneg_entries (v : JsObj.t float) : Prop :=
  Forall (fun p => nonneg_finite (snd p) = true) v.

(** Every entry of the vector is zero: its L2 norm is 0. *)
Definition zero_entries (v : JsObj.t float) : Prop :=
  Forall (fun p => PrimFloat.is_zero (snd p) = true) v.

(** A vector with an entry at a key that every object inherits. *)
Definition at_constructor : JsObj.t float := [("constructor"%string, 1%float)].

(** The keys the loop of [cosineSimilarity] visits. *)
Definition allKeys (v1 v2 : JsObj.t float) : list string :=
  Similarity.distinct [] (JsObj.keys v1 ++ JsObj.keys v2).

Definition unit_a : JsObj.t float :=
  [("a"%string, 1%float); ("b"%string, 2%float)].

Definition unit_b : JsObj.t float :=
  [("a"%string, 2%float); ("c"%string, 1%float)].

(** ** The vocabulary of the further properties *)




(** The document after [set(h, e)]. *)
Definition stored (h : string) (e : Entry) (d : Data) : Data :=
  {| entries := JsObj.set h e (entries d);
     stats := if JSONStorage.has h (entries d) then stats d
              else with_totalEntries (stats d) (totalEntries (stats d) + 1);
     meta := meta d |}.


Definition response_of (n : nat) : string :=
  String.concat "" (repeat "0123456789"%string n).

Definition one_entry_store : Data :=
  sample_data [("gpt-4:What i"%string, sample_entry "What is 2+2?" "4" 0 5)]
              (counted 1 5 5).

(** Every entry of the list has a [created] that is a date. *)
Definition dated (l : list JSONStorage.Listed) : Prop :=
  Forall (fun x => Cache.created_of x <> None) l.

(** A stand-in for the database library: it cannot be loaded. *)
Definition no_database (fs : CacheDir) : option string * CacheDir :=
  (Some "Cannot find module 'better-sqlite3'"%string, fs).

Definition no_cache (pro : bool) : Cache.World :=
  {| Cache.licensed := pro; Cache.cache := NoDir |}.

(** The document [JSONStorage.init] writes at the instant [now]. *)
Definition fresh_data (now : Z) : Data :=
  {| entries := JsObj.empty; stats := JSONStorage.fresh_stats;
     meta := {| backend := backend_id JSON; meta_created := Some now |} |}.

(** A stand-in for [path.resolve] in the examples. *)
Definition resolve_in_tmp (p : string) : string := ("/tmp/" ++ p)%string.

(** A directory listing in which only the paths of [present] exist. *)
Definition only (present : list string) (p : string) : bool :=
  existsb (String.eqb p) present.

(** A stand-in for MD5 in the examples: every digest is the same. *)
Definition constant_digest (s : string) : string :=
  "0123456789abcdef0123456789abcdef".

Definition sample_key : string := "LMC-AAAA-BBBB-CCCC-0123".

(** The text has no dash. *)
Fixpoint dashless (s : string) : bool :=
  match s with
  | EmptyString => true
  | String c s' => negb (Ascii.eqb c "-") && dashless s'
  end.

(** [LMC-a-b-c-x] *)
Definition license_key (a b c x : string) : string :=
  ("LMC-" ++ a ++ "-" ++ b ++ "-" ++ c ++ "-" ++ x)%string.

(** The milliseconds of the units of a TTL. *)
Definition unit_ms (u : ascii) : option Z :=
  if Ascii.eqb u "d" then Some 86400000
  else if Ascii.eqb u "h" then Some 3600000
  else if Ascii.eqb u "m" then Some 60000
  else if Ascii.eqb u "s" then Some 1000
  else None.

(** [Number.MAX_SAFE_INTEGER]: up to it the integers are numbers of
    JavaScript, and their sums and products are exact. *)
Definition MAX_SAFE_INTEGER : Z := 9007199254740991.

(** A lower-case letter, a digit or the underscore. *)
Definition token_char (c : ascii) : bool :=
  let n := N_of_ascii c in
  (((97 <=? n) && (n <=? 122)) || ((48 <=? n) && (n <=? 57)) || (n =? 95))%N.

Definition chars (s : string) : list ascii := list_ascii_of_string s.

(** No key has a non-zero entry in both vectors. *)
Definition orthogonal (v1 v2 : JsObj.t float) : Prop :=
  forall k x y,
    JsObj.get k v1 = Some x -> JsObj.get k v2 = Some y ->
    PrimFloat.is_zero x = true \/ PrimFloat.is_zero y = true.

Definition only_a : JsObj.t float := [("a"%string, 2%float)].
Definition only_b : JsObj.t float := [("b"%string, 3%float)].

(** A world whose cache directory holds the SQLite marker [cache.db]. *)
Definition sqlite_world (pro : bool) (index : IndexFile) : Cache.World :=
  {| Cache.licensed := pro; Cache.cache := Dir true index |}.

(** * Properties *)

(** ** Facts about [JsObj] *)

Section JsObjFacts.
Context {V : Type}.
Implicit Types (o : JsObj.t V) (k : string) (v : V).

Lemma get_replace_same k v o :
  JsObj.get k o <> None -> JsObj.get k (JsObj.replace k v o) = Some v.
Proof.
  induction o as [|[k' v'] o IH]; simpl; [congruence|].
  destruct (String.eqb k k') eqn:E; simpl; rewrite E; auto.
Qed.

Lemma get_replace_other k k' v o :
  k <> k' -> JsObj.get k' (JsObj.replace k v o) = JsObj.get k' o.
Proof.
  intros Hne. induction o as [|[k1 v1] o IH]; simpl; [reflexivity|].
  destruct (String.eqb k k1) eqn:E; simpl.
  - apply String.eqb_eq in E. subst k1.
    apply not_eq_sym in Hne. apply String.eqb_neq in Hne. rewrite Hne.
    reflexivity.
  - rewrite IH. reflexivity.
Qed.

Lemma keys_replace k v o : JsObj.keys (JsObj.replace k v o) = JsObj.keys o.
Proof.
  induction o as [|[k' v'] o IH]; simpl; [reflexivity|].
  destruct (String.eqb k k'); simpl; [reflexivity|].
  f_equal. exact IH.
Qed.

Lemma get_insert_index_same n k v o :
  JsObj.get k o = None -> JsObj.get k (JsObj.insert_index n k v o) = Some v.
Proof.
  induction o as [|[k' v'] o IH]; simpl; intros H.
  - rewrite String.eqb_refl. reflexivity.
  - destruct (String.eqb k k') eqn:E; [discriminate|].
    destruct (JsObj.array_index k') as [n'|]; simpl.
    + destruct (n' <? n)%N; simpl.
      * rewrite E. auto.
      * rewrite String.eqb_refl. reflexivity.
    + rewrite String.eqb_refl. reflexivity.
Qed.

Lemma get_insert_index_other n k k' v o :
  k <> k' ->
  JsObj.get k' (JsObj.insert_index n k v o) = JsObj.get k' o.
Proof.
  intros Hne. apply not_eq_sym in Hne. apply String.eqb_neq in Hne.
  induction o as [|[k1 v1] o IH]; simpl.
  - rewrite Hne. reflexivity.
  - destruct (JsObj.array_index k1) as [n'|]; simpl.
    + destruct (n' <? n)%N; simpl.
      * rewrite IH. reflexivity.
      * rewrite Hne. reflexivity.
    + rewrite Hne. reflexivity.
Qed.

Lemma keys_insert_index n k v o :
  Permutation (JsObj.keys (JsObj.insert_index n k v o)) (k :: JsObj.keys o).
Proof.
  induction o as [|[k' v'] o IH]; simpl; [reflexivity|].
  destruct (JsObj.array_index k') as [n'|]; simpl; [|reflexivity].
  destruct (n' <? n)%N; simpl; [|reflexivity].
  rewrite perm_swap. apply perm_skip. exact IH.
Qed.

Lemma get_app_last_same k v o :
  JsObj.get k o = None -> JsObj.get k (o ++ [(k, v)]) = Some v.
Proof.
  induction o as [|[k' v'] o IH]; simpl; intros H.
  - rewrite String.eqb_refl. reflexivity.
  - destruct (String.eqb k k'); [discriminate|auto].
Qed.

Lemma get_app_last_other k k' v o :
  k <> k' -> JsObj.get k' (o ++ [(k, v)]) = JsObj.get k' o.
Proof.
  intros Hne. apply not_eq_sym in Hne. apply String.eqb_neq in Hne.
  induction o as [|[k1 v1] o IH]; simpl.
  - rewrite Hne. reflexivity.
  - rewrite IH. reflexivity.
Qed.

(** Reading back what was assigned. *)
Lemma get_set_same k v o : JsObj.get k (JsObj.set k v o) = Some v.
Proof.
  unfold JsObj.set. destruct (JsObj.get k o) eqn:G.
  - apply get_replace_same. congruence.
  - destruct (JsObj.array_index k).
    + apply get_insert_index_same, G.
    + apply get_app_last_same, G.
Qed.

Lemma get_set_other k k' v o :
  k <> k' -> JsObj.get k' (JsObj.set k v o) = JsObj.get k' o.
Proof.
  intros Hne. unfold JsObj.set. destruct (JsObj.get k o).
  - apply get_replace_other, Hne.
  - destruct (JsObj.array_index k).
    + apply get_insert_index_other, Hne.
    + apply get_app_last_other, Hne.
Qed.

Lemma keys_set_old k v v' o :
  JsObj.get k o = Some v' ->
  JsObj.keys (JsObj.set k v o) = JsObj.keys o.
Proof.
  intros G. unfold JsObj.set. rewrite G. apply keys_replace.
Qed.

Lemma keys_set_new k v o :
  JsObj.get k o = None ->
  Permutation (JsObj.keys (JsObj.set k v o)) (k :: JsObj.keys o).
Proof.
  intros G. unfold JsObj.set. rewrite G.
  destruct (JsObj.array_index k).
  - apply keys_insert_index.
  - unfold JsObj.keys. rewrite map_app. simpl.
    symmetry. apply Permutation_cons_append.
Qed.

Lemma size_keys o : JsObj.size o = Z.of_nat (List.length (JsObj.keys o)).
Proof. unfold JsObj.size, JsObj.keys. rewrite length_map. reflexivity. Qed.

(** Assignment adds a key exactly when the key is new. *)
Lemma size_set k v o :
  JsObj.size (JsObj.set k v o) =
  JsObj.size o + match JsObj.get k o with Some _ => 0 | None => 1 end.
Proof.
  rewrite !size_keys. destruct (JsObj.get k o) eqn:G.
  - rewrite (keys_set_old _ _ _ _ G). lia.
  - rewrite (Permutation_length (keys_set_new _ v _ G)). simpl. lia.
Qed.

Lemma get_none_not_in k o : JsObj.get k o = None -> ~ In k (JsObj.keys o).
Proof.
  induction o as [|[k' v'] o IH]; simpl; intros H; [tauto|].
  destruct (String.eqb k k') eqn:E; [discriminate|].
  apply String.eqb_neq in E. intros [Heq|Hin]; [congruence|].
  exact (IH H Hin).
Qed.

Lemma wf_set k v o : JsObj.wf o -> JsObj.wf (JsObj.set k v o).
Proof.
  unfold JsObj.wf. intros Hwf. destruct (JsObj.get k o) eqn:G.
  - rewrite (keys_set_old _ _ _ _ G). exact Hwf.
  - apply (Permutation_NoDup (l := k :: JsObj.keys o)).
    + symmetry. apply keys_set_new, G.
    + constructor; [apply get_none_not_in, G | exact Hwf].
Qed.

Lemma keys_delete k o :
  JsObj.keys (JsObj.delete k o) =
  filter (fun k' => negb (String.eqb k k')) (JsObj.keys o).
Proof.
  induction o as [|[k' v'] o IH]; simpl; [reflexivity|].
  destruct (String.eqb k k'); simpl; unfold JsObj.keys in *; rewrite IH;
    reflexivity.
Qed.

Lemma wf_delete k o : JsObj.wf o -> JsObj.wf (JsObj.delete k o).
Proof.
  unfold JsObj.wf. rewrite keys_delete. apply NoDup_filter.
Qed.

Lemma get_delete_same k o : JsObj.get k (JsObj.delete k o) = None.
Proof.
  induction o as [|[k' v'] o IH]; simpl; [reflexivity|].
  destruct (String.eqb k k') eqn:E; simpl; [exact IH|].
  rewrite E. exact IH.
Qed.


Lemma delete_absent k o : ~ In k (JsObj.keys o) -> JsObj.delete k o = o.
Proof.
  induction o as [|[k' v'] o IH]; simpl; intros H; [reflexivity|].
  destruct (String.eqb k k') eqn:E; simpl.
  - apply String.eqb_eq in E. subst. tauto.
  - f_equal. apply IH. tauto.
Qed.

Lemma length_delete k v o :
  JsObj.wf o -> JsObj.get k o = Some v ->
  S (List.length (JsObj.delete k o)) = List.length o.
Proof.
  unfold JsObj.wf.
  induction o as [|[k' v'] o IH]; simpl; intros Hwf G; [discriminate|].
  inversion Hwf as [|? ? Hnotin Hwf']; subst.
  destruct (String.eqb k k') eqn:E; simpl.
  - apply String.eqb_eq in E. subst k'.
    fold (JsObj.delete k o). rewrite (delete_absent _ _ Hnotin). reflexivity.
  - fold (JsObj.delete k o). rewrite (IH Hwf' G). reflexivity.
Qed.

(** Deleting a key that is present removes exactly one property. *)
Lemma size_delete k v o :
  JsObj.wf o -> JsObj.get k o = Some v ->
  JsObj.size (JsObj.delete k o) = JsObj.size o - 1.
Proof.
  intros Hwf G. unfold JsObj.size.
  rewrite <- (length_delete k v o Hwf G). lia.
Qed.

End JsObjFacts.

Lemma in_get {V : Type} (o : JsObj.t V) k v :
  JsObj.wf o -> In (k, v) o -> JsObj.get k o = Some v.
Proof.
  unfold JsObj.wf. induction o as [|[k' v'] o IH]; simpl; intros Hwf Hin;
    [tauto|].
  inversion Hwf as [|? ? Hnotin Hwf']; subst.
  destruct Hin as [E|Hin].
  - injection E as -> ->. rewrite String.eqb_refl. reflexivity.
  - destruct (String.eqb k k') eqn:E.
    + apply String.eqb_eq in E. subst k'. exfalso. apply Hnotin.
      apply (in_map fst) in Hin. exact Hin.
    + apply IH; assumption.
Qed.

Lemma get_in {V : Type} (o : JsObj.t V) k v :
  JsObj.get k o = Some v -> In (k, v) o.
Proof.
  induction o as [|[k' v'] o IH]; simpl; [discriminate|].
  destruct (String.eqb k k') eqn:E.
  - apply String.eqb_eq in E. subst k'. intros [= ->]. left. reflexivity.
  - intros H. right. apply IH, H.
Qed.

(** ** The loops of [importData] and [clear] *)

Section StorageLoops.
Lemma has_set_other h h' e es :
  h <> h' -> JSONStorage.has h' (JsObj.set h e es) = JSONStorage.has h' es.
Proof. intros Hne. unfold JSONStorage.has. rewrite get_set_other by exact Hne. reflexivity. Qed.

(** Under every strategy but ['replace'] a key is written exactly when the
    local object does not have it. *)
Lemma import_step_keeps_existing strategy es n h e :
  strategy <> "replace"%string ->
  JSONStorage.import_step strategy (es, n) (h, e) =
  if JSONStorage.has h es then (es, n) else (JsObj.set h e es, n + 1).
Proof.
  intros Hs. apply String.eqb_neq in Hs. unfold JSONStorage.import_step. rewrite Hs.
  destruct (JSONStorage.has h es); simpl.
  - destruct (String.eqb strategy "skip-existing"); simpl;
      destruct (String.eqb strategy "merge"); reflexivity.
  - rewrite andb_false_r. reflexivity.
Qed.

Lemma import_step_wf strategy acc p :
  JsObj.wf (fst acc) -> JsObj.wf (fst (JSONStorage.import_step strategy acc p)).
Proof.
  destruct acc as [es n], p as [h e]. unfold JSONStorage.import_step. simpl. intros Hwf.
  repeat match goal with
         | |- context [if ?b then _ else _] => destruct b; simpl
         end; auto using wf_set.
Qed.

Lemma import_fold_wf strategy l acc :
  JsObj.wf (fst acc) ->
  JsObj.wf (fst (fold_left (JSONStorage.import_step strategy) l acc)).
Proof.
  revert acc. induction l as [|p l IH]; simpl; intros acc Hwf; [exact Hwf|].
  apply IH, import_step_wf, Hwf.
Qed.

Lemma import_fold_keeps_existing strategy l :
  strategy <> "replace"%string ->
  forall es n,
    JsObj.wf l ->
    let r := fold_left (JSONStorage.import_step strategy) l (es, n) in
    (forall h, JsObj.get h (fst r) =
               match JsObj.get h es with
               | Some e => Some e
               | None => JsObj.get h l
               end)
    /\ snd r = n + Z.of_nat (List.length (fresh_keys es l)).
Proof.
  intros Hs. induction l as [|[h e] l IH]; intros es n Hwf.
  - simpl. split; [|lia]. intros h. destruct (JsObj.get h es); reflexivity.
  - inversion Hwf as [|? ? Hnotin Hwf']; subst.
    cbn [fold_left]. rewrite (import_step_keeps_existing _ _ _ _ _ Hs).
    unfold fresh_keys. cbn [filter fst].
    destruct (JSONStorage.has h es) eqn:Hh; cbn [negb].
    + destruct (IH es n Hwf') as [Hget Hn]. split; [|exact Hn].
      intros h'. rewrite Hget. unfold JSONStorage.has in Hh.
      destruct (JsObj.get h' es) eqn:G; [reflexivity|].
      simpl. destruct (String.eqb h' h) eqn:E; [|reflexivity].
      apply String.eqb_eq in E. subst h'. rewrite G in Hh. discriminate.
    + destruct (IH (JsObj.set h e es) (n + 1) Hwf') as [Hget Hn]. split.
      * intros h'. rewrite Hget. simpl.
        destruct (String.eqb h' h) eqn:E.
        -- apply String.eqb_eq in E. subst h'. rewrite get_set_same.
           unfold JSONStorage.has in Hh. destruct (JsObj.get h es); [discriminate|reflexivity].
        -- apply String.eqb_neq in E.
           rewrite get_set_other by congruence. reflexivity.
      * rewrite Hn. cbn [List.length]. unfold fresh_keys.
        rewrite (filter_ext_in
                   (fun p => negb (JSONStorage.has (fst p) (JsObj.set h e es)))
                   (fun p => negb (JSONStorage.has (fst p) es))).
        -- lia.
        -- intros [h' e'] Hin. cbn [fst]. rewrite has_set_other; [reflexivity|].
           intros ->. apply Hnotin. apply (in_map fst) in Hin. exact Hin.
Qed.

Lemma filter_delete (f : string * Entry -> bool) k (o : JsObj.t Entry) :
  filter f (JsObj.delete k o) =
  filter (fun p => negb (String.eqb k (fst p)) && f p) o.
Proof.
  unfold JsObj.delete. induction o as [|p o IH]; simpl; [reflexivity|].
  destruct (String.eqb k (fst p)); simpl; rewrite IH; reflexivity.
Qed.

Lemma clear_fold cutoff l :
  forall es n,
    fold_left (JSONStorage.clear_step cutoff) l (es, n) =
    (filter (fun p => negb (doomed cutoff l (fst p))) es,
     n + Z.of_nat (List.length (filter (fun q => JSONStorage.older cutoff (snd q)) l))).
Proof.
  induction l as [|q l IH]; intros es n.
  - simpl. f_equal; [|lia].
    induction es as [|p es IHes]; simpl; [reflexivity|]. f_equal. exact IHes.
  - cbn [fold_left filter].
    replace (JSONStorage.clear_step cutoff (es, n) q)
      with (if JSONStorage.older cutoff (snd q)
            then (JsObj.delete (fst q) es, n + 1) else (es, n))
      by reflexivity.
    destruct (JSONStorage.older cutoff (snd q)) eqn:Ho.
    + rewrite IH. f_equal.
      * rewrite filter_delete. apply filter_ext. intros p.
        unfold doomed. cbn [existsb]. rewrite Ho, andb_true_r.
        rewrite negb_orb. reflexivity.
      * cbn [List.length]. lia.
    + rewrite IH. f_equal. apply filter_ext. intros p.
      unfold doomed. cbn [existsb]. rewrite Ho, andb_false_r. reflexivity.
Qed.

Lemma doomed_own cutoff (o : JsObj.t Entry) p :
  JsObj.wf o -> In p o -> doomed cutoff o (fst p) = JSONStorage.older cutoff (snd p).
Proof.
  unfold JsObj.wf, doomed.
  induction o as [|q o IH]; simpl; intros Hwf Hin; [tauto|].
  inversion Hwf as [|? ? Hnotin Hwf']; subst.
  destruct Hin as [->|Hin].
  - rewrite String.eqb_refl. simpl.
    destruct (JSONStorage.older cutoff (snd p)); [reflexivity|]. simpl.
    apply not_true_is_false. intros Hex. apply existsb_exists in Hex.
    destruct Hex as [q [Hq Hk]]. apply andb_prop in Hk. destruct Hk as [Hk _].
    apply String.eqb_eq in Hk. apply Hnotin. rewrite <- Hk.
    apply in_map, Hq.
  - destruct (String.eqb (fst q) (fst p)) eqn:E.
    + apply String.eqb_eq in E. exfalso. apply Hnotin. rewrite E.
      apply in_map, Hin.
    + simpl. apply IH; assumption.
Qed.

(** On an object, the loop of [clear] keeps exactly the entries that are
    not JSONStorage.older than the cutoff and counts the others. *)
Lemma clear_fold_wf cutoff (o : JsObj.t Entry) :
  JsObj.wf o ->
  fold_left (JSONStorage.clear_step cutoff) (JsObj.entries o) (o, 0) =
  (filter (fun p => negb (JSONStorage.older cutoff (snd p))) o,
   Z.of_nat (List.length (filter (fun p => JSONStorage.older cutoff (snd p)) o))).
Proof.
  intros Hwf. unfold JsObj.entries. rewrite clear_fold. f_equal.
  apply filter_ext_in. intros p Hin. rewrite (doomed_own _ _ _ Hwf Hin).
  reflexivity.
Qed.

Lemma wf_filter (f : string * Entry -> bool) (o : JsObj.t Entry) :
  JsObj.wf o -> JsObj.wf (filter f o).
Proof.
  unfold JsObj.wf, JsObj.keys. induction o as [|p o IH]; simpl; intros Hwf.
  - constructor.
  - inversion Hwf as [|? ? Hnotin Hwf']; subst.
    destruct (f p); simpl; [|auto].
    constructor; [|auto]. intros Hin. apply Hnotin.
    apply in_map_iff in Hin. destruct Hin as [q [Hq Hin]].
    apply filter_In in Hin. rewrite <- Hq. apply in_map, Hin.
Qed.

End StorageLoops.

(** ** The JSON backend *)

Lemma mutate_consistent zone db d m :
  consistent d ->
  exists d',
    mutate zone (Dir db (Parsed d)) m = Dir db (Parsed d') /\ consistent d'.
Proof.
  intros [Hwf Hn]. destruct m as [h e|h|options now|importedData strategy].
  - (* set *)
    eexists. split; [reflexivity|]. split.
    + destruct (JsObj.get h (entries d)); apply wf_set, Hwf.
    + pose proof (size_set h e (entries d)) as Hs.
      destruct (JsObj.get h (entries d)); simpl; lia.
  - (* delete *)
    simpl. unfold JSONStorage.delete. simpl.
    destruct (JsObj.get h (entries d)) eqn:G.
    + eexists. split; [reflexivity|]. split; simpl.
      * apply wf_delete, Hwf.
      * rewrite (size_delete _ _ _ Hwf G). lia.
    + exists d. split; [reflexivity|]. split; assumption.
  - (* clear *)
    simpl. unfold JSONStorage.clear. simpl.
    destruct (JSONStorage.truthy_string (JSONStorage.olderThan options))
      as [text|].
    + rewrite (clear_fold_wf _ _ Hwf).
      eexists. split; [reflexivity|]. split; simpl.
      * apply wf_filter, Hwf.
      * unfold JsObj.size in *. rewrite Hn.
        pose proof (filter_length
                      (fun p => JSONStorage.older
                                  (Js.minus_days zone now (Js.parseInt text))
                                  (snd p))
                      (entries d)) as Hlen.
        lia.
    + eexists. split; [reflexivity|]. split; simpl; [constructor|reflexivity].
  - (* importData *)
    simpl. unfold JSONStorage.importData. simpl.
    pose proof (import_fold_wf strategy
                  (JsObj.entries match JSONStorage.snap_entries importedData with
                                 | Some es => es
                                 | None => JsObj.empty
                                 end) (entries d, 0) Hwf) as Hwf'.
    destruct (fold_left _ _ _) as [es n].
    eexists. split; [reflexivity|]. split; simpl; [exact Hwf'|reflexivity].
Qed.

Lemma run_consistent zone db ms :
  forall d,
    consistent d ->
    exists d',
      run zone ms (Dir db (Parsed d)) = Dir db (Parsed d') /\ consistent d'.
Proof.
  induction ms as [|m ms IH]; intros d Hd.
  - exists d. split; [reflexivity|exact Hd].
  - destruct (mutate_consistent zone db d m Hd) as [d1 [E1 H1]].
    destruct (IH d1 H1) as [d2 [E2 H2]].
    exists d2. split; [|exact H2]. simpl. rewrite E1. exact E2.
Qed.




(** C10.  Starting from the store [init] creates (in a missing directory or
    in one without [index.json]), after every sequence of [set], [delete],
    [clear] and [importData] on hashes -- keys that name no property of
    [Object.prototype], as every text of hexadecimal digits is --, in every
    time zone, the store is still initialized and its persisted
    [stats.totalEntries] is the number of keys of its persisted entries. *)
Theorem totalEntries_counts_keys (zone : Js.Zone) (now : Z) (db : bool)
    (ms : list Mutation) :
  Forall plain_mutation ms ->
  (exists d,
      run zone ms (snd (JSONStorage.init now (Dir db Absent)))
      = Dir db (Parsed d)
      /\ totalEntries (stats d) = JsObj.size (entries d))
  /\ (exists d,
         run zone ms (snd (JSONStorage.init now NoDir)) = Dir false (Parsed d)
         /\ totalEntries (stats d) = JsObj.size (entries d)).
Proof.
  intros _.
  assert (Hinit : forall m, consistent {| entries := JsObj.empty;
                                          stats := JSONStorage.fresh_stats;
                                          meta := m |}).
  { intros m. split; [constructor|reflexivity]. }
  split.
  - destruct (run_consistent zone db ms _
                (Hinit {| backend := backend_id JSON;
                          meta_created := Some now |}))
      as [d [E [_ H]]].
    exists d. split; [exact E|exact H].
  - destruct (run_consistent zone false ms _
                (Hinit {| backend := backend_id JSON;
                          meta_created := Some now |}))
      as [d [E [_ H]]].
    exists d. split; [exact E|exact H].
Qed.

Lemma totalEntries_counts_keys_witness :
  exists d,
    run utc
      [DoSet "aaaaaaaaaaaa" (sample_entry "first" "one" 0 0);
       DoImport {| JSONStorage.snap_entries := Some import_sample_incoming |}
                "merge";
       DoDelete "existing";
       DoClear {| JSONStorage.olderThan := Some "7d"%string |}
               (10 * Js.ms_per_day)]
      (snd (JSONStorage.init 0 NoDir))
    = Dir false (Parsed d)
    /\ totalEntries (stats d) = JsObj.size (entries d).
Proof.
  refine (proj2 (totalEntries_counts_keys utc 0 false _ _)).
  repeat constructor.
Defined.

(** *** [importData] *)

(** C5.  Under the strategies ['merge'] and ['skip-existing'], on an
    initialized backend and for incoming hashes (keys that name no property
    of [Object.prototype]): after [importData] a key reads the local entry
    when there was one (so no pre-existing entry, with its prompt and
    response, is overwritten) and the incoming entry otherwise; [imported]
    is the number of incoming keys that had no local entry, the skipped ones
    left out.  Consequently [exportData()] of any initialized backend state
    returns its document, and importing that document into the empty backend
    [init] creates imports exactly the number of entries of that state. *)
Theorem importData_keeps_existing (strategy : string) (db : bool) (d : Data)
    (incoming : JsObj.t Entry) :
  strategy = "merge"%string \/ strategy = "skip-existing"%string ->
  JsObj.wf incoming ->
  plain_keys incoming ->
  let r := JSONStorage.importData
             {| JSONStorage.snap_entries := Some incoming |} strategy
             (Dir db (Parsed d)) in
  (exists d',
      snd r = Dir db (Parsed d')
      /\ (forall h, JsObj.get h (entries d') =
                    match JsObj.get h (entries d) with
                    | Some e => Some e
                    | None => JsObj.get h incoming
                    end)
      /\ JSONStorage.imported (fst r) =
         Z.of_nat (List.length (fresh_keys (entries d) incoming))
      /\ JSONStorage.import_success (fst r) = true)
  /\ (forall now db' stats' meta',
         let source :=
           Dir db' (Parsed {| entries := incoming; stats := stats';
                              meta := meta' |}) in
         exists exported,
           JSONStorage.exportData source = Some exported
           /\ entries exported = incoming
           /\ fst (JSONStorage.importData (JSONStorage.snapshot_of exported)
                     strategy (snd (JSONStorage.init now NoDir)))
              = {| JSONStorage.import_success := true;
                   JSONStorage.imported := JsObj.size incoming |}).
Proof.
  intros Hs Hwf _.
  assert (Hne : strategy <> "replace"%string).
  { destruct Hs as [->| ->]; discriminate. }
  cbv zeta. split.
  - unfold JSONStorage.importData. cbn [JSONStorage.load JSONStorage.snap_entries].
    destruct (import_fold_keeps_existing strategy incoming Hne (entries d) 0 Hwf)
      as [Hget Hn].
    unfold JsObj.entries.
    destruct (fold_left (JSONStorage.import_step strategy) incoming (entries d, 0))
      as [es n] eqn:E.
    eexists. split; [reflexivity|]. cbn in *.
    repeat split; [exact Hget|lia].
  - intros now db' stats' meta'.
    eexists. split; [reflexivity|]. split; [reflexivity|].
    destruct (import_fold_keeps_existing strategy incoming Hne JsObj.empty 0 Hwf)
      as [_ Hn].
    unfold JSONStorage.importData, JSONStorage.snapshot_of, JsObj.entries.
    cbn in Hn |- *.
    destruct (fold_left _ _ _) as [es n]. cbn in Hn |- *. rewrite Hn.
    unfold fresh_keys, JsObj.size.
    rewrite (filter_ext_in _ (fun _ => true)).
    + replace (filter (fun _ => true) incoming) with incoming; [f_equal; lia|].
      clear. induction incoming as [|p o IH]; simpl; congruence.
    + intros p _. reflexivity.
Qed.

Lemma wf_by_computation {V : Type} (o : JsObj.t V) :
  (fix distinct_keys (l : list string) : bool :=
     match l with
     | [] => true
     | k :: l' => negb (existsb (String.eqb k) l') && distinct_keys l'
     end) (JsObj.keys o) = true ->
  JsObj.wf o.
Proof.
  unfold JsObj.wf. induction (JsObj.keys o) as [|k l IH]; intros H.
  - constructor.
  - apply andb_prop in H. destruct H as [Hk Hl]. constructor; [|auto].
    intros Hin. apply negb_true_iff in Hk.
    assert (existsb (String.eqb k) l = true); [|congruence].
    apply existsb_exists. exists k. split; [exact Hin|apply String.eqb_refl].
Defined.

Lemma importData_keeps_existing_witness :
  JSONStorage.imported
    (fst (JSONStorage.importData
            {| JSONStorage.snap_entries := Some import_sample_incoming |}
            "skip-existing" (Dir false (Parsed import_sample_local)))) = 1
  /\ exists exported,
       JSONStorage.exportData
         (Dir false (Parsed (sample_data import_sample_incoming
                               (counted 2 0 0))))
       = Some exported
       /\ entries exported = import_sample_incoming
       /\ fst (JSONStorage.importData (JSONStorage.snapshot_of exported)
                 "skip-existing" (snd (JSONStorage.init 0 NoDir)))
          = {| JSONStorage.import_success := true;
               JSONStorage.imported := 2 |}.
Proof.
  assert (Hwf : JsObj.wf import_sample_incoming).
  { apply wf_by_computation. reflexivity. }
  assert (Hplain : plain_keys import_sample_incoming).
  { repeat constructor. }
  destruct (importData_keeps_existing "skip-existing" false
              import_sample_local import_sample_incoming
              (or_intror eq_refl) Hwf Hplain) as [[d' [_ [_ [Hn _]]]] Hround].
  split; [exact Hn|].
  exact (Hround 0 false (counted 2 0 0)
           {| backend := backend_id JSON; meta_created := Some 0 |}).
Defined.

(** *** [clear] *)



(** Across a change of the zone's offset the cutoff is not
    [now - n * 86400000]: where the clocks went forward by an hour at the
    instant [0], one day before noon on the next day is 23 hours earlier. *)
Lemma cutoff_across_a_shift :
  let hour := 3600000 in
  let zone :=
    {| Js.LocalTime := fun t => if t <? 0 then t else t + hour;
       Js.UTC := fun l => if l <? 0 then l else l - hour |} in
  Js.minus_days zone (12 * hour) (Some 1) = Some (- 11 * hour)
  /\ Js.minus_days utc (12 * hour) (Some 1) = Some (- 12 * hour).
Proof. split; reflexivity. Qed.


(** ** The backend factory and the backend resolver *)

(** For a directory with neither marker file [detectBackend] answers
    ['json']. *)
Lemma detectBackend_without_markers :
  resolve_as_specified (Dir false Absent) = Uninitialized
  /\ detectBackend (Dir false Absent) = backend_id JSON.
Proof. split; reflexivity. Qed.

(** C8 (amended).  [detectBackend] answers ['sqlite'] when [cache.db] is
    present, whatever [index.json] is, and ['json'] in every other case, also
    when neither marker file exists or the directory is missing.  That a
    directory is not initialized shows later: the JSON backend built for it
    loads nothing, so [get] finds no entry and [set] fails with
    "Storage not initialized"; and [getStorage] answers [null] only when the
    directory itself is missing. *)
Theorem detectBackend_looks_for_cache_db :
  (forall index, detectBackend (Dir true index) = backend_id SQLITE)
  /\ (forall index, detectBackend (Dir false index) = backend_id JSON)
  /\ detectBackend NoDir = backend_id JSON
  /\ (forall db h e,
         JSONStorage.get h (Dir db Absent) = None
         /\ JSONStorage.set h e (Dir db Absent)
            = (JSONStorage.SetFailed "Storage not initialized", Dir db Absent))
  /\ (forall pro index,
         Cache.getStorage
           {| Cache.licensed := pro; Cache.cache := Dir false index |}
         = Returned (Some JSONStorageAt))
  /\ (forall pro,
         Cache.getStorage {| Cache.licensed := pro; Cache.cache := NoDir |}
         = Returned None).
Proof.
  repeat split.
Qed.

(** [createStorage] answers the JSON backend for an identifier it does not
    know, and [importData] runs under a strategy it does not know. *)
Lemma unknown_selector_and_strategy_are_accepted :
  createStorage (Some "mongodb"%string) = Returned JSONStorageAt
  /\ JSONStorage.importData
       {| JSONStorage.snap_entries := Some import_sample_incoming |}
       "overwrite" (Dir false (Parsed import_sample_local))
     = JSONStorage.importData
         {| JSONStorage.snap_entries := Some import_sample_incoming |}
         "merge" (Dir false (Parsed import_sample_local))
  /\ JSONStorage.import_success
       (fst (JSONStorage.importData
               {| JSONStorage.snap_entries := Some import_sample_incoming |}
               "overwrite" (Dir false (Parsed import_sample_local)))) = true.
Proof. repeat split. Qed.

Lemma import_fold_ext strategy strategy' l :
  (forall acc p, JSONStorage.import_step strategy acc p
                 = JSONStorage.import_step strategy' acc p) ->
  forall acc,
    fold_left (JSONStorage.import_step strategy) l acc
    = fold_left (JSONStorage.import_step strategy') l acc.
Proof.
  intros H. induction l as [|p l IH]; intros acc; simpl; [reflexivity|].
  rewrite H. apply IH.
Qed.

(** C7 (amended).  [createStorage] throws at construction for the
    identifier ['redis'] only; ['sqlite'] gives the SQLite backend, and every
    other identifier, the unknown ones included, gives the JSON backend.
    [importData] does not check the strategy name: under every name other
    than ['replace'] it does what it does under ['merge'], and it never
    throws. *)
Theorem createStorage_and_importData_on_unknown_names
    (selector strategy : string) (importedData : JSONStorage.Snapshot)
    (fs : CacheDir) :
  selector <> backend_id SQLITE ->
  selector <> backend_id REDIS ->
  strategy <> "replace"%string ->
  createStorage (Some selector) = Returned JSONStorageAt
  /\ createStorage (Some (backend_id REDIS))
     = Thrown "Redis backend not yet implemented"
  /\ createStorage (Some (backend_id SQLITE)) = Returned SQLiteStorageAt
  /\ createStorage None = Returned JSONStorageAt
  /\ JSONStorage.importData importedData strategy fs
     = JSONStorage.importData importedData "merge" fs.
Proof.
  intros Hsql Hredis Hs. repeat split.
  - unfold createStorage.
    apply String.eqb_neq in Hsql, Hredis. rewrite Hsql, Hredis. reflexivity.
  - unfold JSONStorage.importData.
    destruct (JSONStorage.load fs) as [data|]; [|reflexivity].
    rewrite (import_fold_ext strategy "merge"); [reflexivity|].
    intros [es n] [h e].
    rewrite !import_step_keeps_existing by (assumption || discriminate).
    reflexivity.
Qed.

Lemma createStorage_and_importData_on_unknown_names_witness :
  createStorage (Some "mongodb"%string) = Returned JSONStorageAt
  /\ JSONStorage.importData
       {| JSONStorage.snap_entries := Some import_sample_incoming |}
       "overwrite" (Dir false (Parsed import_sample_local))
     = JSONStorage.importData
         {| JSONStorage.snap_entries := Some import_sample_incoming |}
         "merge" (Dir false (Parsed import_sample_local)).
Proof.
  destruct (createStorage_and_importData_on_unknown_names
              "mongodb" "overwrite"
              {| JSONStorage.snap_entries := Some import_sample_incoming |}
              (Dir false (Parsed import_sample_local)))
    as [H1 [_ [_ [_ H2]]]]; try discriminate.
  split; [exact H1|exact H2].
Defined.

(** ** The cache facade *)

Lemma set_stored db h e d :
  JSONStorage.set h e (Dir db (Parsed d))
  = (JSONStorage.SetOk (negb (JSONStorage.has h (entries d))),
     Dir db (Parsed (stored h e d))).
Proof.
  unfold stored, JSONStorage.set, JSONStorage.has. cbn [JSONStorage.load].
  destruct (JsObj.get h (entries d)); reflexivity.
Qed.

Section CacheFacts.
Variable sha256_hex : string -> string.
Variable file_size : Data -> Z.

Local Abbreviation hashPrompt := (Cache.hashPrompt sha256_hex).
Local Abbreviation set := (Cache.set sha256_hex file_size).
Local Abbreviation get := (Cache.get sha256_hex file_size).

(** Within the limits, and with no TTL in force, [set] stores the entry
    under the hash of the pair. *)
Lemma set_within_limits pro d p r m options now :
  Limits.allowed (Limits.canAddEntry pro (totalEntries (stats d))) = true ->
  Limits.allowed (Limits.checkResponseSize pro (Cache.byteLength r)) = true ->
  pro = false \/ Cache.opt_ttl options = None ->
  set p r m options now (json_world pro d)
  = (Returned
       (Cache.Stored (hashPrompt p m)
          (negb (JSONStorage.has (hashPrompt p m) (entries d)))
          (tokens (entry_set pro p r m options now))),
     Cache.with_cache (json_world pro d)
       (snd (JSONStorage.set (hashPrompt p m)
               (entry_set pro p r m options now) (Dir false (Parsed d))))).
Proof.
  intros Hentries Hsize Httl.
  unfold Cache.set.
  cbn [Cache.getStorage Cache.cache json_world detectBackend createStorage
       backend_id String.eqb Ascii.eqb Bool.eqb Cache.storage_getStats
       JSONStorage.getStats JSONStorage.load JSONStorage.view stats
       Cache.isPro Cache.licensed].
  rewrite Hentries, Hsize. cbn [negb].
  assert (Hms : match JSONStorage.truthy_string (Cache.opt_ttl options) with
                | Some ttl => if pro then Cache.parseTTL ttl else None
                | None => None
                end = None).
  { destruct Httl as [-> | ->]; [|reflexivity].
    destruct (JSONStorage.truthy_string (Cache.opt_ttl options)); reflexivity. }
  rewrite Hms.
  unfold Cache.storage_set, JSONStorage.set, JSONStorage.has.
  cbn [JSONStorage.load].
  destruct (JsObj.get (hashPrompt p m) (entries d)); reflexivity.
Qed.

(** A hit bumps the stored counter and reports the bumped entry. *)
Lemma get_hit pro d p m now e :
  JsObj.get (hashPrompt p m) (entries d) = Some e ->
  Js.date_lt (expires e) (Some now) = false ->
  exists d',
    get p m now (json_world pro d)
    = (Returned (Some {| Cache.hit_response := response e;
                         Cache.hit_model := model e;
                         Cache.hit_hits := hits e + 1;
                         Cache.hit_created := created e;
                         Cache.hit_tokens := tokens e |}),
       json_world pro d')
    /\ JsObj.get (hashPrompt p m) (entries d')
       = Some (Cache.with_hits e (hits e + 1))
    /\ JsObj.keys (entries d') = JsObj.keys (entries d)
    /\ totalEntries (stats d') = totalEntries (stats d)
    /\ totalHits (stats d') = totalHits (stats d) + 1
    /\ totalSaved (stats d') = totalSaved (stats d) + Cache.byteLength (response e).
Proof.
  intros G Hexp.
  unfold Cache.get.
  cbn [Cache.getStorage Cache.cache json_world detectBackend createStorage
       backend_id String.eqb Ascii.eqb Bool.eqb Cache.storage_get
       JSONStorage.get JSONStorage.load].
  rewrite G, Hexp.
  unfold Cache.storage_set, JSONStorage.set. cbn [JSONStorage.load].
  rewrite G. cbn.
  eexists. split; [reflexivity|]. cbn. repeat split.
  - apply get_set_same.
  - apply (keys_set_old _ _ _ _ G).
Qed.



(** C4.  Under the FREE tier, on every initialized cache whose
    [totalEntries] is 50 the next [set] reports [limitExceeded = true] and
    leaves the cache directory as it was; and on every one whose
    [totalEntries] is 49, a [set] of a pair that is not in the cache, with a
    response of at most 10240 bytes, succeeds as a new entry, which is
    stored and brings [totalEntries] to 50. *)
Theorem free_tier_entry_limit (d : Data) (p r m : string)
    (options : Cache.SetOptions) (now : Z) :
  (totalEntries (stats d) = 50 ->
   set p r m options now (json_world false d)
   = (Returned (Cache.LimitExceeded "FREE version limited to 50 cache entries"),
      json_world false d)
   /\ Cache.limitExceeded
        (Cache.LimitExceeded "FREE version limited to 50 cache entries") = true)
  /\ (totalEntries (stats d) = 49 ->
      JsObj.get (hashPrompt p m) (entries d) = None ->
      Cache.byteLength r <= Limits.maxResponseSize ->
      exists toks d',
        set p r m options now (json_world false d)
        = (Returned (Cache.Stored (hashPrompt p m) true toks),
           json_world false d')
        /\ JsObj.get (hashPrompt p m) (entries d')
           = Some (entry_set false p r m options now)
        /\ totalEntries (stats d') = 50).
Proof.
  split.
  - intros H50. split; [|reflexivity].
    unfold Cache.set.
    cbn [Cache.getStorage Cache.cache json_world detectBackend createStorage
         backend_id String.eqb Ascii.eqb Bool.eqb Cache.storage_getStats
         JSONStorage.getStats JSONStorage.load JSONStorage.view stats
         Cache.isPro Cache.licensed].
    rewrite H50. reflexivity.
  - intros H49 G Hsize.
    assert (Hentries : Limits.allowed
                         (Limits.canAddEntry false (totalEntries (stats d)))
                       = true).
    { rewrite H49. reflexivity. }
    assert (Hresp : Limits.allowed
                      (Limits.checkResponseSize false (Cache.byteLength r))
                    = true).
    { unfold Limits.checkResponseSize.
      destruct (Cache.byteLength r >? Limits.maxResponseSize) eqn:E;
        [|reflexivity].
      apply Z.gtb_lt in E. lia. }
    pose proof (set_within_limits false d p r m options now Hentries Hresp
                  (or_introl eq_refl)) as Hset.
    rewrite set_stored in Hset.
    assert (Hhas : JSONStorage.has (hashPrompt p m) (entries d) = false).
    { unfold JSONStorage.has. rewrite G. reflexivity. }
    rewrite Hhas in Hset.
    exists (tokens (entry_set false p r m options now)),
           (stored (hashPrompt p m) (entry_set false p r m options now) d).
    split; [exact Hset|]. cbn [stored entries stats]. rewrite Hhas.
    split; [apply get_set_same|]. cbn. lia.
Qed.

End CacheFacts.


Lemma free_tier_entry_limit_witness :
  exists toks d',
    Cache.set plain_digest flat_size "What is 2+2?" "4" "gpt-4"
      Cache.no_options 1000 (json_world false store_of_49)
    = (Returned
         (Cache.Stored (Cache.hashPrompt plain_digest "What is 2+2?" "gpt-4")
            true toks),
       json_world false d')
    /\ JsObj.get (Cache.hashPrompt plain_digest "What is 2+2?" "gpt-4")
         (entries d')
       = Some (entry_set false "What is 2+2?" "4" "gpt-4" Cache.no_options 1000)
    /\ totalEntries (stats d') = 50.
Proof.
  refine (proj2 (free_tier_entry_limit plain_digest flat_size store_of_49
                   "What is 2+2?" "4" "gpt-4" Cache.no_options 1000) _ _ _).
  - reflexivity.
  - reflexivity.
  - vm_compute. discriminate.
Defined.

(** ** Binary64 numbers

    What the properties below need of IEEE arithmetic, from the
    specification of the primitive floats: rounding a non-negative mantissa
    never yields [NaN], and the comparisons are a total preorder on the
    numbers other than [NaN]. *)

Section Rounding.
Variables prec emax : Z.

Lemma shr_1_nonneg mrs : 0 <= shr_m mrs -> 0 <= shr_m (shr_1 mrs).
Proof.
  destruct mrs as [m r s]. simpl.
  destruct m as [|[p|p|]|[p|p|]]; simpl; lia.
Qed.

Lemma iter_shr_1_nonneg p :
  forall mrs, 0 <= shr_m mrs -> 0 <= shr_m (iter_pos shr_1 p mrs).
Proof.
  induction p as [p IH|p IH|]; intros mrs H; simpl.
  - apply IH, IH, shr_1_nonneg, H.
  - apply IH, IH, H.
  - apply shr_1_nonneg, H.
Qed.

Lemma shr_fexp_nonneg m e l :
  0 <= m -> 0 <= shr_m (fst (shr_fexp prec emax m e l)).
Proof.
  intros H. unfold shr_fexp, shr.
  assert (H0 : 0 <= shr_m (shr_record_of_loc m l)).
  { destruct l as [|[| |]]; exact H. }
  destruct (fexp prec emax (Zdigits2 m + e) - e); simpl; auto.
  apply iter_shr_1_nonneg, H0.
Qed.

Lemma round_nearest_even_nonneg m l :
  0 <= m -> 0 <= round_nearest_even m l.
Proof.
  intros H. destruct l as [|[| |]]; simpl; try lia.
  destruct (Z.even m); lia.
Qed.

Lemma binary_round_aux_not_nan s m e l :
  0 <= m -> binary_round_aux prec emax s m e l <> S754_nan.
Proof.
  intros H. unfold binary_round_aux.
  pose proof (shr_fexp_nonneg m e l H) as H1.
  destruct (shr_fexp prec emax m e l) as [mrs' e'].
  simpl in H1.
  pose proof (shr_fexp_nonneg _ e' loc_Exact
                (round_nearest_even_nonneg _ (loc_of_shr_record mrs') H1)) as H2.
  destruct (shr_fexp prec emax _ e' loc_Exact) as [mrs'' e''].
  simpl in H2.
  destruct (shr_m mrs'') as [|q|q]; try discriminate.
  - destruct (e'' <=? emax - prec); discriminate.
  - lia.
Qed.

Lemma binary_round_not_nan s m e : binary_round prec emax s m e <> S754_nan.
Proof.
  unfold binary_round.
  destruct (shl_align m e _) as [mz ez].
  apply binary_round_aux_not_nan. lia.
Qed.

Lemma binary_normalize_not_nan m e s :
  binary_normalize prec emax m e s <> S754_nan.
Proof.
  destruct m; simpl; [discriminate| |]; apply binary_round_not_nan.
Qed.

(** Multiplying a number by a finite, non-zero one. *)
Lemma SFmul_finite_not_nan x s m e :
  x <> S754_nan -> SFmul prec emax x (S754_finite s m e) <> S754_nan.
Proof.
  intros Hx. destruct x; simpl; try discriminate; try congruence.
  apply binary_round_aux_not_nan. lia.
Qed.

Lemma div_eucl_nonneg a b : 0 <= a -> 0 < b -> 0 <= fst (Z.div_eucl a b).
Proof.
  intros Ha Hb.
  change (fst (Z.div_eucl a b)) with (a / b).
  apply Z.div_pos; assumption.
Qed.

(** Dividing a number by a finite, non-zero one. *)
Lemma SFdiv_finite_not_nan x s m e :
  x <> S754_nan -> SFdiv prec emax x (S754_finite s m e) <> S754_nan.
Proof.
  intros Hx. destruct x as [sx|sx| |sx mx ex]; simpl; try discriminate; try congruence.
  unfold SFdiv_core_binary.
  set (d := Z.min _ _).
  set (m' := match _ with Z0 => _ | Zpos _ => _ | Zneg _ => _ end).
  assert (Hm' : 0 <= m').
  { subst m'. destruct (ex - e - d); try lia. apply Z.shiftl_nonneg. lia. }
  pose proof (div_eucl_nonneg m' (Zpos m) Hm' eq_refl) as Hq.
  destruct (Z.div_eucl m' (Zpos m)) as [q r]. simpl in Hq.
  apply binary_round_aux_not_nan, Hq.
Qed.
End Rounding.

Lemma SFcompare_refl x : x <> S754_nan -> SFcompare x x = Some Eq.
Proof.
  destruct x as [s|s| |s m e]; simpl; intros H; try congruence.
  - destruct s; reflexivity.
  - rewrite Z.compare_refl.
    change (Pos.compare_cont Eq m m) with (Pos.compare m m).
    rewrite Pos.compare_refl. destruct s; reflexivity.
Qed.

Lemma is_nan_spec x : PrimFloat.is_nan x = false <-> Prim2SF x <> S754_nan.
Proof.
  unfold PrimFloat.is_nan. rewrite eqb_spec. unfold SFeqb. split.
  - intros H E. rewrite E in H. discriminate.
  - intros H. rewrite (SFcompare_refl _ H). reflexivity.
Qed.

Lemma leb_not_nan x y : (x <=? y)%float = true -> PrimFloat.is_nan y = false.
Proof.
  rewrite leb_spec. intros H. apply is_nan_spec. intros E. rewrite E in H.
  unfold SFleb in H. destruct (Prim2SF x); discriminate.
Qed.

Lemma mul_not_nan x y s m e :
  Prim2SF y = S754_finite s m e ->
  PrimFloat.is_nan x = false -> PrimFloat.is_nan (x * y) = false.
Proof.
  intros Hy Hx. apply is_nan_spec. rewrite mul_spec, Hy.
  apply SFmul_finite_not_nan. apply is_nan_spec, Hx.
Qed.

Lemma div_not_nan x y s m e :
  Prim2SF y = S754_finite s m e ->
  PrimFloat.is_nan x = false -> PrimFloat.is_nan (x / y) = false.
Proof.
  intros Hy Hx. apply is_nan_spec. rewrite div_spec, Hy.
  apply SFdiv_finite_not_nan. apply is_nan_spec, Hx.
Qed.

Lemma of_uint63_not_nan n : PrimFloat.is_nan (PrimFloat.of_uint63 n) = false.
Proof.
  apply is_nan_spec. rewrite of_uint63_spec. apply binary_normalize_not_nan.
Qed.

Lemma opp_not_nan x : PrimFloat.is_nan x = false -> PrimFloat.is_nan (- x) = false.
Proof.
  intros H. apply is_nan_spec. rewrite opp_spec.
  apply is_nan_spec in H. destruct (Prim2SF x); simpl; congruence.
Qed.

(** The order of [SFcompare].  The finite cases compare exponents, then
    mantissas. *)
Ltac cmp_cases :=
  repeat match goal with
         | |- context [Z.compare ?a ?b] => destruct (Z.compare_spec a b)
         | H : context [Z.compare ?a ?b] |- _ => destruct (Z.compare_spec a b)
         | |- context [Pos.compare_cont Eq ?a ?b] =>
             change (Pos.compare_cont Eq a b) with (Pos.compare a b);
             destruct (Pos.compare_spec a b)
         | H : context [Pos.compare_cont Eq ?a ?b] |- _ =>
             change (Pos.compare_cont Eq a b) with (Pos.compare a b) in H;
             destruct (Pos.compare_spec a b)
         end.

Lemma SFltb_SFleb x y : SFltb x y = true -> SFleb x y = true.
Proof.
  unfold SFltb, SFleb. destruct (SFcompare x y) as [[| |]|]; congruence.
Qed.

Lemma SFcompare_antisym x y :
  SFcompare y x = option_map CompOpp (SFcompare x y).
Proof.
  destruct x as [s1|s1| |s1 m1 e1], y as [s2|s2| |s2 m2 e2]; simpl;
    try reflexivity;
    try (destruct s1; reflexivity); try (destruct s2; reflexivity);
    try (destruct s1, s2; reflexivity).
  destruct s1, s2; simpl; try reflexivity;
    rewrite (Z.compare_antisym e1 e2);
    change (Pos.compare_cont Eq m2 m1) with (Pos.compare m2 m1);
    change (Pos.compare_cont Eq m1 m2) with (Pos.compare m1 m2);
    rewrite (Pos.compare_antisym m1 m2);
    destruct (e1 ?= e2); simpl; try reflexivity;
    destruct (m1 ?= m2)%positive; reflexivity.
Qed.

Lemma SFleb_total x y :
  x <> S754_nan -> y <> S754_nan -> SFltb x y = false -> SFleb y x = true.
Proof.
  intros Hx Hy. unfold SFltb, SFleb. rewrite (SFcompare_antisym x y).
  destruct (SFcompare x y) as [[| |]|] eqn:E; simpl; try congruence.
  destruct x, y; simpl in E; congruence.
Qed.

Lemma SFleb_trans x y z :
  SFleb x y = true -> SFleb y z = true -> SFleb x z = true.
Proof.
  unfold SFleb.
  destruct x as [s1|s1| |s1 m1 e1], y as [s2|s2| |s2 m2 e2],
           z as [s3|s3| |s3 m3 e3]; simpl; try discriminate; try reflexivity;
    try (destruct s1; simpl; try discriminate; try reflexivity);
    try (destruct s2; simpl; try discriminate; try reflexivity);
    try (destruct s3; simpl; try discriminate; try reflexivity).
  all: cmp_cases; subst; try discriminate; try reflexivity; try lia.
Qed.

Lemma SFeqb_SFltb_distinct a b k :
  SFeqb a k = true -> SFltb a b = true -> SFeqb b k = false.
Proof.
  unfold SFeqb, SFltb.
  destruct a as [s1|s1| |s1 m1 e1], b as [s2|s2| |s2 m2 e2],
           k as [s3|s3| |s3 m3 e3]; simpl; try discriminate; try reflexivity;
    try (destruct s1; simpl; try discriminate; try reflexivity);
    try (destruct s2; simpl; try discriminate; try reflexivity);
    try (destruct s3; simpl; try discriminate; try reflexivity).
  all: cmp_cases; subst; try discriminate; try reflexivity; try lia.
Qed.

Lemma Prim2SF_infinity : Prim2SF infinity = S754_infinity false.
Proof. reflexivity. Qed.

Lemma Prim2SF_zero : Prim2SF 0%float = S754_zero false.
Proof. reflexivity. Qed.

Section Signs.
Variables prec emax : Z.

Lemma binary_round_aux_nonneg m e l :
  0 <= m -> sf_nonneg (binary_round_aux prec emax false m e l).
Proof.
  intros H. pose proof (binary_round_aux_not_nan prec emax false m e l H) as Hn.
  unfold binary_round_aux in *.
  destruct (shr_fexp prec emax m e l) as [mrs' e'].
  destruct (shr_fexp prec emax _ e' loc_Exact) as [mrs'' e''].
  destruct (shr_m mrs'') as [|q|q]; simpl; auto.
  destruct (e'' <=? emax - prec); simpl; auto.
Qed.

Lemma SFmul_nonneg x y :
  sf_finite_nonneg x -> sf_finite_nonneg y -> sf_nonneg (SFmul prec emax x y).
Proof.
  destruct x as [sx|sx| |sx mx ex], y as [sy|sy| |sy my ey]; simpl;
    try tauto; try (destruct sx; tauto); try (destruct sy; tauto).
  destruct sx, sy; try tauto. intros _ _.
  apply binary_round_aux_nonneg. lia.
Qed.

Lemma SFadd_nonneg x y :
  sf_nonneg x -> sf_nonneg y -> sf_nonneg (SFadd prec emax x y).
Proof.
  destruct x as [sx|sx| |sx mx ex], y as [sy|sy| |sy my ey]; simpl;
    try tauto;
    try (destruct sx; simpl; tauto); try (destruct sy; simpl; tauto);
    try (destruct sx, sy; simpl; tauto).
  destruct sx, sy; try tauto. intros _ _. simpl.
  unfold binary_round.
  destruct (shl_align _ _ _) as [mz ez].
  apply binary_round_aux_nonneg. lia.
Qed.
End Signs.

Lemma sf_nonneg_not_nan x : sf_nonneg x -> x <> S754_nan.
Proof. destruct x; simpl; congruence. Qed.

Lemma nonneg_finite_spec x :
  nonneg_finite x = true -> sf_finite_nonneg (Prim2SF x).
Proof.
  unfold nonneg_finite. rewrite leb_spec, ltb_spec, Prim2SF_zero, Prim2SF_infinity.
  intros H. apply andb_prop in H. destruct H as [H0 Hinf].
  destruct (Prim2SF x) as [s|s| |s m e]; simpl in *; auto; try discriminate.
  - destruct s; discriminate.
  - destruct s; [discriminate|exact I].
Qed.

(** *** Magnitudes

    The square root of a positive number is at least [2^-537], and the
    product of two such numbers does not underflow to zero. *)

Lemma digits2_pos_size m : digits2_pos m = Pos.size m.
Proof. induction m as [m IH|m IH|]; simpl; congruence. Qed.

Lemma Zdigits2_log2 m : 0 < m -> Zdigits2 m = Z.log2 m + 1.
Proof.
  destruct m as [|p|p]; try lia. intros _. simpl.
  rewrite digits2_pos_size.
  destruct p as [p|p|]; simpl; try lia.
Qed.

Lemma shr_1_div2 mrs : 0 <= shr_m mrs -> shr_m (shr_1 mrs) = Z.div2 (shr_m mrs).
Proof.
  destruct mrs as [m r s]. simpl.
  destruct m as [|[p|p|]|[p|p|]]; simpl; try reflexivity; lia.
Qed.

Lemma iter_shr_1_shiftr p :
  forall mrs, 0 <= shr_m mrs ->
              shr_m (iter_pos shr_1 p mrs) = Z.shiftr (shr_m mrs) (Zpos p).
Proof.
  induction p as [p IH|p IH|]; intros mrs H; simpl iter_pos.
  - rewrite IH by (apply iter_shr_1_nonneg, shr_1_nonneg, H).
    rewrite IH by (apply shr_1_nonneg, H).
    rewrite shr_1_div2 by exact H.
    rewrite Z.div2_spec, !Z.shiftr_shiftr by lia.
    f_equal. lia.
  - rewrite IH by (apply iter_shr_1_nonneg, H).
    rewrite IH by exact H.
    rewrite Z.shiftr_shiftr by lia. f_equal. lia.
  - rewrite shr_1_div2 by exact H. apply Z.div2_spec.
Qed.

Lemma shr_fexp_spec m e l :
  0 < m ->
  let k := fexp prec emax (Zdigits2 m + e) - e in
  let r := shr_fexp prec emax m e l in
  (k <= 0 -> shr_m (fst r) = m /\ snd r = e)
  /\ (0 < k -> shr_m (fst r) = Z.shiftr m k /\ snd r = e + k).
Proof.
  intros Hm. cbv zeta. unfold shr_fexp, shr.
  assert (H0 : shr_m (shr_record_of_loc m l) = m).
  { destruct l as [|[| |]]; reflexivity. }
  destruct (fexp prec emax (Zdigits2 m + e) - e) as [|k|k]; simpl; split;
    try lia; intros _; try (split; [exact H0|reflexivity]).
  rewrite iter_shr_1_shiftr by (rewrite H0; lia).
  rewrite H0. split; reflexivity.
Qed.

Lemma round_nearest_even_range m l :
  round_nearest_even m l = m \/ round_nearest_even m l = m + 1.
Proof.
  destruct l as [|[| |]]; simpl; auto. destruct (Z.even m); auto.
Qed.

Lemma shiftr_magnitude m k :
  0 < m -> 0 < k -> k <= Z.log2 m ->
  0 < Z.shiftr m k /\ Z.log2 (Z.shiftr m k) = Z.log2 m - k.
Proof.
  intros Hm Hk Hle. split.
  - assert (Z.shiftr m k <> 0).
    { intros E. apply Z.shiftr_eq_0_iff in E. lia. }
    pose proof (Z.shiftr_nonneg m k). lia.
  - rewrite Z.log2_shiftr by exact Hm. lia.
Qed.

(** Rounding a positive mantissa whose number is at least the least
    subnormal gives a number that is not zero and not smaller in magnitude. *)
Lemma binary_round_aux_magnitude s m e l :
  0 < m -> -1073 <= Z.log2 m + 1 + e ->
  match binary_round_aux prec emax s m e l with
  | S754_finite _ m' e' => Z.log2 m + 1 + e <= Z.log2 (Zpos m') + 1 + e'
  | S754_infinity _ => True
  | _ => False
  end.
Proof.
  intros Hm Hmag. unfold binary_round_aux.
  pose proof (shr_fexp_spec m e l Hm) as H1. cbv zeta in H1.
  rewrite (Zdigits2_log2 m Hm) in H1.
  destruct (shr_fexp prec emax m e l) as [mrs' e']. simpl fst in H1. simpl snd in H1.
  set (m1 := shr_m mrs') in *.
  assert (Hm1 : 0 < m1 /\ Z.log2 m1 + 1 + e' = Z.log2 m + 1 + e
                /\ fexp prec emax (Z.log2 m + 1 + e) <= e').
  { unfold fexp, FloatOps.emin, SpecFloat.emin, prec, emax in *.
    destruct H1 as [Hle Hgt].
    destruct (Z_le_gt_dec (Z.max (Z.log2 m + 1 + e - 53) (3 - 1024 - 53) - e) 0)
      as [Hk|Hk].
    - destruct (Hle Hk) as [-> ->]. lia.
    - destruct (Hgt ltac:(lia)) as [E1 E2].
      pose proof (Z.log2_nonneg m).
      destruct (shiftr_magnitude m
                  (Z.max (Z.log2 m + 1 + e - 53) (3 - 1024 - 53) - e) Hm
                  ltac:(lia) ltac:(lia)) as [Hpos Hlog].
      rewrite E1, E2. lia. }
  destruct Hm1 as [Hm1 [Hmag1 Hfexp]].
  set (m2 := round_nearest_even m1 (loc_of_shr_record mrs')).
  assert (Hm2 : 0 < m2 /\ Z.log2 m1 <= Z.log2 m2 <= Z.log2 m1 + 1).
  { subst m2. destruct (round_nearest_even_range m1 (loc_of_shr_record mrs'))
      as [-> | ->]; [lia|].
    split; [lia|]. split.
    - apply Z.log2_le_mono. lia.
    - pose proof (Z.log2_succ_le m1). unfold Z.succ in *. lia. }
  destruct Hm2 as [Hm2 Hlog2].
  pose proof (shr_fexp_spec m2 e' loc_Exact Hm2) as H2. cbv zeta in H2.
  rewrite (Zdigits2_log2 m2 Hm2) in H2.
  destruct (shr_fexp prec emax m2 e' loc_Exact) as [mrs'' e''].
  simpl fst in H2. simpl snd in H2.
  set (m3 := shr_m mrs'') in *.
  assert (Hm3 : 0 < m3 /\ Z.log2 m2 + 1 + e' = Z.log2 m3 + 1 + e'').
  { unfold fexp, FloatOps.emin, SpecFloat.emin, prec, emax in *.
    destruct H2 as [Hle Hgt].
    destruct (Z_le_gt_dec (Z.max (Z.log2 m2 + 1 + e' - 53) (3 - 1024 - 53) - e') 0)
      as [Hk|Hk].
    - destruct (Hle Hk) as [-> ->]. lia.
    - destruct (Hgt ltac:(lia)) as [E1 E2].
      pose proof (Z.log2_nonneg m2).
      destruct (shiftr_magnitude m2
                  (Z.max (Z.log2 m2 + 1 + e' - 53) (3 - 1024 - 53) - e') Hm2
                  ltac:(lia) ltac:(lia)) as [Hpos Hlog].
      rewrite E1, E2. lia. }
  destruct Hm3 as [Hm3 Hmag3].
  destruct m3 as [|q|q]; try lia.
  destruct (e'' <=? emax - prec); [|exact I].
  lia.
Qed.

Lemma log2_sqrt_below a : 0 < a -> Z.log2 a / 2 <= Z.log2 (Z.sqrt a).
Proof.
  intros Ha. set (j := Z.log2 a / 2).
  assert (Hj : 0 <= j).
  { subst j. pose proof (Z.log2_nonneg a). apply Z.div_pos; lia. }
  assert (Hpow : 2 ^ j * 2 ^ j <= a).
  { rewrite <- Z.pow_add_r by lia.
    destruct (Z.log2_spec a Ha) as [Hlo _].
    apply Z.le_trans with (2 ^ Z.log2 a); [|exact Hlo].
    apply Z.pow_le_mono_r; [lia|]. subst j.
    pose proof (Z.mul_div_le (Z.log2 a) 2). lia. }
  assert (Hs : 2 ^ j <= Z.sqrt a).
  { rewrite <- (Z.sqrt_square (2 ^ j)) by (apply Z.pow_nonneg; lia).
    apply Z.sqrt_le_mono, Hpow. }
  rewrite <- (Z.log2_pow2 j Hj). apply Z.log2_le_mono, Hs.
Qed.

Lemma SFsqrt_root m e :
  -1074 <= e -> sf_root (SFsqrt prec emax (S754_finite false m e)).
Proof.
  intros He. unfold SFsqrt, SFsqrt_core_binary.
  rewrite (Zdigits2_log2 (Zpos m)) by lia.
  set (e' := Z.min _ _).
  set (s := e - 2 * e').
  assert (He' : 2 * e' <= e).
  { subst e'. rewrite !Z.div2_div.
    pose proof (Z.mul_div_le e 2). lia. }
  set (m' := match s with Z0 => Zpos m | Zpos _ => Z.shiftl (Zpos m) s | Zneg _ => 0 end).
  assert (Hm' : 0 < m' /\ Z.log2 m' = Z.log2 (Zpos m) + s).
  { subst m'. destruct s as [|ps|ps] eqn:Es; try lia.
    rewrite Z.log2_shiftl by lia. split; [|reflexivity].
    rewrite Z.shiftl_mul_pow2 by lia.
    apply Z.mul_pos_pos; [lia|]. apply Z.pow_pos_nonneg; lia. }
  destruct Hm' as [Hm' Hlog].
  pose proof (Z.sqrtrem_sqrt m') as Hq.
  destruct (Z.sqrtrem m') as [q r]. simpl in Hq. subst q.
  assert (Hq : 0 < Z.sqrt m') by (apply Z.sqrt_pos; exact Hm').
  pose proof (log2_sqrt_below m' Hm') as Hroot.
  pose proof (Z.log2_nonneg (Zpos m)) as H0.
  assert (Hmag : -536 <= Z.log2 (Z.sqrt m') + 1 + e').
  { rewrite Hlog in Hroot. subst s.
    replace (Z.log2 (Zpos m) + (e - 2 * e')) with ((Z.log2 (Zpos m) + e) + (- e') * 2)
      in Hroot by lia.
    rewrite Z.div_add in Hroot by lia.
    assert (-537 <= (Z.log2 (Zpos m) + e) / 2).
    { apply Z.div_le_lower_bound; lia. }
    lia. }
  match goal with
  | |- context [binary_round_aux prec emax false (Z.sqrt m') e' ?l] =>
      pose proof (binary_round_aux_magnitude false (Z.sqrt m') e' l Hq
                    ltac:(lia)) as Hr;
      pose proof (binary_round_aux_nonneg prec emax (Z.sqrt m') e' l
                    ltac:(lia)) as Hs;
      destruct (binary_round_aux prec emax false (Z.sqrt m') e' l)
        as [sr|sr| |sr mr er]
  end; simpl in *; try tauto.
  destruct sr; [tauto|]. lia.
Qed.

(** The product of two such numbers is not zero. *)
Lemma SFmul_roots x y :
  sf_root x -> sf_root y ->
  match SFmul prec emax x y with
  | S754_finite _ _ _ | S754_infinity _ => True
  | _ => False
  end.
Proof.
  destruct x as [sx|sx| |sx mx ex], y as [sy|sy| |sy my ey];
    cbv beta iota delta [sf_root SFmul];
    try tauto; try (destruct sx; tauto); try (destruct sy; tauto);
    try (destruct sx, sy; tauto).
  destruct sx, sy; try tauto. intros Hx Hy. cbn [xorb].
  pose proof (Z.log2_mul_below (Zpos mx) (Zpos my) ltac:(lia) ltac:(lia)) as Hmul.
  pose proof (binary_round_aux_magnitude false (Zpos (mx * my)) (ex + ey)
                loc_Exact ltac:(lia)) as Hr.
  rewrite Pos2Z.inj_mul in Hr.
  specialize (Hr ltac:(lia)).
  rewrite <- Pos2Z.inj_mul in Hr.
  destruct (binary_round_aux prec emax false (Zpos (mx * my)) (ex + ey) loc_Exact);
    tauto.
Qed.

Lemma valid_exponent x s m e :
  Prim2SF x = S754_finite s m e -> -1074 <= e.
Proof.
  intros E. pose proof (Prim2SF_valid x) as V. rewrite E in V.
  unfold SpecFloat.valid_binary, bounded, canonical_mantissa in V.
  apply andb_prop in V. destruct V as [V _]. apply Z.eqb_eq in V.
  unfold fexp, FloatOps.emin, SpecFloat.emin, prec, emax in V. lia.
Qed.

Lemma sqrt_root x :
  sf_nonneg (Prim2SF x) -> (PrimFloat.sqrt x =? 0)%float = false ->
  sf_root (Prim2SF (PrimFloat.sqrt x)).
Proof.
  intros Hx Hnz. rewrite eqb_spec, Prim2SF_zero in Hnz. rewrite sqrt_spec in *.
  destruct (Prim2SF x) as [s|s| |s m e] eqn:E; simpl in Hx; try tauto.
  - simpl in Hnz. discriminate.
  - destruct s; [tauto|]. exact I.
  - destruct s; [tauto|]. apply SFsqrt_root. exact (valid_exponent _ _ _ _ E).
Qed.

Lemma SFdiv_not_inf_inf x y :
  sf_nonneg x ->
  match y with S754_finite _ _ _ | S754_infinity _ => True | _ => False end ->
  match x, y with
  | S754_infinity _, S754_infinity _ => False
  | _, _ => True
  end ->
  SFdiv prec emax x y <> S754_nan.
Proof.
  intros Hx Hy Hxy.
  destruct y as [sy|sy| |sy my ey]; try tauto.
  - destruct x as [sx|sx| |sx mx ex]; simpl in *; try tauto; discriminate.
  - apply SFdiv_finite_not_nan. apply sf_nonneg_not_nan, Hx.
Qed.

Lemma is_finite_spec x :
  PrimFloat.is_finite x = true ->
  match Prim2SF x with
  | S754_zero _ | S754_finite _ _ _ => True
  | _ => False
  end.
Proof.
  unfold PrimFloat.is_finite, PrimFloat.is_infinity, PrimFloat.is_nan.
  rewrite !eqb_spec, abs_spec, Prim2SF_infinity.
  destruct (Prim2SF x) as [s|s| |s m e]; simpl; try discriminate; auto.
  destruct s; discriminate.
Qed.

(** *** Differences
    The sign of [y - x] is the order of [x] and [y]: subtraction aligns the
    two mantissas exactly, and rounding a non-zero integer multiple of
    [2^-1074] never gives zero. *)

Lemma valid_canonical x s m e :
  Prim2SF x = S754_finite s m e -> canonical m e.
Proof.
  intros E. pose proof (Prim2SF_valid x) as V. rewrite E in V.
  unfold SpecFloat.valid_binary, bounded, canonical_mantissa in V.
  apply andb_prop in V. destruct V as [V _]. apply Z.eqb_eq in V.
  change (Zpos (digits2_pos m)) with (Zdigits2 (Zpos m)) in V.
  rewrite Zdigits2_log2 in V by lia.
  unfold canonical, fexp, FloatOps.emin, SpecFloat.emin, prec, emax in *. lia.
Qed.

Lemma iter_xO m d : Zpos (Pos.iter xO m d) = Zpos m * 2 ^ Zpos d.
Proof.
  revert m. induction d as [d IH|d IH|]; intros m; simpl Pos.iter.
  - rewrite Pos2Z.inj_xO, !IH.
    replace (Zpos d~1) with (Zpos d + Zpos d + 1) by lia.
    rewrite !Z.pow_add_r by lia. lia.
  - rewrite !IH.
    replace (Zpos d~0) with (Zpos d + Zpos d) by lia.
    rewrite !Z.pow_add_r by lia. lia.
  - lia.
Qed.

(** Aligning a mantissa to a smaller exponent keeps the number. *)
Lemma shl_align_value m e e' :
  e' <= e ->
  Zpos (fst (shl_align m e e')) = Zpos m * 2 ^ (e - e')
  /\ snd (shl_align m e e') = e'.
Proof.
  intros H. unfold shl_align.
  destruct (e' - e) as [|d|d] eqn:E; simpl.
  - replace (e - e') with 0 by lia. rewrite Z.pow_0_r. split; lia.
  - lia.
  - rewrite iter_xO. replace (e - e') with (Zpos d) by lia. split; [reflexivity|lia].
Qed.

Lemma shl_align_above m e e' :
  e <= e' -> shl_align m e e' = (m, e).
Proof.
  intros H. unfold shl_align.
  destruct (e' - e) as [|d|d] eqn:E; try reflexivity. lia.
Qed.

Lemma pow2_pos n : 0 <= n -> 0 < 2 ^ n.
Proof. intros H. apply Z.pow_pos_nonneg; lia. Qed.

(** On canonical representations the order of the pairs (exponent, mantissa)
    is the order of the numbers. *)
Lemma compare_aligned m1 e1 m2 e2 :
  canonical m1 e1 -> canonical m2 e2 ->
  match Z.compare e1 e2 with
  | Lt => Lt
  | Gt => Gt
  | Eq => Pos.compare_cont Eq m1 m2
  end
  = Z.compare (aligned m1 e1 (Z.min e1 e2)) (aligned m2 e2 (Z.min e1 e2)).
Proof.
  intros [He1 [Hd1 Hc1]] [He2 [Hd2 Hc2]]. unfold aligned.
  destruct (Z.log2_spec (Zpos m1) ltac:(lia)) as [Hlo1 Hhi1].
  destruct (Z.log2_spec (Zpos m2) ltac:(lia)) as [Hlo2 Hhi2].
  destruct (Z.compare_spec e1 e2) as [E|E|E].
  - subst e2. rewrite Z.min_id, Z.sub_diag. simpl Z.pow. rewrite !Z.mul_1_r.
    reflexivity.
  - rewrite Z.min_l by lia. rewrite Z.sub_diag. simpl (2 ^ 0). rewrite Z.mul_1_r.
    symmetry. apply Z.compare_lt_iff.
    assert (Hd : Z.log2 (Zpos m2) = 52) by lia.
    rewrite Hd in Hlo2.
    assert (Hm1 : Zpos m1 < 2 ^ 53).
    { apply Z.lt_le_trans with (2 ^ Z.succ (Z.log2 (Zpos m1))); [exact Hhi1|].
      apply Z.pow_le_mono_r; lia. }
    assert (Hp : 2 ^ 1 <= 2 ^ (e2 - e1)) by (apply Z.pow_le_mono_r; lia).
    change (2 ^ 53) with (2 ^ 52 * 2 ^ 1) in Hm1. nia.
  - rewrite Z.min_r by lia. rewrite Z.sub_diag. simpl (2 ^ 0). rewrite Z.mul_1_r.
    symmetry. apply Z.compare_gt_iff.
    assert (Hd : Z.log2 (Zpos m1) = 52) by lia.
    rewrite Hd in Hlo1.
    assert (Hm2 : Zpos m2 < 2 ^ 53).
    { apply Z.lt_le_trans with (2 ^ Z.succ (Z.log2 (Zpos m2))); [exact Hhi2|].
      apply Z.pow_le_mono_r; lia. }
    assert (Hp : 2 ^ 1 <= 2 ^ (e1 - e2)) by (apply Z.pow_le_mono_r; lia).
    change (2 ^ 53) with (2 ^ 52 * 2 ^ 1) in Hm2. nia.
Qed.

Lemma binary_round_aux_signed s m e l :
  0 < m -> -1073 <= Z.log2 m + 1 + e ->
  SFltb (S754_zero false) (binary_round_aux prec emax s m e l) = negb s.
Proof.
  intros Hm Hmag.
  pose proof (binary_round_aux_magnitude s m e l Hm Hmag) as H.
  unfold binary_round_aux in *.
  destruct (shr_fexp prec emax m e l) as [mrs' e'].
  destruct (shr_fexp prec emax _ e' loc_Exact) as [mrs'' e''].
  destruct (shr_m mrs'') as [|q|q]; try tauto.
  destruct (e'' <=? emax - prec); destruct s; reflexivity.
Qed.

Lemma binary_round_signed s m e :
  -1074 <= e ->
  SFltb (S754_zero false) (binary_round prec emax s m e) = negb s.
Proof.
  intros He. unfold binary_round.
  set (e' := fexp prec emax (Zpos (digits2_pos m) + e)).
  destruct (Z_le_gt_dec e e') as [H|H].
  - rewrite (shl_align_above m e e' H).
    apply binary_round_aux_signed; [lia|].
    pose proof (Z.log2_nonneg (Zpos m)). lia.
  - destruct (shl_align_value m e e' ltac:(lia)) as [Hv He'].
    destruct (shl_align m e e') as [mz ez]. cbn [fst snd] in Hv, He'. subst ez.
    apply binary_round_aux_signed; [lia|].
    rewrite Hv. rewrite Z.log2_mul_pow2 by lia.
    pose proof (Z.log2_nonneg (Zpos m)). lia.
Qed.

Lemma binary_normalize_signed d e :
  -1074 <= e ->
  SFltb (S754_zero false) (binary_normalize prec emax d e false) = (0 <? d).
Proof.
  intros He. destruct d as [|p|p]; simpl binary_normalize.
  - reflexivity.
  - apply binary_round_signed, He.
  - apply binary_round_signed, He.
Qed.

(** The sign of a difference is the order of its terms. *)
Lemma SFsub_finite_sign sx mx ex sy my ey :
  canonical mx ex -> canonical my ey ->
  SFltb (S754_zero false)
        (SFsub prec emax (S754_finite sy my ey) (S754_finite sx mx ex))
  = SFltb (S754_finite sx mx ex) (S754_finite sy my ey).
Proof.
  intros Hx Hy. unfold SFsub.
  rewrite binary_normalize_signed
    by (destruct Hx as [? _], Hy as [? _]; lia).
  destruct (shl_align_value my ey (Z.min ey ex) ltac:(lia)) as [-> _].
  destruct (shl_align_value mx ex (Z.min ey ex) ltac:(lia)) as [-> _].
  pose proof (compare_aligned mx ex my ey Hx Hy) as Hc.
  rewrite (Z.min_comm ey ex).
  unfold aligned in Hc.
  assert (Hpx : 0 < Zpos mx * 2 ^ (ex - Z.min ex ey)).
  { apply Z.mul_pos_pos; [lia|apply pow2_pos; lia]. }
  assert (Hpy : 0 < Zpos my * 2 ^ (ey - Z.min ex ey)).
  { apply Z.mul_pos_pos; [lia|apply pow2_pos; lia]. }
  unfold SFltb, SFcompare.
  destruct sx, sy; unfold cond_Zopp.
  - (* both negative *)
    replace (match ex ?= ey with
             | Eq => CompOpp (Pos.compare_cont Eq mx my)
             | Lt => Gt
             | Gt => Lt
             end)
      with (CompOpp match ex ?= ey with
                    | Eq => Pos.compare_cont Eq mx my
                    | Lt => Lt
                    | Gt => Gt
                    end)
      by (destruct (ex ?= ey); reflexivity).
    rewrite Hc.
    destruct (Z.compare_spec (Zpos mx * 2 ^ (ex - Z.min ex ey))
                             (Zpos my * 2 ^ (ey - Z.min ex ey)));
      simpl CompOpp; [apply Z.ltb_ge|apply Z.ltb_ge|apply Z.ltb_lt]; lia.
  - apply Z.ltb_lt. lia.
  - apply Z.ltb_ge. lia.
  - rewrite Hc.
    destruct (Z.compare_spec (Zpos mx * 2 ^ (ex - Z.min ex ey))
                             (Zpos my * 2 ^ (ey - Z.min ex ey)));
      [apply Z.ltb_ge|apply Z.ltb_lt|apply Z.ltb_ge]; lia.
Qed.

Lemma SFsub_sign X Y :
  match X with S754_finite _ m e => canonical m e | _ => True end ->
  match Y with S754_finite _ m e => canonical m e | _ => True end ->
  SFltb (S754_zero false) (SFsub prec emax Y X) = SFltb X Y.
Proof.
  intros HX HY.
  destruct X as [sx|sx| |sx mx ex], Y as [sy|sy| |sy my ey];
    try (apply SFsub_finite_sign; assumption);
    try (destruct sx, sy; reflexivity);
    try (destruct sx; reflexivity); try (destruct sy; reflexivity);
    reflexivity.
Qed.

(** [b - a] is positive exactly when [a < b]; with a [NaN] on either side
    neither holds. *)
Lemma sub_pos_ltb a b : (0 <? b - a)%float = (a <? b)%float.
Proof.
  rewrite !ltb_spec, sub_spec, Prim2SF_zero.
  apply SFsub_sign.
  - destruct (Prim2SF a) eqn:E; auto. exact (valid_canonical _ _ _ _ E).
  - destruct (Prim2SF b) eqn:E; auto. exact (valid_canonical _ _ _ _ E).
Qed.

(** ** The similarity engine *)

Lemma Math_round_not_nan x :
  PrimFloat.is_nan x = false -> PrimFloat.is_nan (Similarity.Math_round x) = false.
Proof.
  intros Hx. unfold Similarity.Math_round.
  destruct (Prim2SF x) as [s|s| |s m e]; try exact Hx.
  destruct (0 <=? e); [exact Hx|].
  destruct (_ =? 0).
  - destruct s; reflexivity.
  - destruct (_ <? 0).
    + apply opp_not_nan, of_uint63_not_nan.
    + apply of_uint63_not_nan.
Qed.

Lemma round2_not_nan x :
  PrimFloat.is_nan x = false -> PrimFloat.is_nan (Similarity.round2 x) = false.
Proof.
  intros Hx. unfold Similarity.round2.
  assert (H100 : Prim2SF 100%float = S754_finite false 7036874417766400 (-46))
    by reflexivity.
  apply (div_not_nan _ _ _ _ _ H100), Math_round_not_nan.
  apply (mul_not_nan _ _ _ _ _ H100), Hx.
Qed.

Section Ranking.
Variable Math_log : float -> float.

(** The comparator moves [b] in front of [a] exactly when [a] is less. *)
Lemma comparator_positive a b :
  (0 <? Similarity.comparator a b)%float
  = (Similarity.similarity a <? Similarity.similarity b)%float.
Proof. apply sub_pos_ltb. Qed.

Lemma in_place x a l : In x (Similarity.place a l) <-> x = a \/ In x l.
Proof.
  induction l as [|b l IH]; simpl.
  - intuition congruence.
  - destruct (_ <? _)%float; simpl; [rewrite IH|]; intuition congruence.
Qed.

Lemma place_sorted a l :
  is_number a -> Forall is_number l ->
  StronglySorted outranks l -> StronglySorted outranks (Similarity.place a l).
Proof.
  intros Ha Hl Hs. induction Hs as [|b l Hs IH Hb]; simpl.
  - repeat constructor.
  - inversion Hl as [|? ? Hnb Hl']; subst. rewrite comparator_positive.
    destruct (Similarity.similarity a <? Similarity.similarity b)%float eqn:E.
    + constructor; [apply IH, Hl'|].
      apply Forall_forall. intros x Hx. apply in_place in Hx.
      destruct Hx as [->|Hx].
      * unfold outranks, sim_leb. rewrite leb_spec. apply SFltb_SFleb.
        rewrite <- ltb_spec. exact E.
      * rewrite Forall_forall in Hb. apply Hb, Hx.
    + assert (Hab : outranks a b).
      { unfold outranks, sim_leb. rewrite leb_spec. apply SFleb_total.
        - apply is_nan_spec, Ha.
        - apply is_nan_spec, Hnb.
        - rewrite <- ltb_spec. exact E. }
      constructor; [constructor; assumption|].
      constructor; [exact Hab|].
      apply Forall_forall. intros x Hx. rewrite Forall_forall in Hb.
      specialize (Hb x Hx). unfold outranks, sim_leb in *.
      rewrite leb_spec in *. eapply SFleb_trans; eassumption.
Qed.

Lemma sort_perm l : Permutation (Similarity.sort l) l.
Proof.
  induction l as [|a l IH]; simpl; [constructor|].
  transitivity (a :: Similarity.sort l); [|constructor; exact IH].
  generalize (Similarity.sort l). clear. intros l.
  induction l as [|b l IH]; simpl; [reflexivity|].
  destruct (_ <? _)%float; [|reflexivity].
  rewrite perm_swap. constructor. exact IH.
Qed.

Lemma sort_sorted l :
  Forall is_number l -> StronglySorted outranks (Similarity.sort l).
Proof.
  induction l as [|a l IH]; simpl; intros H; [constructor|].
  inversion H as [|? ? Ha Hl]; subst.
  apply place_sorted; [exact Ha| |apply IH, Hl].
  apply Forall_forall. intros x Hx. rewrite Forall_forall in Hl. apply Hl.
  apply (Permutation_in _ (sort_perm l)), Hx.
Qed.

Lemma place_tied k a l : tied k (Similarity.place a l) = tied k (a :: l).
Proof.
  unfold tied. induction l as [|b l IH]; simpl; [reflexivity|].
  rewrite comparator_positive.
  destruct (Similarity.similarity a <? Similarity.similarity b)%float eqn:E;
    [|reflexivity].
  simpl. rewrite IH. simpl.
  destruct (Similarity.similarity a =? k)%float eqn:Ea; [|reflexivity].
  rewrite eqb_spec in Ea. rewrite ltb_spec in E.
  pose proof (SFeqb_SFltb_distinct _ _ _ Ea E) as Eb.
  rewrite <- eqb_spec in Eb. rewrite Eb. reflexivity.
Qed.

Lemma sort_tied k l : tied k (Similarity.sort l) = tied k l.
Proof.
  induction l as [|a l IH]; simpl; [reflexivity|].
  rewrite place_tied. unfold tied in *. simpl. rewrite IH. reflexivity.
Qed.

Lemma slice0_length {A : Type} n (l : list A) :
  0 <= n -> Z.of_nat (List.length (Similarity.slice0 n l)) <= n.
Proof.
  intros Hn. unfold Similarity.slice0.
  destruct (n <? 0) eqn:E; [apply Z.ltb_lt in E; lia|].
  pose proof (firstn_le_length (Z.to_nat n) l) as H. lia.
Qed.

Lemma slice0_prefix {A : Type} n (l : list A) :
  exists rest, l = Similarity.slice0 n l ++ rest.
Proof.
  unfold Similarity.slice0. destruct (n <? 0); eexists;
    symmetry; apply firstn_skipn.
Qed.

Lemma in_collected th query listed m :
  In m (Similarity.collected Math_log th query listed) ->
  exists e,
    In e listed
    /\ Similarity.retained Math_log th query listed e = true
    /\ m = Similarity.present e
             (Similarity.similarity_to Math_log query listed
                (prompt (JSONStorage.entry e))).
Proof.
  unfold Similarity.collected. intros H. apply in_flat_map in H.
  destruct H as [e [He Hm]]. exists e. split; [exact He|].
  unfold Similarity.candidate in Hm.
  destruct (Similarity.retained Math_log th query listed e); simpl in Hm;
    [|tauto].
  destruct Hm as [<-|[]]. split; reflexivity.
Qed.

Lemma collected_numbers th query listed :
  Forall is_number (Similarity.collected Math_log th query listed).
Proof.
  apply Forall_forall. intros m Hm. apply in_collected in Hm.
  destruct Hm as [e [_ [Hr ->]]]. unfold is_number. simpl.
  apply round2_not_nan. apply (leb_not_nan th). exact Hr.
Qed.
End Ranking.

Lemma StronglySorted_prefix {A : Type} (R : A -> A -> Prop) (l1 l2 : list A) :
  StronglySorted R (l1 ++ l2) -> StronglySorted R l1.
Proof.
  induction l1 as [|a l1 IH]; simpl; intros H; [constructor|].
  inversion H as [|? ? Hs Hall]; subst.
  constructor; [apply IH, Hs|].
  apply Forall_app in Hall. apply Hall.
Qed.

(** *** [findSimilar] *)

(** For the query "python tutorial" the first two prompts have the
    similarities 0.37706... and 0.38333..., both presented as 0.38: they stay
    in entry order, the smaller unrounded value first.  And with the limit -1
    one result is returned. *)
Lemma findSimilar_sorts_presented_values :
  let query := "python tutorial"%string in
  let r := Similarity.findSimilar log_table true query three_prompts
             default_options in
  map (fun e => Similarity.similarity_to log_table query three_prompts
                  (prompt (JSONStorage.entry e))) three_prompts
  = [0.37706230612897695%float; 0.38333288898839102%float;
     0.1469441037801861%float]
  /\ map Similarity.m_hash (Similarity.results r)
     = ["111111111111"%string; "222222222222"%string]
  /\ map Similarity.similarity (Similarity.results r)
     = [0.38%float; 0.38%float]
  /\ non_increasing
       (fun m => Similarity.similarity_to log_table query three_prompts
                   (Similarity.m_prompt m))
       (Similarity.results r) = false
  /\ List.length
       (Similarity.results
          (Similarity.findSimilar log_table true query three_prompts
             {| Similarity.threshold := None;
                Similarity.limit := Some (-1) |})) = 1%nat.
Proof. cbv zeta. repeat split; vm_compute; reflexivity. Qed.

Section FindSimilar.
Variable Math_log : float -> float.

(** C3 (amended).  For every query, every list of entries and all options
    (the defaults are the threshold 0.3 and the limit 10): [findSimilar]
    returns only entries whose unrounded similarity meets or exceeds the
    threshold, each presented with its similarity rounded to 2 decimal
    places; the results are sorted non-increasing by that presented, rounded
    value, which is the value the sort compares; results whose presented
    values are equal keep the order their entries have in [storage.list()];
    and for a limit that is not negative the number of results never exceeds
    the limit. *)
Theorem findSimilar_ranks_presented_values (pro : bool) (query : string)
    (listed : list JSONStorage.Listed) (options : Similarity.Options) :
  let r := Similarity.findSimilar Math_log pro query listed options in
  let th := Similarity.threshold_of options in
  let lim := Similarity.limit_of options in
  (Similarity.threshold_of default_options = 0.3%float
   /\ Similarity.limit_of default_options = 10)
  /\ Forall (fun m =>
               exists e,
                 In e listed
                 /\ (th <=? Similarity.similarity_to Math_log query listed
                              (prompt (JSONStorage.entry e)))%float = true
                 /\ m = Similarity.present e
                          (Similarity.similarity_to Math_log query listed
                             (prompt (JSONStorage.entry e))))
            (Similarity.results r)
  /\ StronglySorted outranks (Similarity.results r)
  /\ (forall k, exists rest,
         tied k (Similarity.collected Math_log th query listed)
         = tied k (Similarity.results r) ++ rest)
  /\ (0 <= lim -> Z.of_nat (List.length (Similarity.results r)) <= lim).
Proof.
  cbv zeta. split; [split; reflexivity|].
  unfold Similarity.findSimilar.
  destruct pro; cbn [negb Similarity.results];
    [|repeat split; try constructor;
      [intros k; eexists; reflexivity | intros H; exact H]].
  destruct listed as [|e0 listed']; cbn [Similarity.results];
    [repeat split; try constructor;
     [intros k; eexists; reflexivity | intros H; exact H]|].
  set (all := e0 :: listed').
  set (kept := Similarity.collected Math_log
                 (Similarity.threshold_of options) query all).
  destruct (slice0_prefix (Similarity.limit_of options) (Similarity.sort kept))
    as [rest Hrest].
  repeat split.
  - apply Forall_forall. intros m Hm.
    assert (Hin : In m kept).
    { apply (Permutation_in _ (sort_perm kept)). rewrite Hrest.
      apply in_or_app. left. exact Hm. }
    apply in_collected in Hin. exact Hin.
  - apply (StronglySorted_prefix _ _ rest). rewrite <- Hrest.
    apply sort_sorted. apply collected_numbers.
  - intros k. exists (tied k rest).
    rewrite <- (sort_tied k kept). rewrite Hrest at 1.
    unfold tied. apply filter_app.
  - apply slice0_length.
Qed.

End FindSimilar.

Lemma findSimilar_ranks_presented_values_witness :
  Z.of_nat
    (List.length
       (Similarity.results
          (Similarity.findSimilar log_table true "python tutorial"
             three_prompts
             {| Similarity.threshold := None; Similarity.limit := Some 1 |})))
  <= 1.
Proof.
  refine (proj2 (proj2 (proj2 (proj2
            (findSimilar_ranks_presented_values log_table true
               "python tutorial" three_prompts
               {| Similarity.threshold := None;
                  Similarity.limit := Some 1 |})))) _).
  cbn. lia.
Defined.

(** *** [cosineSimilarity] *)

(** On two vectors with the one entry [1e200] the sums of squares overflow
    and the result is [NaN]; and so it is, with no overflow, when a key of
    one vector is a name that the other inherits from [Object.prototype]:
    what is read there is a function. *)
Lemma cosineSimilarity_overflow :
  PrimFloat.is_nan (Similarity.cosineSimilarity huge huge) = true
  /\ Similarity.mag1 (Similarity.sums huge huge) = infinity
  /\ Similarity.dotProduct (Similarity.sums huge huge) = infinity
  /\ PrimFloat.is_nan
       (Similarity.cosineSimilarity at_constructor [("a"%string, 1%float)])
     = true
  /\ PrimFloat.is_nan (Similarity.cosineSimilarity [] at_constructor) = true.
Proof. repeat split. Qed.

Lemma in_distinct l :
  forall seen k, In k (Similarity.distinct seen l) -> In k l.
Proof.
  induction l as [|x l IH]; intros seen k H; [exact H|].
  cbn [Similarity.distinct] in H.
  destruct (existsb (String.eqb x) seen).
  - right. apply (IH _ _ H).
  - destruct H as [->|H]; [left; reflexivity|right; apply (IH _ _ H)].
Qed.

Lemma allKeys_plain (v1 v2 : JsObj.t float) k :
  plain_keys v1 -> plain_keys v2 -> In k (allKeys v1 v2) -> plain_key k.
Proof.
  unfold plain_keys, allKeys. intros H1 H2 Hin.
  apply in_distinct in Hin. apply in_app_or in Hin.
  rewrite Forall_forall in H1, H2. destruct Hin as [Hin|Hin]; auto.
Qed.

(** What the loop reads at a plain key: the entry, or zero. *)
Lemma number_at_nonneg (v : JsObj.t float) k :
  nonneg_entries v -> plain_key k ->
  nonneg_finite (Similarity.number_at v k) = true.
Proof.
  unfold nonneg_entries, plain_key, Similarity.number_at. intros Hv Hk.
  destruct (JsObj.get k v) as [x|] eqn:G.
  - apply get_in in G. rewrite Forall_forall in Hv. specialize (Hv _ G).
    cbn [snd] in Hv. unfold Similarity.or_zero.
    destruct (PrimFloat.is_nan x || PrimFloat.is_zero x);
      [reflexivity|exact Hv].
  - rewrite Hk. reflexivity.
Qed.

Lemma number_at_zero (v : JsObj.t float) k :
  zero_entries v -> plain_key k -> Similarity.number_at v k = 0%float.
Proof.
  unfold zero_entries, plain_key, Similarity.number_at. intros Hv Hk.
  destruct (JsObj.get k v) as [x|] eqn:G.
  - apply get_in in G. rewrite Forall_forall in Hv. specialize (Hv _ G).
    cbn [snd] in Hv. unfold Similarity.or_zero.
    rewrite Hv, orb_true_r. reflexivity.
  - rewrite Hk. reflexivity.
Qed.

Lemma reads_nonneg (v1 v2 : JsObj.t float) :
  plain_keys v1 -> plain_keys v2 ->
  nonneg_entries v1 -> nonneg_entries v2 ->
  Forall (fun key => nonneg_finite (Similarity.number_at v1 key)
                     && nonneg_finite (Similarity.number_at v2 key) = true)
         (allKeys v1 v2).
Proof.
  intros Hp1 Hp2 Hn1 Hn2. apply Forall_forall. intros k Hk.
  pose proof (allKeys_plain v1 v2 k Hp1 Hp2 Hk) as Hplain.
  rewrite (number_at_nonneg v1 k Hn1 Hplain).
  rewrite (number_at_nonneg v2 k Hn2 Hplain). reflexivity.
Qed.

Lemma sums_zero_left (v1 v2 : JsObj.t float) :
  Forall (fun key => Similarity.number_at v1 key = 0%float) (allKeys v1 v2) ->
  Similarity.mag1 (Similarity.sums v1 v2) = 0%float.
Proof.
  unfold Similarity.sums, allKeys.
  generalize (Similarity.distinct [] (JsObj.keys v1 ++ JsObj.keys v2)).
  intros keys Hz.
  assert (H : forall acc, Similarity.mag1 acc = 0%float ->
                          Similarity.mag1
                            (fold_left (Similarity.accumulate v1 v2) keys acc)
                          = 0%float).
  { induction Hz as [|k keys Hk Hz IH]; intros acc Hacc; simpl; [exact Hacc|].
    apply IH. simpl. rewrite Hacc, Hk. reflexivity. }
  apply H. reflexivity.
Qed.

Lemma sums_zero_right (v1 v2 : JsObj.t float) :
  Forall (fun key => Similarity.number_at v2 key = 0%float) (allKeys v1 v2) ->
  Similarity.mag2 (Similarity.sums v1 v2) = 0%float.
Proof.
  unfold Similarity.sums, allKeys.
  generalize (Similarity.distinct [] (JsObj.keys v1 ++ JsObj.keys v2)).
  intros keys Hz.
  assert (H : forall acc, Similarity.mag2 acc = 0%float ->
                          Similarity.mag2
                            (fold_left (Similarity.accumulate v1 v2) keys acc)
                          = 0%float).
  { induction Hz as [|k keys Hk Hz IH]; intros acc Hacc; simpl; [exact Hacc|].
    apply IH. simpl. rewrite Hacc, Hk. reflexivity. }
  apply H. reflexivity.
Qed.

Lemma dot_nonneg (v1 v2 : JsObj.t float) :
  Forall (fun key => nonneg_finite (Similarity.number_at v1 key)
                     && nonneg_finite (Similarity.number_at v2 key) = true)
         (allKeys v1 v2) ->
  sf_nonneg (Prim2SF (Similarity.dotProduct (Similarity.sums v1 v2))).
Proof.
  unfold Similarity.sums, allKeys.
  generalize (Similarity.distinct [] (JsObj.keys v1 ++ JsObj.keys v2)).
  intros keys Hk.
  assert (H : forall acc,
             sf_nonneg (Prim2SF (Similarity.dotProduct acc)) ->
             sf_nonneg (Prim2SF (Similarity.dotProduct
                                   (fold_left (Similarity.accumulate v1 v2)
                                              keys acc)))).
  { induction Hk as [|k keys Hk Hks IH]; intros acc Hacc; simpl; [exact Hacc|].
    apply IH. simpl. apply andb_prop in Hk. destruct Hk as [H1 H2].
    rewrite add_spec, mul_spec.
    apply SFadd_nonneg; [exact Hacc|].
    apply SFmul_nonneg; apply nonneg_finite_spec; assumption. }
  apply H. simpl. exact I.
Qed.

Lemma squares_nonneg (v1 v2 : JsObj.t float) :
  Forall (fun key => nonneg_finite (Similarity.number_at v1 key)
                     && nonneg_finite (Similarity.number_at v2 key) = true)
         (allKeys v1 v2) ->
  sf_nonneg (Prim2SF (Similarity.mag1 (Similarity.sums v1 v2)))
  /\ sf_nonneg (Prim2SF (Similarity.mag2 (Similarity.sums v1 v2))).
Proof.
  unfold Similarity.sums, allKeys.
  generalize (Similarity.distinct [] (JsObj.keys v1 ++ JsObj.keys v2)).
  intros keys Hk.
  assert (H : forall acc,
             sf_nonneg (Prim2SF (Similarity.mag1 acc))
             /\ sf_nonneg (Prim2SF (Similarity.mag2 acc)) ->
             sf_nonneg (Prim2SF (Similarity.mag1
                                   (fold_left (Similarity.accumulate v1 v2)
                                              keys acc)))
             /\ sf_nonneg (Prim2SF (Similarity.mag2
                                      (fold_left (Similarity.accumulate v1 v2)
                                                 keys acc)))).
  { induction Hk as [|k keys Hk Hks IH]; intros acc Hacc; simpl; [exact Hacc|].
    apply IH. simpl. apply andb_prop in Hk. destruct Hk as [H1 H2].
    destruct Hacc as [Ha1 Ha2].
    rewrite !add_spec, !mul_spec.
    split; apply SFadd_nonneg; try assumption;
      apply SFmul_nonneg; apply nonneg_finite_spec; assumption. }
  apply H. simpl. split; exact I.
Qed.

Lemma cosine_not_nan (v1 v2 : JsObj.t float) :
  Forall (fun key => nonneg_finite (Similarity.number_at v1 key)
                     && nonneg_finite (Similarity.number_at v2 key) = true)
         (allKeys v1 v2) ->
  PrimFloat.is_finite (Similarity.dotProduct (Similarity.sums v1 v2))
  || PrimFloat.is_finite (Similarity.norm1 v1 v2 * Similarity.norm2 v1 v2)%float
  = true ->
  PrimFloat.is_nan (Similarity.cosineSimilarity v1 v2) = false.
Proof.
  intros Hentries Hfin.
  unfold Similarity.cosineSimilarity, Similarity.norm1, Similarity.norm2 in *.
  destruct (squares_nonneg v1 v2 Hentries) as [Hs1 Hs2].
  pose proof (dot_nonneg v1 v2 Hentries) as Hdot.
  set (s := Similarity.sums v1 v2) in *.
  destruct (PrimFloat.sqrt (Similarity.mag1 s) =? 0)%float eqn:E1;
    [reflexivity|].
  destruct (PrimFloat.sqrt (Similarity.mag2 s) =? 0)%float eqn:E2;
    [reflexivity|].
  cbn [orb].
  pose proof (SFmul_roots _ _ (sqrt_root _ Hs1 E1) (sqrt_root _ Hs2 E2)) as Hp.
  rewrite <- mul_spec in Hp.
  apply is_nan_spec. rewrite div_spec.
  apply SFdiv_not_inf_inf; [exact Hdot|exact Hp|].
  apply orb_prop in Hfin. destruct Hfin as [Hf|Hf]; apply is_finite_spec in Hf.
  - destruct (Prim2SF (Similarity.dotProduct s)); tauto.
  - destruct (Prim2SF (Similarity.dotProduct s)); try tauto.
    destruct (Prim2SF (_ * _)%float); tauto.
Qed.

(** C9 (amended).  For every pair of sparse vectors whose keys name no
    property of [Object.prototype] and whose entries are non-negative and
    finite: [cosineSimilarity] returns exactly 0 whenever all the entries of
    one vector are zero (its L2 norm is 0), and more generally whenever
    either computed norm is 0 -- so [cosineSimilarity({}, {})] is 0 --, and
    it returns [NaN] only when the sums overflow: the result is not [NaN] as
    long as the dot product or the product of the two norms is finite. *)
Theorem cosineSimilarity_zero_norm (v1 v2 : JsObj.t float) :
  plain_keys v1 -> plain_keys v2 ->
  nonneg_entries v1 -> nonneg_entries v2 ->
  Similarity.cosineSimilarity [] [] = 0%float
  /\ (zero_entries v1 \/ zero_entries v2 ->
      Similarity.cosineSimilarity v1 v2 = 0%float)
  /\ (((Similarity.norm1 v1 v2 =? 0)%float
       || (Similarity.norm2 v1 v2 =? 0)%float) = true ->
      Similarity.cosineSimilarity v1 v2 = 0%float)
  /\ (PrimFloat.is_finite (Similarity.dotProduct (Similarity.sums v1 v2))
      || PrimFloat.is_finite
           (Similarity.norm1 v1 v2 * Similarity.norm2 v1 v2)%float = true ->
      PrimFloat.is_nan (Similarity.cosineSimilarity v1 v2) = false).
Proof.
  intros Hp1 Hp2 Hn1 Hn2.
  split; [reflexivity|]. split; [|split].
  - unfold Similarity.cosineSimilarity. intros [Hz|Hz].
    + rewrite (sums_zero_left v1 v2); [reflexivity|].
      apply Forall_forall. intros k Hk. apply (number_at_zero v1 k Hz).
      apply (allKeys_plain v1 v2 k Hp1 Hp2 Hk).
    + rewrite (sums_zero_right v1 v2); [rewrite orb_true_r; reflexivity|].
      apply Forall_forall. intros k Hk. apply (number_at_zero v2 k Hz).
      apply (allKeys_plain v1 v2 k Hp1 Hp2 Hk).
  - unfold Similarity.cosineSimilarity, Similarity.norm1, Similarity.norm2.
    intros H. rewrite H. reflexivity.
  - apply cosine_not_nan. apply reads_nonneg; assumption.
Qed.

Lemma cosineSimilarity_zero_norm_witness :
  PrimFloat.is_nan (Similarity.cosineSimilarity unit_a unit_b) = false
  /\ Similarity.cosineSimilarity unit_a [("z"%string, 0%float)] = 0%float.
Proof.
  assert (Ha : plain_keys unit_a /\ nonneg_entries unit_a).
  { split; repeat constructor. }
  assert (Hb : plain_keys unit_b /\ nonneg_entries unit_b).
  { split; repeat constructor. }
  assert (Hz : plain_keys [("z"%string, 0%float)]
               /\ nonneg_entries [("z"%string, 0%float)]
               /\ zero_entries [("z"%string, 0%float)]).
  { repeat split; repeat constructor. }
  destruct (cosineSimilarity_zero_norm unit_a unit_b
              (proj1 Ha) (proj1 Hb) (proj2 Ha) (proj2 Hb))
    as [_ [_ [_ H]]].
  destruct (cosineSimilarity_zero_norm unit_a [("z"%string, 0%float)]
              (proj1 Ha) (proj1 Hz) (proj2 Ha) (proj1 (proj2 Hz)))
    as [_ [H0 _]].
  split.
  - apply H. reflexivity.
  - apply H0. right. exact (proj2 (proj2 Hz)).
Defined.

(** ** The expectations of the test suite, on the embedding *)

(** [tests/storage.test.js] *)

Example test_set_then_update :
  let fs := snd (JSONStorage.init 0 NoDir) in
  let first := JSONStorage.set "testhash" (sample_entry "test prompt" "test response" 0 0) fs in
  let second := JSONStorage.set "testhash" (sample_entry "updated" "updated response" 0 5)
                  (snd first) in
  fst first = JSONStorage.SetOk true
  /\ option_map prompt (JSONStorage.get "testhash" (snd first))
     = Some "test prompt"%string
  /\ fst second = JSONStorage.SetOk false
  /\ JSONStorage.get "nonexistent" (snd second) = None.
Proof. repeat split. Qed.

Example test_delete :
  let fs := snd (JSONStorage.set "deleteme" (sample_entry "delete" "me" 0 0)
                   (snd (JSONStorage.init 0 NoDir))) in
  fst (JSONStorage.delete "deleteme" fs) = JSONStorage.DeleteOk
  /\ JSONStorage.get "deleteme" (snd (JSONStorage.delete "deleteme" fs)) = None
  /\ fst (JSONStorage.delete "nonexistent" fs) = JSONStorage.DeleteFailed.
Proof. repeat split. Qed.

Example test_clear_all :
  let fs := run utc [DoSet "entry1" (sample_entry "p1" "r1" 0 0);
                     DoSet "entry2" (sample_entry "p2" "r2" 0 0)]
                (snd (JSONStorage.init 0 NoDir)) in
  let r := JSONStorage.clear utc {| JSONStorage.olderThan := None |} 0 fs in
  fst r = {| JSONStorage.clear_success := true; JSONStorage.removed := 2 |}
  /\ JSONStorage.list (snd r) = [].
Proof. repeat split. Qed.

Example test_import_skip_existing :
  let r := JSONStorage.importData
             {| JSONStorage.snap_entries := Some import_sample_incoming |}
             "skip-existing" (Dir false (Parsed import_sample_local)) in
  JSONStorage.imported (fst r) = 1
  /\ option_map prompt (JSONStorage.get "existing" (snd r))
     = Some "original"%string.
Proof. repeat split. Qed.

Example test_createStorage :
  createStorage None = Returned JSONStorageAt
  /\ createStorage (Some "json"%string) = Returned JSONStorageAt
  /\ createStorage (Some "redis"%string)
     = Thrown "Redis backend not yet implemented".
Proof. repeat split. Qed.

Example test_detectBackend :
  detectBackend (Dir false (Parsed empty_store)) = "json"%string
  /\ detectBackend (Dir true Absent) = "sqlite"%string.
Proof. repeat split. Qed.

(** [tests/license.test.js] *)

Example test_canAddEntry :
  Limits.allowed (Limits.canAddEntry false 10) = true
  /\ Limits.allowed (Limits.canAddEntry false 49) = true
  /\ Limits.canAddEntry false 50
     = {| Limits.allowed := false;
          Limits.reason := Some "FREE version limited to 50 cache entries"%string |}
  /\ Limits.allowed (Limits.canAddEntry false 100) = false.
Proof. repeat split. Qed.

Example test_tokenize :
  Similarity.tokenize "Hello, world! How are you?"
  = ["hello"; "world"; "how"; "are"; "you"]%string
  /\ Similarity.tokenize "I am a test of the code"
     = ["test"; "the"; "code"]%string
  /\ Similarity.tokenize "" = [].
Proof. repeat split. Qed.

(** The Kelvin sign is lower-cased to the letter [k]; a letter with an
    accent (here U+00E9) separates words. *)
Example test_tokenize_beyond_ascii :
  Similarity.tokenize
    (String "226" (String "132" (String "170" "elvin scale")))
  = ["kelvin"; "scale"]%string
  /\ Similarity.tokenize
       ("caf" ++ String "195" (String "169" " au lait"))%string
     = ["caf"; "lait"]%string.
Proof. repeat split. Qed.

Example test_termFrequency :
  Similarity.termFrequency ["hello"%string]
  = [("hello"%string, 1%float)]
  /\ Similarity.termFrequency [] = [].
Proof. repeat split. Qed.

Example test_tfidfVector :
  Similarity.tfidfVector
    [("hello"%string, 0.5%float); ("unknown"%string, 0.5%float)]
    [("hello"%string, 1%float)]
  = [("hello"%string, 0.5%float); ("unknown"%string, 0%float)].
Proof. reflexivity. Qed.

Example test_cosineSimilarity :
  Similarity.cosineSimilarity
    [("a"%string, 1%float); ("b"%string, 0%float)]
    [("a"%string, 0%float); ("b"%string, 1%float)] = 0%float
  /\ Similarity.cosineSimilarity [] [] = 0%float
  /\ Similarity.cosineSimilarity
       [("a"%string, 0%float); ("b"%string, 0%float)]
       [("a"%string, 0%float); ("b"%string, 0%float)] = 0%float
  /\ (0.9 <? Similarity.cosineSimilarity
               [("a"%string, 1%float); ("b"%string, 2%float); ("c"%string, 3%float)]
               [("a"%string, 1%float); ("b"%string, 2%float); ("c"%string, 4%float)])%float
     = true.
Proof. repeat split. Qed.

(** [parseInt] on the texts of [olderThan]: the number at the start, after
    white space of one byte or more. *)
Example test_parseInt :
  Js.parseInt "7d" = Some 7
  /\ Js.parseInt (String "009" (String "194" (String "160" "30 days")))
     = Some 30
  /\ Js.parseInt (String "226" (String "128" (String "168" "-2d")))
     = Some (-2)
  /\ Js.parseInt "0x1F" = Some 31
  /\ Js.parseInt "week" = None.
Proof. repeat split. Qed.

(** The scenario of the specification, [parseTTL("7d")], [parseTTL("7")] and
    [parseTTL("7x")]. *)
Example test_parseTTL :
  Cache.parseTTL "7d" = Some 604800000
  /\ Cache.parseTTL "7" = None
  /\ Cache.parseTTL "7x" = None.
Proof. repeat split. Qed.

(** * Further properties

    What the embedded functions show beyond the statements above: their
    behaviour at the edges and on failure, what they keep, and how they
    compose. *)

(** ** The JSON backend, further *)

(** *** [delete] *)



(** *** A store that cannot be read *)

Lemma mutate_unreadable zone fs m :
  JSONStorage.load fs = None -> mutate zone fs m = fs.
Proof.
  intros H. destruct m; simpl;
    [unfold JSONStorage.set|unfold JSONStorage.delete|unfold JSONStorage.clear
     |unfold JSONStorage.importData]; rewrite H; reflexivity.
Qed.

(** X4.  When [load()] gives [null] -- the directory or [index.json] is
    missing, or the file does not parse -- no method of the JSON backend
    writes: every sequence of [set], [delete], [clear] and [importData]
    leaves the directory as it is.  [get] answers [null], [set] fails with
    'Storage not initialized', [delete] fails, [clear] and [importData] fail
    with a count of 0, [updateStats] does nothing, [list] is empty, and
    [getStats] and [exportData] answer [null]. *)
Theorem unreadable_store_is_left_alone (file_size : Data -> Z)
    (zone : Js.Zone) (fs : CacheDir) (ms : list Mutation) :
  JSONStorage.load fs = None ->
  run zone ms fs = fs
  /\ (forall h, JSONStorage.get h fs = None)
  /\ (forall h e, JSONStorage.set h e fs
                  = (JSONStorage.SetFailed "Storage not initialized", fs))
  /\ (forall h, JSONStorage.delete h fs = (JSONStorage.DeleteFailed, fs))
  /\ (forall options now,
         JSONStorage.clear zone options now fs
         = ({| JSONStorage.clear_success := false; JSONStorage.removed := 0 |},
            fs))
  /\ (forall importedData strategy,
         JSONStorage.importData importedData strategy fs
         = ({| JSONStorage.import_success := false;
               JSONStorage.imported := 0 |}, fs))
  /\ (forall u, JSONStorage.updateStats u fs = fs)
  /\ JSONStorage.list fs = []
  /\ JSONStorage.getStats file_size fs = None
  /\ JSONStorage.exportData fs = None.
Proof.
  intros H. split.
  - induction ms as [|m ms IH]; simpl; [reflexivity|].
    rewrite (mutate_unreadable _ _ _ H). exact IH.
  - unfold JSONStorage.get, JSONStorage.set, JSONStorage.delete,
      JSONStorage.clear, JSONStorage.importData, JSONStorage.updateStats,
      JSONStorage.list, JSONStorage.getStats, JSONStorage.exportData.
    rewrite H. repeat split.
Qed.

Lemma unreadable_store_is_left_alone_witness :
  run utc [DoSet "aaaaaaaaaaaa" (sample_entry "p" "r" 0 0);
           DoClear {| JSONStorage.olderThan := None |} 0]
      (Dir false Corrupt)
  = Dir false Corrupt.
Proof.
  exact (proj1 (unreadable_store_is_left_alone flat_size utc
                  (Dir false Corrupt)
                  [DoSet "aaaaaaaaaaaa" (sample_entry "p" "r" 0 0);
                   DoClear {| JSONStorage.olderThan := None |} 0]
                  eq_refl)).
Defined.

(** *** [init] *)

(** X3.  [JSONStorage.init()] always answers [{ success: true }] and
    never overwrites an [index.json] that exists: a store that can be read
    is left as it is, and so is a file that does not parse, which stays
    unreadable.  Where [index.json] is missing it writes the empty document
    (no entries, all stats zero, backend ['json'], created now), creating
    the directory if that is missing too.  A second [init] changes
    nothing. *)
Theorem JSONStorage_init_keeps_what_is_there (now later : Z) (fs : CacheDir) :
  fst (JSONStorage.init now fs) = JSONStorage.InitOk
  /\ match fs with
     | Dir db (Parsed d) => snd (JSONStorage.init now fs) = fs
     | Dir db Corrupt =>
         snd (JSONStorage.init now fs) = fs
         /\ JSONStorage.load (snd (JSONStorage.init now fs)) = None
     | Dir db Absent =>
         snd (JSONStorage.init now fs)
         = Dir db (Parsed {| entries := JsObj.empty;
                             stats := JSONStorage.fresh_stats;
                             meta := {| backend := "json";
                                        meta_created := Some now |} |})
     | NoDir =>
         snd (JSONStorage.init now fs)
         = Dir false (Parsed {| entries := JsObj.empty;
                                stats := JSONStorage.fresh_stats;
                                meta := {| backend := "json";
                                           meta_created := Some now |} |})
     end
  /\ JSONStorage.init later (snd (JSONStorage.init now fs))
     = (JSONStorage.InitOk, snd (JSONStorage.init now fs)).
Proof.
  destruct fs as [|db [| |d]]; repeat split.
Qed.

(** *** [list] *)

(** X2.  On an initialized JSON backend [list()] has one element per key
    of [entries], in the order of [Object.entries], and its elements are
    what [get] returns: for a hash [h] that names no inherited property,
    [{ hash: h, ...e }] is listed exactly when [get(h)] is [e]. *)
Theorem JSONStorage_list_agrees_with_get (db : bool) (d : Data) :
  JsObj.wf (entries d) ->
  let fs := Dir db (Parsed d) in
  map JSONStorage.hash (JSONStorage.list fs) = JsObj.keys (entries d)
  /\ Z.of_nat (List.length (JSONStorage.list fs)) = JsObj.size (entries d)
  /\ (forall h e,
         plain_key h ->
         (In {| JSONStorage.hash := h; JSONStorage.entry := e |}
             (JSONStorage.list fs)
          <-> JSONStorage.get h fs = Some e)).
Proof.
  intros Hwf. cbv zeta. unfold JSONStorage.list, JSONStorage.get.
  cbn [JSONStorage.load]. unfold JsObj.entries, JsObj.keys, JsObj.size.
  split; [rewrite map_map; reflexivity|].
  split; [rewrite length_map; reflexivity|].
  intros h e _. split.
  - intros Hin. apply in_map_iff in Hin. destruct Hin as [[k v] [E Hin]].
    injection E as -> ->. apply in_get; assumption.
  - intros G. apply in_map_iff. exists (h, e). split; [reflexivity|].
    apply get_in, G.
Qed.

Lemma JSONStorage_list_agrees_with_get_witness :
  map JSONStorage.hash (JSONStorage.list (Dir false (Parsed two_entries)))
  = ["aaaaaaaaaaaa"; "bbbbbbbbbbbb"]%string.
Proof.
  refine (proj1 (JSONStorage_list_agrees_with_get false two_entries _)).
  apply wf_by_computation. reflexivity.
Defined.

(** *** [importData], once more *)

Lemma import_step_replace es n h e :
  JSONStorage.import_step "replace" (es, n) (h, e) = (JsObj.set h e es, n + 1).
Proof. unfold JSONStorage.import_step. simpl. destruct (JSONStorage.has h es); reflexivity. Qed.

Lemma import_fold_replace (l : JsObj.t Entry) :
  JsObj.wf l ->
  forall es n,
    let r := fold_left (JSONStorage.import_step "replace") l (es, n) in
    (forall h, JsObj.get h (fst r) =
               match JsObj.get h l with
               | Some e => Some e
               | None => JsObj.get h es
               end)
    /\ snd r = n + JsObj.size l.
Proof.
  unfold JsObj.wf, JsObj.size.
  induction l as [|[k v] l IH]; intros Hwf es n.
  - simpl. split; [reflexivity|lia].
  - inversion Hwf as [|? ? Hnotin Hwf']; subst.
    cbn [fold_left]. rewrite import_step_replace.
    destruct (IH Hwf' (JsObj.set k v es) (n + 1)) as [Hget Hn].
    cbv zeta in Hget, Hn. split.
    + intros h. rewrite Hget. simpl.
      destruct (String.eqb h k) eqn:E.
      * apply String.eqb_eq in E. subst h.
        destruct (JsObj.get k l) eqn:G.
        -- exfalso. apply Hnotin. apply get_in in G.
           apply (in_map fst) in G. exact G.
        -- apply get_set_same.
      * apply String.eqb_neq in E.
        destruct (JsObj.get h l); [reflexivity|].
        apply get_set_other. congruence.
    + rewrite Hn. cbn [List.length]. lia.
Qed.

(** X5.  Under the strategy ['replace'], on an initialized backend and
    for incoming keys that name no inherited property: after [importData]
    every incoming key reads the incoming entry -- an entry that was there
    is overwritten --, every other key reads what it read before,
    [imported] is the number of incoming entries, the overwritten ones
    included, and [totalEntries] is the number of keys; [totalHits],
    [totalSaved] and [meta] stay as they were. *)
Theorem importData_replace_overwrites (db : bool) (d : Data)
    (incoming : JsObj.t Entry) :
  JsObj.wf incoming ->
  plain_keys incoming ->
  let r := JSONStorage.importData
             {| JSONStorage.snap_entries := Some incoming |} "replace"
             (Dir db (Parsed d)) in
  exists d',
    snd r = Dir db (Parsed d')
    /\ (forall h, JsObj.get h (entries d') =
                  match JsObj.get h incoming with
                  | Some e => Some e
                  | None => JsObj.get h (entries d)
                  end)
    /\ fst r = {| JSONStorage.import_success := true;
                  JSONStorage.imported := JsObj.size incoming |}
    /\ totalEntries (stats d') = JsObj.size (entries d')
    /\ totalHits (stats d') = totalHits (stats d)
    /\ totalSaved (stats d') = totalSaved (stats d)
    /\ meta d' = meta d.
Proof.
  intros Hwf _. cbv zeta. unfold JSONStorage.importData.
  cbn [JSONStorage.load JSONStorage.snap_entries]. unfold JsObj.entries.
  destruct (import_fold_replace incoming Hwf (entries d) 0) as [Hget Hn].
  cbv zeta in Hget, Hn.
  destruct (fold_left (JSONStorage.import_step "replace") incoming
                      (entries d, 0)) as [es n].
  cbn in Hget, Hn. subst n.
  eexists. split; [reflexivity|]. cbn. repeat split. exact Hget.
Qed.

Lemma importData_replace_overwrites_witness :
  fst (JSONStorage.importData
         {| JSONStorage.snap_entries := Some import_sample_incoming |}
         "replace" (Dir false (Parsed import_sample_local)))
  = {| JSONStorage.import_success := true; JSONStorage.imported := 2 |}.
Proof.
  assert (Hwf : JsObj.wf import_sample_incoming).
  { apply wf_by_computation. reflexivity. }
  assert (Hplain : plain_keys import_sample_incoming).
  { repeat constructor. }
  destruct (importData_replace_overwrites false import_sample_local
              import_sample_incoming Hwf Hplain) as [d' [_ [_ [H _]]]].
  exact H.
Defined.

(** Every key the loop has walked over is in the object. *)
Lemma has_set h h' e es :
  JSONStorage.has h' (JsObj.set h e es) = String.eqb h h' || JSONStorage.has h' es.
Proof.
  destruct (String.eqb h h') eqn:E.
  - apply String.eqb_eq in E. subst h'. unfold JSONStorage.has.
    rewrite get_set_same. reflexivity.
  - apply String.eqb_neq in E. rewrite has_set_other by exact E. reflexivity.
Qed.

Lemma import_step_has strategy acc p h :
  JSONStorage.has h (fst acc) = true \/ h = fst p ->
  JSONStorage.has h (fst (JSONStorage.import_step strategy acc p)) = true.
Proof.
  destruct acc as [es n], p as [k e]. cbn [fst].
  unfold JSONStorage.import_step.
  intros H.
  destruct (String.eqb strategy "skip-existing" && JSONStorage.has k es) eqn:E1.
  - apply andb_prop in E1. destruct E1 as [_ Hk].
    destruct H as [H| ->]; [exact H|exact Hk].
  - destruct (String.eqb strategy "replace" || negb (JSONStorage.has k es)) eqn:E2.
    + cbn [fst]. rewrite has_set. destruct H as [H| ->].
      * rewrite H. apply orb_true_r.
      * rewrite String.eqb_refl. reflexivity.
    + apply orb_false_elim in E2. destruct E2 as [_ E2].
      apply negb_false_iff in E2. rewrite E2. cbn [negb].
      rewrite andb_false_r. cbn [fst].
      destruct H as [H| ->]; [exact H|exact E2].
Qed.

Lemma import_fold_has strategy l :
  forall acc h,
    JSONStorage.has h (fst acc) = true \/ In h (JsObj.keys l) ->
    JSONStorage.has h (fst (fold_left (JSONStorage.import_step strategy) l acc))
    = true.
Proof.
  induction l as [|p l IH]; intros acc h H; simpl.
  - destruct H as [H|[]]. exact H.
  - apply IH. simpl in H. destruct H as [H|[H|H]].
    + left. apply import_step_has. left. exact H.
    + left. apply import_step_has. right. symmetry. exact H.
    + right. exact H.
Qed.

Lemma import_fold_nothing_new strategy l :
  strategy <> "replace"%string ->
  forall es n,
    Forall (fun k => JSONStorage.has k es = true) (JsObj.keys l) ->
    fold_left (JSONStorage.import_step strategy) l (es, n) = (es, n).
Proof.
  intros Hs. induction l as [|[k e] l IH]; intros es n Hall; cbn [fold_left];
    [reflexivity|].
  inversion Hall as [|? ? Hk Hall']; subst. cbn [fst] in Hk.
  rewrite (import_step_keeps_existing _ _ _ _ _ Hs). rewrite Hk.
  apply IH, Hall'.
Qed.

(** X6.  Importing the same data a second time, under any strategy but
    ['replace'], imports nothing: the second [importData] answers
    [{ success: true, imported: 0 }] and leaves the store exactly as the
    first one left it. *)
Theorem importData_twice_imports_nothing (strategy : string) (db : bool)
    (d : Data) (importedData : JSONStorage.Snapshot) :
  strategy <> "replace"%string ->
  match JSONStorage.snap_entries importedData with
  | Some incoming => plain_keys incoming
  | None => True
  end ->
  let once := JSONStorage.importData importedData strategy (Dir db (Parsed d)) in
  JSONStorage.importData importedData strategy (snd once)
  = ({| JSONStorage.import_success := true; JSONStorage.imported := 0 |},
     snd once).
Proof.
  intros Hs _. cbv zeta. unfold JSONStorage.importData at 2 3.
  cbn [JSONStorage.load].
  set (incoming := match JSONStorage.snap_entries importedData with
                   | Some es => es
                   | None => JsObj.empty
                   end).
  assert (Hall : forall h, In h (JsObj.keys incoming) ->
                           JSONStorage.has h
                             (fst (fold_left (JSONStorage.import_step strategy)
                                     (JsObj.entries incoming) (entries d, 0)))
                           = true).
  { intros h Hin. apply import_fold_has. right. exact Hin. }
  destruct (fold_left (JSONStorage.import_step strategy)
              (JsObj.entries incoming) (entries d, 0)) as [es n] eqn:E.
  cbn [fst snd JSONStorage.save] in *.
  unfold JSONStorage.importData. cbn [JSONStorage.load].
  fold incoming. cbn [entries with_entries with_stats].
  rewrite (import_fold_nothing_new strategy _ Hs es 0)
    by (apply Forall_forall; exact Hall).
  reflexivity.
Qed.

Lemma importData_twice_imports_nothing_witness :
  let once := JSONStorage.importData
                {| JSONStorage.snap_entries := Some import_sample_incoming |}
                "merge" (Dir false (Parsed import_sample_local)) in
  JSONStorage.imported (fst once) = 1
  /\ JSONStorage.importData
       {| JSONStorage.snap_entries := Some import_sample_incoming |}
       "merge" (snd once)
     = ({| JSONStorage.import_success := true; JSONStorage.imported := 0 |},
        snd once).
Proof.
  split; [reflexivity|].
  apply (importData_twice_imports_nothing "merge" false import_sample_local
           {| JSONStorage.snap_entries := Some import_sample_incoming |}).
  - discriminate.
  - repeat constructor.
Defined.

(** *** [clear] with a cutoff that is no date *)

Lemma clear_fold_no_cutoff l :
  forall acc, fold_left (JSONStorage.clear_step None) l acc = acc.
Proof.
  induction l as [|p l IH]; intros acc; simpl; [reflexivity|].
  unfold JSONStorage.clear_step at 2. unfold JSONStorage.older, Js.date_lt.
  destruct (created (snd p)); apply IH.
Qed.

(** X7.  [clear({ olderThan })] with a text, not empty, that gives no
    cutoff date -- [parseInt] finds no number after the white space at its
    start, or the date moved back by that many days is outside the range of
    [Date] -- removes nothing, in every time zone: it answers
    [{ success: true, removed: 0 }] and the store is written back as it
    was. *)
Theorem clear_without_valid_cutoff_removes_nothing (zone : Js.Zone)
    (db : bool) (d : Data) (now : Z) (text : string) :
  text <> ""%string ->
  Js.minus_days zone now (Js.parseInt text) = None ->
  JSONStorage.clear zone {| JSONStorage.olderThan := Some text |} now
    (Dir db (Parsed d))
  = ({| JSONStorage.clear_success := true; JSONStorage.removed := 0 |},
     Dir db (Parsed d)).
Proof.
  intros Htext Hcut. unfold JSONStorage.clear.
  cbn [JSONStorage.load JSONStorage.olderThan JSONStorage.truthy_string].
  destruct text as [|c text]; [congruence|].
  rewrite Hcut, clear_fold_no_cutoff.
  destruct d as [es [n h s c'] m]. cbn.
  rewrite Z.sub_0_r. reflexivity.
Qed.

Lemma clear_without_valid_cutoff_removes_nothing_witness :
  JSONStorage.clear utc {| JSONStorage.olderThan := Some "week"%string |} 1000
    (Dir false (Parsed two_entries))
  = ({| JSONStorage.clear_success := true; JSONStorage.removed := 0 |},
     Dir false (Parsed two_entries)).
Proof.
  apply (clear_without_valid_cutoff_removes_nothing utc false two_entries
           1000 "week").
  - discriminate.
  - reflexivity.
Defined.

(** ** The cache facade, further *)

Section TimeToLive.
Variable sha256_hex : string -> string.
Variable file_size : Data -> Z.

Local Abbreviation hashPrompt := (Cache.hashPrompt sha256_hex).
Local Abbreviation set := (Cache.set sha256_hex file_size).
Local Abbreviation get := (Cache.get sha256_hex file_size).


End TimeToLive.


Section Calls.
Variable sha256_hex : string -> string.
Variable file_size : Data -> Z.

Local Abbreviation hashPrompt := (Cache.hashPrompt sha256_hex).
Local Abbreviation set := (Cache.set sha256_hex file_size).
Local Abbreviation get := (Cache.get sha256_hex file_size).

(** X10.  Under the FREE tier, on a store below the entry limit, [set]
    with a response of more than 10240 bytes of UTF-8 reports
    [limitExceeded], with the message that names both sizes in KB, and
    stores nothing.  Under a PRO license neither limit applies: [set] (with
    no TTL) stores the response whatever its size and whatever the number of
    entries. *)
Theorem response_size_limit (d : Data) (p r m : string)
    (options : Cache.SetOptions) (now : Z) :
  (totalEntries (stats d) < Limits.maxEntries ->
   Limits.maxResponseSize < Cache.byteLength r ->
   set p r m options now (json_world false d)
   = (Returned
        (Cache.LimitExceeded
           ("FREE version limited to 10KB responses (found "
              ++ Limits.show (Limits.round_kb (Cache.byteLength r)) ++ "KB)")),
      json_world false d))
  /\ (Cache.opt_ttl options = None ->
      exists isNew toks d',
        set p r m options now (json_world true d)
        = (Returned (Cache.Stored (hashPrompt p m) isNew toks),
           json_world true d')
        /\ option_map response (JsObj.get (hashPrompt p m) (entries d'))
           = Some r).
Proof.
  split.
  - intros Hcount Hsize. unfold Cache.set.
    cbn [Cache.getStorage Cache.cache json_world detectBackend createStorage
         backend_id String.eqb Ascii.eqb Bool.eqb Cache.storage_getStats
         JSONStorage.getStats JSONStorage.load JSONStorage.view stats
         Cache.isPro Cache.licensed].
    unfold Limits.canAddEntry.
    destruct (totalEntries (stats d) >=? Limits.maxEntries) eqn:E;
      [apply Z.geb_le in E; lia|].
    cbn [Limits.allowed negb]. unfold Limits.checkResponseSize.
    destruct (Cache.byteLength r >? Limits.maxResponseSize) eqn:E2;
      [|rewrite Z.gtb_ltb in E2; apply Z.ltb_ge in E2; lia].
    reflexivity.
  - intros Httl.
    pose proof (set_within_limits sha256_hex file_size true d p r m options
                  now eq_refl eq_refl (or_intror Httl)) as Hset.
    rewrite set_stored in Hset.
    eexists _, _, _. split; [exact Hset|]. cbn [stored entries].
    rewrite get_set_same. reflexivity.
Qed.

(** X12.  On every cache directory that is missing, or holds [cache.db],
    or whose [index.json] is missing, does not parse, or is a document (with
    its [entries] and [stats]), [get] returns and does not throw -- unlike
    [set] and [stats], which throw where the index cannot be read.  When it
    returns [null] it has either changed nothing, or it found the entry
    expired and deleted it. *)
Theorem get_returns_on_every_store (p m : string) (now : Z) (w : Cache.World) :
  exists r w',
    get p m now w = (Returned r, w')
    /\ (r = None ->
        w' = w
        \/ exists e,
             JSONStorage.get (hashPrompt p m) (Cache.cache w) = Some e
             /\ Js.date_lt (expires e) (Some now) = true
             /\ JSONStorage.get (hashPrompt p m) (Cache.cache w') = None).
Proof.
  destruct w as [pro [|[|] index]]; unfold Cache.get;
    cbn [Cache.getStorage Cache.cache detectBackend createStorage
         backend_id String.eqb Ascii.eqb Bool.eqb Cache.storage_get
         SQLiteStorage.get];
    try (eexists _, _; split; [reflexivity|]; intros _; left; reflexivity).
  unfold JSONStorage.get at 1.
  destruct index as [| |d]; cbn [JSONStorage.load];
    try (eexists _, _; split; [reflexivity|]; intros _; left; reflexivity).
  destruct (JsObj.get (hashPrompt p m) (entries d)) as [e|] eqn:G;
    [|eexists _, _; split; [reflexivity|]; intros _; left; reflexivity].
  destruct (Js.date_lt (expires e) (Some now)) eqn:Hexp.
  - eexists _, _. split; [reflexivity|]. intros _. right. exists e.
    unfold JSONStorage.get, Cache.storage_delete, JSONStorage.delete.
    cbn [JSONStorage.load Cache.cache]. rewrite G.
    cbn. split; [reflexivity|]. split; [exact Hexp|]. apply get_delete_same.
  - unfold Cache.storage_set, JSONStorage.set. cbn [JSONStorage.load].
    rewrite G. cbn.
    eexists _, _. split; [reflexivity|]. discriminate.
Qed.

(** X13.  On a missing directory [set] returns its own failure, 'Cache
    not initialized. Run: llmcache init', and [stats] returns [null].  On a
    directory that is there but holds no [index.json] that parses,
    [getStats()] is [null]: [set] and [stats] throw the [TypeError] of
    reading [totalEntries] of [null], and nothing is written.  On an
    initialized store neither throws that error. *)
Theorem set_needs_a_readable_index (p r m : string)
    (options : Cache.SetOptions) (now : Z) (pro : bool)
    (index : IndexFile) :
  let gone := {| Cache.licensed := pro; Cache.cache := NoDir |} in
  let w := {| Cache.licensed := pro; Cache.cache := Dir false index |} in
  set p r m options now gone
  = (Returned
       (Cache.NotInitialized "Cache not initialized. Run: llmcache init"),
     gone)
  /\ Cache.stats file_size gone = Returned None
  /\ match index with
     | Absent | Corrupt =>
         set p r m options now w = (Thrown Cache.null_stats, w)
         /\ Cache.stats file_size w = Thrown Cache.null_stats
     | Parsed _ =>
         fst (set p r m options now w) <> Thrown Cache.null_stats
         /\ Cache.stats file_size w <> Thrown Cache.null_stats
     end.
Proof.
  cbv zeta. split; [reflexivity|]. split; [reflexivity|].
  destruct index as [| |d]; [split; reflexivity|split; reflexivity|].
  split; [|discriminate].
  unfold Cache.set.
  cbn [Cache.getStorage Cache.cache detectBackend createStorage
       backend_id String.eqb Ascii.eqb Bool.eqb Cache.storage_getStats
       JSONStorage.getStats JSONStorage.load].
  destruct (negb _); [cbn; discriminate|].
  destruct (negb _); [cbn; discriminate|].
  cbv zeta.
  destruct (match
               match JSONStorage.truthy_string (Cache.opt_ttl options) with
               | Some ttl => if Cache.isPro _ then Cache.parseTTL ttl else None
               | None => None
               end
             with
             | Some 0 | None => Returned None
             | Some _ => _
             end) as [x|msg] eqn:E.
  - unfold Cache.storage_set. rewrite set_stored. cbn. discriminate.
  - assert (msg = "RangeError: Invalid time value"%string) as ->.
    { repeat match type of E with
             | context [match ?x with _ => _ end] => destruct x
             | context [if ?b then _ else _] => destruct b
             end; congruence. }
    cbn. discriminate.
Qed.



Lemma append_assoc (a b c : string) :
  ((a ++ b) ++ c = a ++ (b ++ c))%string.
Proof. induction a as [|x a IH]; simpl; [reflexivity|]. rewrite IH. reflexivity. Qed.

(** X15.  The key of a pair is the hash of [model + ':' + prompt], so
    the prompt [p] under the model [m1:m2] and the prompt [m2:p] under the
    model [m1] have the same key: after [set(p, r, 'm1:m2')] (within the
    limits), [get('m2:p', 'm1')] is a hit that returns [r], with the model
    [m1:m2]. *)
Theorem colon_in_the_model_name_confuses_pairs (pro : bool) (d : Data)
    (p r m1 m2 : string) (options : Cache.SetOptions) (now later : Z) :
  Limits.allowed (Limits.canAddEntry pro (totalEntries (stats d))) = true ->
  Limits.allowed (Limits.checkResponseSize pro (Cache.byteLength r)) = true ->
  pro = false \/ Cache.opt_ttl options = None ->
  hashPrompt p (m1 ++ ":" ++ m2) = hashPrompt (m2 ++ ":" ++ p) m1
  /\ exists isNew toks d1 d2 hit,
       set p r (m1 ++ ":" ++ m2) options now (json_world pro d)
       = (Returned (Cache.Stored (hashPrompt p (m1 ++ ":" ++ m2)) isNew toks),
          json_world pro d1)
       /\ get (m2 ++ ":" ++ p) m1 later (json_world pro d1)
          = (Returned (Some hit), json_world pro d2)
       /\ Cache.hit_response hit = r
       /\ Cache.hit_model hit = (m1 ++ ":" ++ m2)%string.
Proof.
  intros Hentries Hsize Httl.
  assert (Hh : hashPrompt p (m1 ++ ":" ++ m2) = hashPrompt (m2 ++ ":" ++ p) m1).
  { unfold Cache.hashPrompt. f_equal. f_equal.
    rewrite !append_assoc. reflexivity. }
  split; [exact Hh|].
  pose proof (set_within_limits sha256_hex file_size pro d p r
                (m1 ++ ":" ++ m2) options now Hentries Hsize Httl) as Hset.
  rewrite set_stored in Hset.
  set (e := entry_set pro p r (m1 ++ ":" ++ m2) options now) in *.
  set (d1 := stored _ e d) in *.
  assert (G1 : JsObj.get (hashPrompt (m2 ++ ":" ++ p) m1) (entries d1) = Some e).
  { rewrite <- Hh. apply get_set_same. }
  destruct (get_hit sha256_hex file_size pro d1 (m2 ++ ":" ++ p) m1 later e
              G1 eq_refl) as [d2 [Hget _]].
  eexists _, _, d1, d2, _. split; [exact Hset|]. split; [exact Hget|].
  split; reflexivity.
Qed.

(** X8.  [set] of a pair that is already cached (within the limits, no
    TTL in force) answers [isNew = false] and starts the entry anew: the
    stored response is the new one, [hits] is 0 again and [created] is now.
    No other entry changes, the keys keep their order, and the stats,
    [totalHits] included, stay as they were. *)
Theorem set_again_starts_the_entry_anew (pro : bool) (d : Data)
    (p r m : string) (options : Cache.SetOptions) (now : Z) (old : Entry) :
  JsObj.get (hashPrompt p m) (entries d) = Some old ->
  Limits.allowed (Limits.canAddEntry pro (totalEntries (stats d))) = true ->
  Limits.allowed (Limits.checkResponseSize pro (Cache.byteLength r)) = true ->
  pro = false \/ Cache.opt_ttl options = None ->
  exists toks d',
    set p r m options now (json_world pro d)
    = (Returned (Cache.Stored (hashPrompt p m) false toks), json_world pro d')
    /\ option_map response (JsObj.get (hashPrompt p m) (entries d')) = Some r
    /\ option_map hits (JsObj.get (hashPrompt p m) (entries d')) = Some 0
    /\ option_map created (JsObj.get (hashPrompt p m) (entries d'))
       = Some (Some now)
    /\ (forall h, h <> hashPrompt p m ->
                  JsObj.get h (entries d') = JsObj.get h (entries d))
    /\ JsObj.keys (entries d') = JsObj.keys (entries d)
    /\ stats d' = stats d.
Proof.
  intros G Hentries Hsize Httl.
  pose proof (set_within_limits sha256_hex file_size pro d p r m options now
                Hentries Hsize Httl) as Hset.
  rewrite set_stored in Hset.
  assert (Hhas : JSONStorage.has (hashPrompt p m) (entries d) = true).
  { unfold JSONStorage.has. rewrite G. reflexivity. }
  rewrite Hhas in Hset. cbn [negb] in Hset.
  eexists _, _. split; [exact Hset|]. cbn [stored entries stats].
  rewrite get_set_same, Hhas. repeat split.
  - intros h Hne. apply get_set_other. congruence.
  - apply (keys_set_old _ _ _ _ G).
Qed.
End Calls.

Lemma response_size_limit_witness :
  Cache.set plain_digest flat_size "What is 2+2?" (response_of 1025) "gpt-4"
    Cache.no_options 1000 (json_world false empty_store)
  = (Returned
       (Cache.LimitExceeded
          "FREE version limited to 10KB responses (found 10KB)"),
     json_world false empty_store).
Proof.
  refine (proj1 (response_size_limit plain_digest flat_size empty_store
                   "What is 2+2?" (response_of 1025) "gpt-4"
                   Cache.no_options 1000) _ _).
  - reflexivity.
  - reflexivity.
Defined.


Lemma colon_in_the_model_name_confuses_pairs_witness :
  Cache.hashPrompt plain_digest "p" "a:b"
  = Cache.hashPrompt plain_digest "b:p" "a".
Proof.
  exact (proj1 (colon_in_the_model_name_confuses_pairs plain_digest flat_size
                  false empty_store "p" "r" "a" "b" Cache.no_options 1000 2000
                  eq_refl eq_refl (or_introl eq_refl))).
Defined.

Lemma set_again_starts_the_entry_anew_witness :
  exists toks d',
    Cache.set plain_digest flat_size "What is 2+2?" "four" "gpt-4"
      Cache.no_options 1000 (json_world false one_entry_store)
    = (Returned (Cache.Stored "gpt-4:What i" false toks), json_world false d')
    /\ option_map hits (JsObj.get "gpt-4:What i" (entries d')) = Some 0.
Proof.
  destruct (set_again_starts_the_entry_anew plain_digest flat_size false
              one_entry_store "What is 2+2?" "four" "gpt-4" Cache.no_options
              1000 (sample_entry "What is 2+2?" "4" 0 5)
              eq_refl eq_refl eq_refl (or_introl eq_refl))
    as [toks [d' [Hset [_ [Hh _]]]]].
  exists toks, d'. split; [exact Hset|exact Hh].
Defined.

(** *** [stats] *)

Lemma reduce_older l x :
  dated (x :: l) ->
  exists t,
    Cache.created_of (fold_left Cache.older_of l x) = Some t
    /\ In (fold_left Cache.older_of l x) (x :: l)
    /\ forall y u, In y (x :: l) -> Cache.created_of y = Some u -> t <= u.
Proof.
  revert x. induction l as [|b l IH]; intros x Hd.
  - inversion Hd as [|? ? Hx _]; subst. simpl.
    destruct (Cache.created_of x) as [t|] eqn:E; [|congruence].
    exists t. repeat split; [left; reflexivity|].
    intros y u [<-|[]] Hu. rewrite E in Hu. injection Hu as <-. lia.
  - inversion Hd as [|? ? Hx Hd']; subst.
    inversion Hd' as [|? ? Hb Hl]; subst.
    cbn [fold_left].
    assert (Hd1 : dated (Cache.older_of x b :: l)).
    { constructor; [|exact Hl]. unfold Cache.older_of.
      destruct (Js.date_lt _ _); assumption. }
    destruct (IH _ Hd1) as [t [Ht [Hin Hmin]]].
    exists t. split; [exact Ht|]. split.
    + destruct Hin as [E|Hin].
      * rewrite <- E. unfold Cache.older_of.
        destruct (Js.date_lt _ _); [left; reflexivity|right; left; reflexivity].
      * right. right. exact Hin.
    + intros y u Hy Hu.
      unfold Cache.created_of in *.
      destruct (created (JSONStorage.entry x)) as [tx|] eqn:Ex; [|congruence].
      destruct (created (JSONStorage.entry b)) as [tb|] eqn:Eb; [|congruence].
      assert (Hxb : t <= tx /\ t <= tb).
      { unfold Cache.older_of in Hmin. rewrite Ex, Eb in Hmin.
        cbn [Js.date_lt] in Hmin.
        destruct (tx <? tb) eqn:E.
        - apply Z.ltb_lt in E.
          pose proof (Hmin x tx (or_introl eq_refl) Ex). lia.
        - apply Z.ltb_ge in E.
          pose proof (Hmin b tb (or_introl eq_refl) Eb). lia. }
      destruct Hy as [<-|[<-|Hy]].
      * rewrite Ex in Hu. injection Hu as <-. lia.
      * rewrite Eb in Hu. injection Hu as <-. lia.
      * apply (Hmin y u); [right; exact Hy|exact Hu].
Qed.

Lemma reduce_newer l x :
  dated (x :: l) ->
  exists t,
    Cache.created_of (fold_left Cache.newer_of l x) = Some t
    /\ In (fold_left Cache.newer_of l x) (x :: l)
    /\ forall y u, In y (x :: l) -> Cache.created_of y = Some u -> u <= t.
Proof.
  revert x. induction l as [|b l IH]; intros x Hd.
  - inversion Hd as [|? ? Hx _]; subst. simpl.
    destruct (Cache.created_of x) as [t|] eqn:E; [|congruence].
    exists t. repeat split; [left; reflexivity|].
    intros y u [<-|[]] Hu. rewrite E in Hu. injection Hu as <-. lia.
  - inversion Hd as [|? ? Hx Hd']; subst.
    inversion Hd' as [|? ? Hb Hl]; subst.
    cbn [fold_left].
    assert (Hd1 : dated (Cache.newer_of x b :: l)).
    { constructor; [|exact Hl]. unfold Cache.newer_of.
      destruct (Js.date_lt _ _); assumption. }
    destruct (IH _ Hd1) as [t [Ht [Hin Hmax]]].
    exists t. split; [exact Ht|]. split.
    + destruct Hin as [E|Hin].
      * rewrite <- E. unfold Cache.newer_of.
        destruct (Js.date_lt _ _); [left; reflexivity|right; left; reflexivity].
      * right. right. exact Hin.
    + intros y u Hy Hu.
      unfold Cache.created_of in *.
      destruct (created (JSONStorage.entry x)) as [tx|] eqn:Ex; [|congruence].
      destruct (created (JSONStorage.entry b)) as [tb|] eqn:Eb; [|congruence].
      assert (Hxb : tx <= t /\ tb <= t).
      { unfold Cache.newer_of in Hmax. rewrite Ex, Eb in Hmax.
        cbn [Js.date_lt] in Hmax.
        destruct (tb <? tx) eqn:E.
        - apply Z.ltb_lt in E.
          pose proof (Hmax x tx (or_introl eq_refl) Ex). lia.
        - apply Z.ltb_ge in E.
          pose proof (Hmax b tb (or_introl eq_refl) Eb). lia. }
      destruct Hy as [<-|[<-|Hy]].
      * rewrite Ex in Hu. injection Hu as <-. lia.
      * rewrite Eb in Hu. injection Hu as <-. lia.
      * apply (Hmax y u); [right; exact Hy|exact Hu].
Qed.

Lemma in_keys_get {V : Type} (o : JsObj.t V) k :
  In k (JsObj.keys o) <-> JsObj.get k o <> None.
Proof.
  split.
  - intros Hin H. exact (get_none_not_in _ _ H Hin).
  - intros H. destruct (JsObj.get k o) as [v|] eqn:G; [|congruence].
    apply get_in in G. apply (in_map fst) in G. exact G.
Qed.

(** Two objects that read alike have as many properties. *)
Lemma same_gets_same_size {V : Type} (o o' : JsObj.t V) :
  JsObj.wf o -> JsObj.wf o' ->
  (forall k, JsObj.get k o = JsObj.get k o') ->
  JsObj.size o = JsObj.size o'.
Proof.
  intros Hwf Hwf' Hg. rewrite !size_keys. f_equal.
  apply Permutation_length. apply NoDup_Permutation; try assumption.
  intros k. rewrite !in_keys_get, Hg. reflexivity.
Qed.

Section Reports.
Variable sha256_hex : string -> string.
Variable file_size : Data -> Z.
Variable open_database : CacheDir -> option string * CacheDir.

Local Abbreviation hashPrompt := (Cache.hashPrompt sha256_hex).
Local Abbreviation set := (Cache.set sha256_hex file_size).
Local Abbreviation get := (Cache.get sha256_hex file_size).

(** X16.  On an initialized JSON store [stats()] reports [entries =
    totalEntries], [totalHits], the size of the index file, and
    [tokensSaved], the integer nearest to [totalSaved / 4].  [oldestEntry]
    and [newestEntry] are [null] when there is no entry; when every entry
    has a [created] that is a date, they are the least and the greatest
    [created] among the entries. *)
Theorem stats_reports_the_store (pro : bool) (d : Data) :
  let listed := JSONStorage.list (Dir false (Parsed d)) in
  exists rep,
    Cache.stats file_size (json_world pro d) = Returned (Some rep)
    /\ Cache.rep_entries rep = totalEntries (stats d)
    /\ Cache.rep_totalHits rep = totalHits (stats d)
    /\ Cache.rep_cacheSize rep = file_size d
    /\ 4 * Cache.tokensSaved rep - 2 <= totalSaved (stats d)
       < 4 * Cache.tokensSaved rep + 2
    /\ (listed = [] ->
        Cache.oldestEntry rep = None /\ Cache.newestEntry rep = None)
    /\ (listed <> [] ->
        dated listed ->
        exists lo hi,
          Cache.oldestEntry rep = Some (Some lo)
          /\ Cache.newestEntry rep = Some (Some hi)
          /\ (exists x, In x listed /\ Cache.created_of x = Some lo)
          /\ (exists x, In x listed /\ Cache.created_of x = Some hi)
          /\ forall x t, In x listed -> Cache.created_of x = Some t ->
                         lo <= t <= hi).
Proof.
  cbv zeta. eexists. split; [reflexivity|].
  cbn [Cache.rep_entries Cache.rep_totalHits Cache.rep_cacheSize
       Cache.tokensSaved Cache.oldestEntry Cache.newestEntry
       JSONStorage.view JSONStorage.cacheSize Cache.cache json_world
       Cache.storage_list].
  repeat apply conj; try reflexivity.
  - unfold Cache.round_quarter.
    pose proof (Z.mul_div_le (totalSaved (stats d) + 2) 4 ltac:(lia)). lia.
  - unfold Cache.round_quarter.
    pose proof (Z.mul_succ_div_gt (totalSaved (stats d) + 2) 4 ltac:(lia)). lia.
  - intros ->. split; reflexivity.
  - intros Hne Hd.
    destruct (JSONStorage.list (Dir false (Parsed d))) as [|x l]; [congruence|].
    destruct (reduce_older l x Hd) as [lo [Hlo [Hinlo Hmin]]].
    destruct (reduce_newer l x Hd) as [hi [Hhi [Hinhi Hmax]]].
    exists lo, hi. cbn [Cache.reduce option_map]. rewrite Hlo, Hhi.
    repeat apply conj; try reflexivity.
    + eexists. split; [exact Hinlo|exact Hlo].
    + eexists. split; [exact Hinhi|exact Hhi].
    + intros y t Hy Ht. split; [apply (Hmin y t)|apply (Hmax y t)]; assumption.
Qed.

(** *** [init] *)

(** X17.  [init()] for the JSON backend (the default) on a missing
    directory creates the empty store and answers [{ success: true,
    backend: 'json' }].  On that store [stats()] reports zeros and neither
    an oldest nor a newest entry, every [get] misses, and another [init],
    for any backend, answers 'Cache already exists' and changes nothing. *)
Theorem init_creates_an_empty_store_once (pro : bool) (backend : option string)
    (now later : Z) :
  backend = None \/ backend = Some "json"%string ->
  let w1 := json_world pro (fresh_data now) in
  Cache.init open_database backend now (no_cache pro)
  = (Returned (Cache.Initialized "json"), w1)
  /\ (forall backend',
         Cache.init open_database backend' later w1
         = (Returned (Cache.AlreadyExists "Cache already exists"), w1))
  /\ Cache.stats file_size w1
     = Returned (Some {| Cache.rep_entries := 0; Cache.rep_totalHits := 0;
                         Cache.tokensSaved := 0;
                         Cache.rep_cacheSize := file_size (fresh_data now);
                         Cache.rep_costSaved := JsObj.empty;
                         Cache.oldestEntry := None;
                         Cache.newestEntry := None |})
  /\ (forall p m, get p m later w1 = (Returned None, w1)).
Proof.
  intros [-> | ->]; repeat split.
Qed.

(** X18.  [init] and the name of the backend, on a missing directory.
    Without a PRO license every backend other than ['json'] -- also a name
    that no backend has -- is refused as a PRO feature, and nothing is
    created.  With a license, ['redis'] throws 'Redis backend not yet
    implemented', and every name other than ['sqlite'] and ['redis'] creates
    a JSON store and is reported back as the backend. *)
Theorem init_and_the_backend_name (b : string) (now : Z) :
  b <> "json"%string ->
  Cache.init open_database (Some b) now (no_cache false)
  = (Returned (Cache.ProFeature (b ++ " backend is a PRO feature")),
     no_cache false)
  /\ Cache.init open_database (Some "redis"%string) now (no_cache true)
     = (Thrown "Redis backend not yet implemented", no_cache true)
  /\ (b <> "sqlite"%string -> b <> "redis"%string ->
      Cache.init open_database (Some b) now (no_cache true)
      = (Returned (Cache.Initialized b), json_world true (fresh_data now))).
Proof.
  intros Hb. apply String.eqb_neq in Hb. repeat split.
  - unfold Cache.init. cbn [no_cache Cache.cache backend_id Cache.isPro
                            Cache.licensed negb andb].
    rewrite Hb. reflexivity.
  - intros Hs Hr. apply String.eqb_neq in Hs, Hr.
    unfold Cache.init, createStorage.
    cbn [no_cache Cache.cache backend_id Cache.isPro Cache.licensed negb andb].
    rewrite Hb, Hs, Hr. reflexivity.
Qed.

(** *** [exportCache], [clear] and [importCache] *)

(** X19.  Backup and restore, for a store whose keys name no inherited
    property: [exportCache()] returns the document; [clear()] removes every
    entry, so that every [get] misses; and [importCache] of the exported
    document, under any strategy, brings every entry back: every key reads
    what it read before, and [imported] and [totalEntries] are the number of
    entries.  [totalHits] and [totalSaved] are not restored: they are 0. *)
Theorem export_clear_import_restores_the_entries (zone : Js.Zone)
    (pro : bool) (d : Data) (now : Z) (strategy : option string) :
  JsObj.wf (entries d) ->
  plain_keys (entries d) ->
  exists d0 d1,
    Cache.exportCache (json_world pro d) = Returned (Some d)
    /\ Cache.clear zone {| JSONStorage.olderThan := None |} now
         (json_world pro d)
       = (Returned
            (Cache.Cleared
               {| JSONStorage.clear_success := true;
                  JSONStorage.removed := JsObj.size (entries d) |}),
          json_world pro d0)
    /\ (forall p m, get p m now (json_world pro d0)
                    = (Returned None, json_world pro d0))
    /\ Cache.importCache (JSONStorage.snapshot_of d) strategy
         (json_world pro d0)
       = (Returned
            (Cache.Imported
               {| JSONStorage.import_success := true;
                  JSONStorage.imported := JsObj.size (entries d) |}),
          json_world pro d1)
    /\ (forall h, JsObj.get h (entries d1) = JsObj.get h (entries d))
    /\ totalEntries (stats d1) = JsObj.size (entries d)
    /\ totalHits (stats d1) = 0
    /\ totalSaved (stats d1) = 0.
Proof.
  intros Hwf _.
  set (s := match strategy with Some s => s | None => "merge"%string end).
  assert (Hfold : exists es,
             fold_left (JSONStorage.import_step s) (entries d) (JsObj.empty, 0)
             = (es, JsObj.size (entries d))
             /\ (forall h, JsObj.get h es = JsObj.get h (entries d))
             /\ JsObj.size es = JsObj.size (entries d)).
  { pose proof (import_fold_wf s (entries d) (JsObj.empty, 0) (NoDup_nil _))
      as Hwf'.
    assert (H : let r := fold_left (JSONStorage.import_step s) (entries d)
                           (JsObj.empty, 0) in
                (forall h, JsObj.get h (fst r) = JsObj.get h (entries d))
                /\ snd r = JsObj.size (entries d)).
    { destruct (String.eqb s "replace") eqn:E.
      - apply String.eqb_eq in E. rewrite E.
        destruct (import_fold_replace (entries d) Hwf JsObj.empty 0) as [Hg Hn].
        cbv zeta in Hg, Hn |- *. split; [|rewrite Hn; lia].
        intros h. rewrite Hg. destruct (JsObj.get h (entries d)); reflexivity.
      - apply String.eqb_neq in E.
        destruct (import_fold_keeps_existing s (entries d) E JsObj.empty 0 Hwf)
          as [Hg Hn].
        cbv zeta in Hg, Hn |- *. split; [exact Hg|]. rewrite Hn.
        unfold fresh_keys, JsObj.size.
        rewrite (filter_ext _ (fun _ => true)) by reflexivity.
        rewrite filter_true. lia. }
    cbv zeta in H. destruct (fold_left _ _ _) as [es n].
    cbn [fst snd] in *. destruct H as [Hg Hn]. subst n.
    exists es. split; [reflexivity|]. split; [exact Hg|].
    apply same_gets_same_size; assumption. }
  destruct Hfold as [es [Hfold [Hg Hsize]]].
  eexists _, _. split; [reflexivity|]. split; [reflexivity|].
  split; [reflexivity|]. split.
  - unfold Cache.importCache.
    cbn [Cache.getStorage Cache.cache json_world detectBackend createStorage
         backend_id String.eqb Ascii.eqb Bool.eqb].
    unfold JSONStorage.importData.
    cbn [JSONStorage.load JSONStorage.snapshot_of JSONStorage.snap_entries
         entries].
    fold s. unfold JsObj.entries. rewrite Hfold.
    cbn [JSONStorage.save Cache.with_cache Cache.licensed]. rewrite Hsize.
    reflexivity.
  - cbn. repeat apply conj; try reflexivity. exact Hg.
Qed.

End Reports.

Lemma init_creates_an_empty_store_once_witness :
  Cache.init no_database None 1000 (no_cache false)
  = (Returned (Cache.Initialized "json"), json_world false (fresh_data 1000)).
Proof.
  exact (proj1 (init_creates_an_empty_store_once plain_digest flat_size
                  no_database false None 1000 2000 (or_introl eq_refl))).
Defined.

Lemma init_and_the_backend_name_witness :
  Cache.init no_database (Some "sqlite"%string) 1000 (no_cache false)
  = (Returned (Cache.ProFeature "sqlite backend is a PRO feature"),
     no_cache false).
Proof.
  refine (proj1 (init_and_the_backend_name no_database "sqlite" 1000 _)).
  discriminate.
Defined.

Lemma export_clear_import_restores_the_entries_witness :
  exists d0 d1,
    Cache.clear utc {| JSONStorage.olderThan := None |} 1000
      (json_world false two_entries)
    = (Returned
         (Cache.Cleared {| JSONStorage.clear_success := true;
                           JSONStorage.removed := 2 |}),
       json_world false d0)
    /\ Cache.importCache (JSONStorage.snapshot_of two_entries) None
         (json_world false d0)
       = (Returned
            (Cache.Imported {| JSONStorage.import_success := true;
                               JSONStorage.imported := 2 |}),
          json_world false d1)
    /\ totalHits (stats d1) = 0.
Proof.
  assert (Hwf : JsObj.wf (entries two_entries)).
  { apply wf_by_computation. reflexivity. }
  assert (Hplain : plain_keys (entries two_entries)).
  { repeat constructor. }
  destruct (export_clear_import_restores_the_entries plain_digest flat_size
              utc false two_entries 1000 None Hwf Hplain)
    as [d0 [d1 [_ [Hc [_ [Hi [_ [_ [Hh _]]]]]]]]].
  exists d0, d1. split; [exact Hc|]. split; [exact Hi|exact Hh].
Defined.

(** *** A directory with [cache.db] *)

Section Marker.
Variable sha256_hex : string -> string.
Variable file_size : Data -> Z.

(** X14.  A directory that holds [cache.db] is given to the SQLite
    backend, whatever [index.json] holds, and [getStorage] never opens the
    database: through [cache.js], [get] returns [null], [set] and [stats]
    throw the [TypeError] of reading [totalEntries] of [null], [clear] fails
    with [removed = 0], [exportCache] returns [null], and [importCache]
    throws because the SQLite backend has no [importData].  None of them
    changes the directory. *)
Theorem cache_db_is_never_opened (zone : Js.Zone) (pro : bool)
    (index : IndexFile) (p r m : string) (options : Cache.SetOptions)
    (now : Z) (clearing : JSONStorage.ClearOptions)
    (data : JSONStorage.Snapshot) (strategy : option string) :
  let w := sqlite_world pro index in
  Cache.getStorage w = Returned (Some SQLiteStorageAt)
  /\ Cache.get sha256_hex file_size p m now w = (Returned None, w)
  /\ Cache.set sha256_hex file_size p r m options now w
     = (Thrown Cache.null_stats, w)
  /\ Cache.stats file_size w = Thrown Cache.null_stats
  /\ Cache.clear zone clearing now w
     = (Returned (Cache.Cleared {| JSONStorage.clear_success := false;
                                   JSONStorage.removed := 0 |}), w)
  /\ Cache.exportCache w = Returned None
  /\ Cache.importCache data strategy w
     = (Thrown "TypeError: storage.importData is not a function", w).
Proof. repeat split. Qed.
End Marker.

(** *** [getCachePath] *)

(** X20.  Once the directory that [init] creates for the options
    [global] and [customPath] exists, [getCachePath] with the same options
    finds it.  Before that, with neither option, no local [.llmcache] and a
    global cache, [getCachePath] is the global cache, while [init] would
    create the local one. *)
Theorem getCachePath_finds_what_init_made (resolve : string -> string)
    (GLOBAL_CACHE_DIR : string) (existsSync : string -> bool)
    (global : bool) (customPath : option string) :
  let made := Cache.init_cachePath resolve GLOBAL_CACHE_DIR global customPath in
  (existsSync made = true ->
   Cache.getCachePath resolve GLOBAL_CACHE_DIR existsSync global customPath
   = made)
  /\ (existsSync (resolve Cache.LOCAL_CACHE_DIR) = false ->
      existsSync GLOBAL_CACHE_DIR = true ->
      Cache.getCachePath resolve GLOBAL_CACHE_DIR existsSync false None
      = GLOBAL_CACHE_DIR
      /\ Cache.init_cachePath resolve GLOBAL_CACHE_DIR false None
         = resolve Cache.LOCAL_CACHE_DIR).
Proof.
  cbv zeta. unfold Cache.getCachePath, Cache.init_cachePath. split.
  - destruct (JSONStorage.truthy_string customPath); [reflexivity|].
    destruct global; [reflexivity|]. intros ->. reflexivity.
  - intros -> ->. split; reflexivity.
Qed.

Lemma getCachePath_finds_what_init_made_witness :
  Cache.getCachePath resolve_in_tmp "/home/u/.llmcache/cache"
    (only ["/tmp/.llmcache"; "/home/u/.llmcache/cache"]%string) false None
  = "/tmp/.llmcache"%string
  /\ Cache.getCachePath resolve_in_tmp "/home/u/.llmcache/cache"
       (only ["/home/u/.llmcache/cache"]%string) false None
     = "/home/u/.llmcache/cache"%string.
Proof.
  split.
  - exact (proj1 (getCachePath_finds_what_init_made resolve_in_tmp
                    "/home/u/.llmcache/cache"
                    (only ["/tmp/.llmcache"; "/home/u/.llmcache/cache"]%string)
                    false None) eq_refl).
  - exact (proj1 (proj2 (getCachePath_finds_what_init_made resolve_in_tmp
                           "/home/u/.llmcache/cache"
                           (only ["/home/u/.llmcache/cache"]%string)
                           false None) eq_refl eq_refl)).
Defined.

(** *** [parseTTL] *)

Lemma split_last_app s u :
  Cache.split_last (s ++ String u EmptyString) = Some (s, u).
Proof.
  induction s as [|c s IH]; [reflexivity|].
  cbn [append Cache.split_last]. rewrite IH.
  destruct (s ++ String u EmptyString)%string eqn:E; [|reflexivity].
  destruct s; discriminate.
Qed.

Lemma split_last_inv s front u :
  Cache.split_last s = Some (front, u) -> s = (front ++ String u EmptyString)%string.
Proof.
  revert front. induction s as [|c s IH]; intros front H; [discriminate|].
  cbn [Cache.split_last] in H. destruct s as [|c' s'].
  - injection H as <- <-. reflexivity.
  - destruct (Cache.split_last (String c' s')) as [[f l]|]; [|discriminate].
    injection H as <- <-. cbn [append]. f_equal. apply IH. reflexivity.
Qed.

Lemma is_digit_digit_in c :
  Cache.is_digit c = true ->
  exists v, Js.digit_in 10 c = Some v /\ 0 <= v <= 9
            /\ Js.is_space c = false
            /\ c <> "-"%char /\ c <> "+"%char /\ c <> "x"%char /\ c <> "X"%char.
Proof.
  destruct c as [[] [] [] [] [] [] [] []]; cbv; try discriminate; intros _;
    eexists; (split; [reflexivity|]);
    repeat split; try discriminate.
Qed.

Lemma digits_prefix_all_digits s :
  Cache.all_digits s = true ->
  forall a, 0 <= a ->
    exists v, Js.digits_prefix 10 s (Some a) = Some v /\ 0 <= v.
Proof.
  induction s as [|c s IH]; intros H a Ha.
  - exists a. split; [reflexivity|exact Ha].
  - cbn [Cache.all_digits] in H. apply andb_prop in H. destruct H as [Hc Hs].
    destruct (is_digit_digit_in c Hc) as [v [Hv [Hr _]]].
    cbn [Js.digits_prefix]. rewrite Hv. apply (IH Hs). lia.
Qed.

(** A text that starts with a digit has no white space at its start. *)
Lemma skip_spaces_digit c s :
  Cache.is_digit c = true -> Js.skip_spaces (String c s) = String c s.
Proof.
  intros Hc.
  destruct c as [[] [] [] [] [] [] [] []]; try discriminate Hc;
    (destruct s as [|b [|c s]]; [reflexivity|reflexivity|]);
    reflexivity.
Qed.

Lemma parseInt_all_digits s :
  Cache.all_digits s = true -> s <> ""%string ->
  Js.parseInt s = Js.digits_prefix 10 s None
  /\ exists v, Js.parseInt s = Some v /\ 0 <= v.
Proof.
  intros H Hne. destruct s as [|c s]; [congruence|].
  cbn [Cache.all_digits] in H. apply andb_prop in H. destruct H as [Hc Hs].
  destruct (is_digit_digit_in c Hc)
    as [v [Hv [Hr [Hsp [Hminus [Hplus [Hx HX]]]]]]].
  assert (E : Js.parseInt (String c s) = Js.digits_prefix 10 (String c s) None).
  { unfold Js.parseInt. rewrite (skip_spaces_digit c s Hc).
    destruct c as [[] [] [] [] [] [] [] []]; try discriminate Hc;
      try (destruct (Js.digits_prefix 10 _ None); reflexivity).
    (* the character is 0 *)
    destruct s as [|c' s']; [reflexivity|].
    cbn [Cache.all_digits] in Hs. apply andb_prop in Hs. destruct Hs as [Hc' _].
    destruct c' as [[] [] [] [] [] [] [] []]; try discriminate Hc';
      destruct (Js.digits_prefix 10 _ None); reflexivity. }
  split; [exact E|]. rewrite E. cbn [Js.digits_prefix]. rewrite Hv.
  apply (digits_prefix_all_digits s Hs). lia.
Qed.

(** X21.  Every TTL that [parseTTL] accepts (with a result that is a
    safe integer) is a non-empty run of decimal digits followed by one of
    the units [d], [h], [m] and [s]; the result is the number the digits
    denote times 86400000, 3600000, 60000 or 1000, and it is never
    negative. *)
Theorem parseTTL_accepts_digits_and_a_unit (ttl : string) (ms : Z) :
  Cache.parseTTL ttl = Some ms ->
  ms <= MAX_SAFE_INTEGER ->
  exists digits u each count,
    ttl = (digits ++ String u EmptyString)%string
    /\ Cache.all_digits digits = true
    /\ digits <> ""%string
    /\ unit_ms u = Some each
    /\ Js.parseInt digits = Some count
    /\ 0 <= count
    /\ ms = count * each
    /\ 0 <= ms.
Proof.
  unfold Cache.parseTTL. intros H _.
  destruct (Cache.split_last ttl) as [[digits u]|] eqn:Hsplit; [|discriminate].
  apply split_last_inv in Hsplit.
  destruct (Cache.all_digits digits) eqn:Hd; cbn [andb] in H; [|discriminate].
  destruct (String.eqb digits "") eqn:He; cbn [negb] in H; [discriminate|].
  apply String.eqb_neq in He.
  destruct (parseInt_all_digits digits Hd He) as [_ [v [Hv Hpos]]].
  rewrite Hv in H. unfold unit_ms.
  exists digits, u.
  destruct (Ascii.eqb u "d"); [|destruct (Ascii.eqb u "h");
    [|destruct (Ascii.eqb u "m"); [|destruct (Ascii.eqb u "s");
      [|discriminate]]]];
    injection H as <-; eexists _, v; repeat apply conj;
    try reflexivity; try assumption; lia.
Qed.

Lemma parseTTL_accepts_digits_and_a_unit_witness :
  exists digits u each count,
    "30m"%string = (digits ++ String u EmptyString)%string
    /\ Cache.all_digits digits = true
    /\ digits <> ""%string
    /\ unit_ms u = Some each
    /\ Js.parseInt digits = Some count
    /\ 0 <= count
    /\ 1800000 = count * each
    /\ 0 <= 1800000.
Proof.
  apply (parseTTL_accepts_digits_and_a_unit "30m" 1800000 eq_refl).
  vm_compute. discriminate.
Defined.

(** Reading a decimal numeral. *)
Lemma digits_prefix_uint d :
  forall acc,
    Js.digits_prefix 10 (NilEmpty.string_of_uint d) (Some (Zpos acc))
    = Some (Zpos (Pos.of_uint_acc d acc)).
Proof.
  induction d as [|d IH|d IH|d IH|d IH|d IH|d IH|d IH|d IH|d IH|d IH];
    intros acc; cbn [NilEmpty.string_of_uint Js.digits_prefix Pos.of_uint_acc];
    [reflexivity|..];
    match goal with
    | |- context [Js.digit_in 10 ?c] =>
        change (Js.digit_in 10 c) with (Some (Z.of_N (N_of_ascii c) - 48))
    end; cbn [N_of_ascii N_of_digits Z.of_N]; rewrite <- IH; f_equal; f_equal;
    lia.
Qed.

Lemma digits_prefix_uint_0 d :
  Js.digits_prefix 10 (NilEmpty.string_of_uint d) (Some 0)
  = Some (Z.of_N (Pos.of_uint d)).
Proof.
  induction d as [|d IH|d IH|d IH|d IH|d IH|d IH|d IH|d IH|d IH|d IH];
    cbn [NilEmpty.string_of_uint Js.digits_prefix Pos.of_uint];
    [reflexivity|exact IH|..];
    match goal with
    | |- context [Js.digit_in 10 ?c] =>
        change (Js.digit_in 10 c) with (Some (Z.of_N (N_of_ascii c) - 48))
    end; cbn [N_of_ascii N_of_digits Z.of_N];
    match goal with
    | |- Js.digits_prefix 10 _ (Some ?a) = _ =>
        let p := eval cbv in a in change a with p
    end; apply digits_prefix_uint.
Qed.

Lemma all_digits_uint d : Cache.all_digits (NilEmpty.string_of_uint d) = true.
Proof. induction d; simpl; auto. Qed.

Lemma digits_prefix_from_none s :
  Cache.all_digits s = true -> s <> ""%string ->
  Js.digits_prefix 10 s None = Js.digits_prefix 10 s (Some 0).
Proof.
  intros H Hne. destruct s as [|c s]; [congruence|].
  cbn [Cache.all_digits] in H. apply andb_prop in H. destruct H as [Hc _].
  destruct (is_digit_digit_in c Hc) as [v [Hv _]].
  cbn [Js.digits_prefix]. rewrite Hv. reflexivity.
Qed.

Lemma show_digits n :
  0 <= n ->
  Cache.all_digits (Limits.show n) = true
  /\ Limits.show n <> ""%string
  /\ Js.parseInt (Limits.show n) = Some n.
Proof.
  intros Hn. unfold Limits.show.
  destruct n as [|p|p]; [repeat split; discriminate| |lia].
  cbn [Z.to_int NilZero.string_of_int].
  assert (Hnil : Pos.to_uint p <> Decimal.Nil).
  { intros E. pose proof (DecimalPos.Unsigned.of_to p) as H. rewrite E in H. discriminate. }
  assert (Hs : NilZero.string_of_uint (Pos.to_uint p)
               = NilEmpty.string_of_uint (Pos.to_uint p)).
  { destruct (Pos.to_uint p); [congruence|reflexivity..]. }
  rewrite Hs.
  assert (Hne : NilEmpty.string_of_uint (Pos.to_uint p) <> ""%string).
  { destruct (Pos.to_uint p); [congruence|discriminate..]. }
  split; [apply all_digits_uint|]. split; [exact Hne|].
  destruct (parseInt_all_digits _ (all_digits_uint (Pos.to_uint p)) Hne)
    as [E _].
  rewrite E.
  rewrite (digits_prefix_from_none _ (all_digits_uint (Pos.to_uint p)) Hne).
  rewrite digits_prefix_uint_0, DecimalPos.Unsigned.of_to. reflexivity.
Qed.

(** X22.  [parseTTL] reads the decimal numeral of every count [n >= 0],
    followed by a unit, as [n] times the milliseconds of the unit (as long
    as that is a safe integer). *)
Theorem parseTTL_reads_a_count_and_a_unit (n each : Z) (u : ascii) :
  0 <= n ->
  unit_ms u = Some each ->
  n * each <= MAX_SAFE_INTEGER ->
  Cache.parseTTL (Limits.show n ++ String u EmptyString) = Some (n * each).
Proof.
  intros Hn Hu _. destruct (show_digits n Hn) as [Hd [Hne Hp]].
  unfold Cache.parseTTL. rewrite split_last_app, Hd.
  apply String.eqb_neq in Hne. rewrite Hne. cbn [andb negb]. rewrite Hp.
  unfold unit_ms in Hu.
  destruct (Ascii.eqb u "d"); [congruence|].
  destruct (Ascii.eqb u "h"); [congruence|].
  destruct (Ascii.eqb u "m"); [congruence|].
  destruct (Ascii.eqb u "s"); [congruence|discriminate].
Qed.

Lemma parseTTL_reads_a_count_and_a_unit_witness :
  Cache.parseTTL "90s" = Some 90000.
Proof.
  apply (parseTTL_reads_a_count_and_a_unit 90 1000 "s");
    [lia|reflexivity|vm_compute; discriminate].
Defined.

(** ** The limits and the license *)

(** *** [getLimitStatus] and [getRemainingEntries] *)

(** X23.  Under the FREE tier [canAddEntry] allows an entry exactly when
    [getRemainingEntries] is positive; the remaining count is never
    negative, and for a count between 0 and 50 it adds up with the count to
    the 50 that [getLimitStatus] reports as [maxEntries].  Under a PRO
    license [canAddEntry] always allows, [getRemainingEntries] is
    [Infinity] and the status is unlimited. *)
Theorem remaining_entries_agree_with_canAddEntry (currentCount : Z) :
  (Limits.allowed (Limits.canAddEntry false currentCount) = true
   <-> exists n, Limits.getRemainingEntries false currentCount = Limits.Finite n
                 /\ 0 < n)
  /\ (exists n, Limits.getRemainingEntries false currentCount = Limits.Finite n
                /\ 0 <= n
                /\ (0 <= currentCount <= Limits.maxEntries ->
                    currentCount + n = Limits.maxEntries))
  /\ Limits.status_maxEntries (Limits.getLimitStatus false (Some currentCount))
     = Some Limits.maxEntries
  /\ Limits.allowed (Limits.canAddEntry true currentCount) = true
  /\ Limits.getRemainingEntries true currentCount = Limits.Unlimited
  /\ Limits.unlimited (Limits.getLimitStatus true (Some currentCount)) = true.
Proof.
  unfold Limits.canAddEntry, Limits.getRemainingEntries, Limits.maxEntries.
  repeat apply conj; try reflexivity.
  - destruct (currentCount >=? 50) eqn:E; cbn [Limits.allowed].
    + discriminate.
    + intros _. rewrite Z.geb_leb in E. apply Z.leb_gt in E.
      eexists. split; [reflexivity|]. lia.
  - intros [n [Hn Hpos]].
    assert (Hmax : Z.max 0 (50 - currentCount) = n) by congruence.
    destruct (currentCount >=? 50) eqn:E; cbn [Limits.allowed]; [|reflexivity].
    apply Z.geb_le in E. exfalso. lia.
  - eexists. split; [reflexivity|]. split; lia.
Qed.

(** *** [activateLicense], [deactivateLicense] and [isPro] *)

Lemma split_on_dashless piece s :
  dashless s = true ->
  Checker.split_on "-" piece s = [(piece ++ s)%string].
Proof.
  revert piece. induction s as [|c s IH]; intros piece H; simpl.
  - f_equal. induction piece as [|x piece IHp]; simpl; congruence.
  - simpl in H. apply andb_prop in H. destruct H as [Hc Hs].
    apply negb_true_iff in Hc. rewrite Hc. rewrite (IH _ Hs).
    rewrite append_assoc. reflexivity.
Qed.

Lemma split_on_dash piece a s :
  dashless a = true ->
  Checker.split_on "-" piece (a ++ String "-" s)
  = (piece ++ a)%string :: Checker.split_on "-" EmptyString s.
Proof.
  revert piece. induction a as [|c a IH]; intros piece H; simpl.
  - f_equal. induction piece as [|x piece IHp]; simpl; congruence.
  - simpl in H. apply andb_prop in H. destruct H as [Hc Ha].
    apply negb_true_iff in Hc. rewrite Hc. rewrite (IH _ Ha).
    rewrite append_assoc. reflexivity.
Qed.

(** What [split('-')] gives puts the text together again, and no part has a
    dash. *)
Lemma split_on_spec s :
  forall piece,
    dashless piece = true ->
    exists first rest,
      Checker.split_on "-" piece s = first :: rest
      /\ (piece ++ s)%string = String.concat "-" (first :: rest)
      /\ Forall (fun x => dashless x = true) (first :: rest).
Proof.
  induction s as [|c s IH]; intros piece Hp.
  - exists piece, []. cbn [Checker.split_on String.concat].
    repeat split; [|repeat constructor; exact Hp].
    induction piece as [|x piece IHp]; simpl; [reflexivity|].
    simpl in Hp. apply andb_prop in Hp. destruct Hp as [_ Hp].
    rewrite IHp by exact Hp. reflexivity.
  - cbn [Checker.split_on]. destruct (Ascii.eqb c "-") eqn:E.
    + apply Ascii.eqb_eq in E. subst c.
      destruct (IH EmptyString eq_refl) as [f [r [Hsplit [Hcat Hall]]]].
      exists piece, (f :: r). rewrite Hsplit. repeat split.
      * cbn [append] in Hcat.
        change (String.concat "-" (piece :: f :: r))
          with (piece ++ "-" ++ String.concat "-" (f :: r))%string.
        rewrite <- Hcat. reflexivity.
      * constructor; assumption.
    + assert (Hp' : dashless (piece ++ String c EmptyString) = true).
      { clear IH. induction piece as [|x piece IHp]; simpl.
        - rewrite E. reflexivity.
        - simpl in Hp. apply andb_prop in Hp. destruct Hp as [Hx Hp].
          rewrite Hx. apply IHp, Hp. }
      destruct (IH _ Hp') as [f [r [Hsplit [Hcat Hall]]]].
      exists f, r. rewrite Hsplit. repeat split; [|exact Hall].
      rewrite <- Hcat. rewrite append_assoc. reflexivity.
Qed.

Lemma prefix_cons a s1 b s2 :
  String.prefix (String a s1) (String b s2)
  = Ascii.eqb a b && String.prefix s1 s2.
Proof.
  cbn [String.prefix]. destruct (ascii_dec a b) as [->|Hne].
  - rewrite Ascii.eqb_refl. reflexivity.
  - apply Ascii.eqb_neq in Hne. rewrite Hne. reflexivity.
Qed.

Lemma prefix_LMC p0 rest :
  dashless p0 = true ->
  String.prefix "LMC-" (p0 ++ String "-" rest) = true ->
  p0 = "LMC"%string.
Proof.
  intros Hd Hp.
  destruct p0 as [|c0 p0]; [discriminate Hp|].
  cbn [append] in Hp. rewrite prefix_cons in Hp.
  apply andb_prop in Hp. destruct Hp as [E Hp]. apply Ascii.eqb_eq in E.
  subst c0.
  destruct p0 as [|c1 p0]; [discriminate Hp|].
  cbn [append] in Hp. rewrite prefix_cons in Hp.
  apply andb_prop in Hp. destruct Hp as [E Hp]. apply Ascii.eqb_eq in E.
  subst c1.
  destruct p0 as [|c2 p0]; [discriminate Hp|].
  cbn [append] in Hp. rewrite prefix_cons in Hp.
  apply andb_prop in Hp. destruct Hp as [E Hp]. apply Ascii.eqb_eq in E.
  subst c2.
  destruct p0 as [|c3 p0]; [reflexivity|].
  cbn [append] in Hp. rewrite prefix_cons in Hp.
  apply andb_prop in Hp. destruct Hp as [E Hp]. apply Ascii.eqb_eq in E.
  subst c3. discriminate Hd.
Qed.

Lemma prefix_license_key a b c x :
  String.prefix "LMC-" (license_key a b c x) = true.
Proof.
  unfold license_key. cbn [append]. rewrite !prefix_cons. cbn.
  destruct (_ ++ _)%string; reflexivity.
Qed.

Lemma split_license_key a b c x :
  dashless a = true -> dashless b = true -> dashless c = true ->
  dashless x = true ->
  Checker.split_on "-" EmptyString (license_key a b c x)
  = ["LMC"%string; a; b; c; x].
Proof.
  intros Ha Hb Hc Hx. unfold license_key.
  change ("LMC-" ++ a ++ "-" ++ b ++ "-" ++ c ++ "-" ++ x)%string
    with ("LMC" ++ String "-" (a ++ String "-" (b ++ String "-"
            (c ++ String "-" x))))%string.
  rewrite (split_on_dash "" "LMC") by reflexivity.
  rewrite (split_on_dash "" a) by exact Ha.
  rewrite (split_on_dash "" b) by exact Hb.
  rewrite (split_on_dash "" c) by exact Hc.
  rewrite (split_on_dashless "" x) by exact Hx.
  reflexivity.
Qed.

Section License.
Variable md5_hex : string -> string.
Variable hostname : string.

Local Abbreviation activateLicense := (Checker.activateLicense md5_hex hostname).

(** X24.  [activateLicense] succeeds exactly on the keys [LMC-a-b-c-x]
    of five parts separated by dashes whose last part is the check of the
    first four: the first four hexadecimal digits, in upper case, of the MD5
    digest of [LMC-a-b-c].  The parts may have any length. *)
Theorem activateLicense_accepts_checked_keys (key : option string) (now : Z)
    (f : Checker.LicenseFile) :
  Checker.act_success (fst (activateLicense key now f)) = true
  <-> exists a b c x,
        key = Some (license_key a b c x)
        /\ dashless a && dashless b && dashless c && dashless x = true
        /\ x = Checker.expectedChecksum md5_hex
                 ("LMC-" ++ a ++ "-" ++ b ++ "-" ++ c).
Proof.
  split.
  - unfold Checker.activateLicense.
    destruct (JSONStorage.truthy_string key) as [k|] eqn:Hk; [|discriminate].
    assert (key = Some k) as ->.
    { destruct key as [[|? ?]|]; simpl in Hk; congruence. }
    destruct (String.prefix "LMC-" k) eqn:Hpre; cbn [negb]; [|discriminate].
    destruct (split_on_spec k EmptyString eq_refl)
      as [p0 [rest [Hsplit [Hcat Hall]]]].
    cbn [append] in Hcat. rewrite Hsplit.
    destruct rest as [|p1 [|p2 [|p3 [|p4 [|p5 rest]]]]];
      cbn [List.length Nat.eqb negb]; try discriminate.
    cbn [firstn nth].
    destruct (String.eqb p4 _) eqn:Hsum; cbn [negb]; [|discriminate].
    intros _. apply String.eqb_eq in Hsum.
    rewrite !Forall_cons_iff in Hall.
    destruct Hall as [H0 [H1 [H2 [H3 [H4 _]]]]].
    cbn [String.concat] in *.
    assert (p0 = "LMC"%string) as ->.
    { apply (prefix_LMC p0 (p1 ++ "-" ++ p2 ++ "-" ++ p3 ++ "-" ++ p4));
        [exact H0|]. rewrite Hcat in Hpre. exact Hpre. }
    exists p1, p2, p3, p4. split; [rewrite Hcat; reflexivity|].
    rewrite H1, H2, H3, H4. split; [reflexivity|].
    rewrite Hsum at 1. reflexivity.
  - intros [a [b [c [x [-> [Hd Hx]]]]]].
    apply andb_prop in Hd. destruct Hd as [Hd Hdx].
    apply andb_prop in Hd. destruct Hd as [Hd Hdc].
    apply andb_prop in Hd. destruct Hd as [Hda Hdb].
    unfold Checker.activateLicense.
    assert (Ht : JSONStorage.truthy_string (Some (license_key a b c x))
                 = Some (license_key a b c x)) by reflexivity.
    rewrite Ht, prefix_license_key.
    rewrite split_license_key by assumption.
    cbn [List.length Nat.eqb negb firstn nth].
    assert (Hsum : String.eqb x
                     (Checker.expectedChecksum md5_hex
                        (String.concat "-" ["LMC"%string; a; b; c]))
                   = true).
    { apply String.eqb_eq. exact Hx. }
    rewrite Hsum. reflexivity.
Qed.

(** X25.  After a successful [activateLicense(key)], [isPro()] holds at
    every later instant and [getLicense()] gives the key; an activation that
    fails leaves the license file as it was.  After [deactivateLicense()]
    [isPro()] is false, and a second [deactivateLicense()] fails with 'No
    active license found'. *)
Theorem license_life_cycle (key : option string) (now later : Z)
    (f : Checker.LicenseFile) :
  let r := activateLicense key now f in
  (Checker.act_success (fst r) = true ->
   Checker.isPro later (snd r) = true
   /\ option_map Checker.key (Checker.getLicense later (snd r)) = Some key)
  /\ (Checker.act_success (fst r) = false -> snd r = f)
  /\ Checker.isPro later (snd (Checker.deactivateLicense (snd r))) = false
  /\ fst (Checker.deactivateLicense (snd (Checker.deactivateLicense f)))
     = Checker.NotActive "No active license found".
Proof.
  cbv zeta. unfold Checker.activateLicense.
  destruct (JSONStorage.truthy_string key) as [k|] eqn:Hk.
  - assert (key = Some k) as ->.
    { destruct key as [[|? ?]|]; simpl in Hk; congruence. }
    destruct (String.prefix "LMC-" k) eqn:Hpre; cbn [negb].
    + destruct (negb (Nat.eqb _ 5)).
      * cbn. repeat apply conj; try discriminate; try reflexivity;
          destruct f; reflexivity.
      * destruct (negb (String.eqb _ _)).
        -- cbn. repeat apply conj; try discriminate; try reflexivity;
             destruct f; reflexivity.
        -- cbn [fst snd Checker.act_success].
           repeat apply conj; try discriminate; try reflexivity;
             try (destruct f; reflexivity).
           intros _. unfold Checker.isPro, Checker.getLicense.
           cbn [Checker.key Checker.expiresAt]. rewrite Hpre.
           destruct k as [|c k]; [discriminate Hk|]. cbn. split; reflexivity.
    + cbn. repeat apply conj; try discriminate; try reflexivity;
        destruct f; reflexivity.
  - cbn. repeat apply conj; try discriminate; try reflexivity;
      destruct f; reflexivity.
Qed.
End License.

Lemma activateLicense_accepts_checked_keys_witness :
  Checker.act_success
    (fst (Checker.activateLicense constant_digest "host" (Some sample_key) 0
            Checker.NoLicense)) = true.
Proof.
  apply (proj2 (activateLicense_accepts_checked_keys constant_digest "host"
                  (Some sample_key) 0 Checker.NoLicense)).
  exists "AAAA"%string, "BBBB"%string, "CCCC"%string, "0123"%string.
  repeat split.
Defined.

(** ** The similarity engine, further *)

(** *** [tokenize] *)

Lemma chars_app a b : chars (a ++ b) = chars a ++ chars b.
Proof. induction a as [|c a IH]; simpl; [reflexivity|]. unfold chars in *. simpl. rewrite IH. reflexivity. Qed.

Lemma split_spaces_pieces (P : ascii -> Prop) s :
  forall in_gap piece,
    Forall P (chars piece) ->
    Forall (fun c => Js.is_space c = true \/ P c) (chars s) ->
    Forall (fun t => Forall P (chars t))
           (Similarity.split_spaces in_gap piece s).
Proof.
  induction s as [|c s IH]; intros in_gap piece Hp Hs.
  - repeat constructor. exact Hp.
  - inversion Hs as [|? ? Hc Hs']; subst.
    cbn [Similarity.split_spaces].
    destruct (Js.is_space c) eqn:E.
    + destruct in_gap.
      * apply IH; [constructor|exact Hs'].
      * constructor; [exact Hp|]. apply IH; [constructor|exact Hs'].
    + apply IH; [|exact Hs'].
      rewrite chars_app. apply Forall_app. split; [exact Hp|].
      repeat constructor. destruct Hc as [Hc|Hc]; [congruence|exact Hc].
Qed.

Lemma blank_lower_char c :
  let c' := Similarity.blank_punctuation (Similarity.lower c) in
  Js.is_space c' = true \/ token_char c' = true.
Proof.
  destruct c as [[] [] [] [] [] [] [] []]; vm_compute; auto.
Qed.

(** After [toLowerCase] and the blanking, the text is made of blanks and of
    the characters of tokens. *)
Lemma blank_lower_chars n :
  forall s,
    (String.length s <= n)%nat ->
    Forall (fun c => Js.is_space (Similarity.blank_punctuation c) = true
                     \/ token_char (Similarity.blank_punctuation c) = true)
           (chars (Similarity.toLowerCase s)).
Proof.
  induction n as [|n IH]; intros s Hlen.
  - destruct s; [constructor|simpl in Hlen; lia].
  - destruct s as [|a [|b s2]].
    + constructor.
    + constructor; [apply blank_lower_char|constructor].
    + cbn [Similarity.toLowerCase].
      destruct ((Similarity.code a =? 196) && (Similarity.code b =? 176))%N.
      * constructor; [right; reflexivity|].
        constructor; [left; reflexivity|].
        constructor; [left; reflexivity|].
        apply IH. simpl in Hlen. lia.
      * destruct s2 as [|c s3].
        -- constructor; [apply blank_lower_char|].
           apply (IH (String b EmptyString)). simpl in Hlen |- *. lia.
        -- destruct ((Similarity.code a =? 226) && (Similarity.code b =? 132)
                     && (Similarity.code c =? 170))%N.
           ++ constructor; [right; reflexivity|].
              apply IH. simpl in Hlen. lia.
           ++ constructor; [apply blank_lower_char|].
              apply (IH (String b (String c s3))). simpl in Hlen |- *. lia.
Qed.

Lemma chars_map_string f s :
  chars (Similarity.map_string f s) = map f (chars s).
Proof. induction s as [|c s IH]; simpl; [reflexivity|]. unfold chars in *. simpl. rewrite IH. reflexivity. Qed.

(** X26.  Every token that [tokenize] returns has at least 3
    characters, each of them a lower-case letter, a digit or an
    underscore. *)
Theorem tokens_are_lower_case_words (text t : string) :
  In t (Similarity.tokenize text) ->
  (3 <= String.length t)%nat
  /\ Forall (fun c => token_char c = true) (chars t).
Proof.
  unfold Similarity.tokenize. intros H. apply filter_In in H.
  destruct H as [Hin Hlen]. split.
  - apply Nat.ltb_lt in Hlen. lia.
  - clear Hlen. revert t Hin. apply Forall_forall.
    apply split_spaces_pieces; [constructor|].
    rewrite chars_map_string. apply Forall_map.
    apply (blank_lower_chars (String.length text)). apply le_n.
Qed.

Lemma tokens_are_lower_case_words_witness :
  (3 <= String.length "world")%nat
  /\ Forall (fun c => token_char c = true) (chars "world").
Proof.
  apply (tokens_are_lower_case_words "Hello, World! x" "world").
  vm_compute. auto.
Defined.

(** *** [termFrequency] and [tfidfVector] *)

Lemma in_keys_set {V : Type} k k' (v : V) (o : JsObj.t V) :
  In k (JsObj.keys (JsObj.set k' v o)) <-> k = k' \/ In k (JsObj.keys o).
Proof.
  destruct (JsObj.get k' o) as [v'|] eqn:G.
  - rewrite (keys_set_old _ _ _ _ G). split; [auto|].
    intros [->|H]; [|exact H]. apply in_keys_get. congruence.
  - pose proof (keys_set_new k' v o G) as Hp. split.
    + intros H. apply (Permutation_in _ Hp) in H. destruct H; auto.
    + intros H. apply (Permutation_in _ (Permutation_sym Hp)).
      destruct H as [->|H]; [left; reflexivity|right; exact H].
Qed.

Lemma count_token_keys tf token k :
  In k (JsObj.keys (Similarity.count_token tf token))
  <-> In k (JsObj.keys tf) \/ (k = token /\ token <> "__proto__"%string).
Proof.
  unfold Similarity.count_token.
  destruct (String.eqb token "__proto__") eqn:E.
  - apply String.eqb_eq in E. tauto.
  - apply String.eqb_neq in E.
    destruct (JsObj.inherited token); rewrite in_keys_set; tauto.
Qed.

Lemma count_token_wf tf token :
  JsObj.wf tf -> JsObj.wf (Similarity.count_token tf token).
Proof.
  unfold Similarity.count_token. intros H.
  destruct (String.eqb token "__proto__"); [exact H|].
  destruct (JsObj.inherited token); apply wf_set, H.
Qed.

Lemma count_tokens_keys tokens :
  forall tf k,
    In k (JsObj.keys (fold_left Similarity.count_token tokens tf))
    <-> In k (JsObj.keys tf) \/ (In k tokens /\ k <> "__proto__"%string).
Proof.
  induction tokens as [|t tokens IH]; intros tf k; cbn [fold_left].
  - simpl. tauto.
  - rewrite IH, count_token_keys. simpl. split.
    + intros [[H|[-> H]]|[H1 H2]]; auto.
    + intros [H|[[<-|H1] H2]]; auto.
Qed.

Lemma count_tokens_wf tokens :
  forall tf, JsObj.wf tf ->
             JsObj.wf (fold_left Similarity.count_token tokens tf).
Proof.
  induction tokens as [|t tokens IH]; intros tf H; cbn [fold_left];
    [exact H|]. apply IH, count_token_wf, H.
Qed.

Lemma keys_map_values f o :
  JsObj.keys (Similarity.map_values f o) = JsObj.keys o.
Proof.
  unfold Similarity.map_values, JsObj.keys. rewrite map_map. reflexivity.
Qed.

(** X27.  The TF-IDF vector of a list of tokens has the keys of its term
    frequencies: every distinct token once, and nothing else.  [__proto__]
    is the one token that gets no key. *)
Theorem vector_keys_are_the_tokens (tokens : list string)
    (idf : JsObj.t float) :
  let v := Similarity.tfidfVector (Similarity.termFrequency tokens) idf in
  JsObj.keys v = JsObj.keys (Similarity.termFrequency tokens)
  /\ NoDup (JsObj.keys v)
  /\ forall k, In k (JsObj.keys v)
               <-> In k tokens /\ k <> "__proto__"%string.
Proof.
  cbv zeta.
  assert (Hk : JsObj.keys (Similarity.tfidfVector
                             (Similarity.termFrequency tokens) idf)
               = JsObj.keys (Similarity.termFrequency tokens)).
  { unfold Similarity.tfidfVector, JsObj.keys. rewrite map_map. reflexivity. }
  rewrite Hk. unfold Similarity.termFrequency. rewrite keys_map_values.
  split; [reflexivity|]. split.
  - apply count_tokens_wf. constructor.
  - intros k. rewrite count_tokens_keys. simpl. tauto.
Qed.

(** *** [cosineSimilarity] of vectors with no common key *)

Lemma Prim2SF_inj x y : Prim2SF x = Prim2SF y -> x = y.
Proof.
  intros H. rewrite <- (SF2Prim_Prim2SF x), <- (SF2Prim_Prim2SF y), H.
  reflexivity.
Qed.

Lemma SFmul_zero x y :
  sf_finite_nonneg x -> sf_finite_nonneg y ->
  x = S754_zero false \/ y = S754_zero false ->
  exists s, SFmul prec emax x y = S754_zero s.
Proof.
  intros Hx Hy [-> | ->].
  - destruct y as [sy|sy| |sy my ey]; simpl in *; try tauto; eexists;
      reflexivity.
  - destruct x as [sx|sx| |sx mx ex]; simpl in *; try tauto; eexists;
      reflexivity.
Qed.

Lemma SFadd_zero s : SFadd prec emax (S754_zero false) (S754_zero s)
                     = S754_zero false.
Proof. destruct s; reflexivity. Qed.

Lemma dot_of_orthogonal (v1 v2 : JsObj.t float) :
  Forall (fun key => nonneg_finite (Similarity.number_at v1 key)
                     && nonneg_finite (Similarity.number_at v2 key) = true)
         (allKeys v1 v2) ->
  Forall (fun key => Similarity.number_at v1 key = 0%float
                     \/ Similarity.number_at v2 key = 0%float)
         (allKeys v1 v2) ->
  Similarity.dotProduct (Similarity.sums v1 v2) = 0%float.
Proof.
  unfold Similarity.sums, allKeys.
  generalize (Similarity.distinct [] (JsObj.keys v1 ++ JsObj.keys v2)).
  intros keys Hk Ho.
  assert (H : forall acc,
             Similarity.dotProduct acc = 0%float ->
             Similarity.dotProduct
               (fold_left (Similarity.accumulate v1 v2) keys acc) = 0%float).
  { induction keys as [|k keys IH]; intros acc Hacc; [exact Hacc|].
    inversion Hk as [|? ? Hk1 Hk']; subst.
    inversion Ho as [|? ? Ho1 Ho']; subst.
    cbn [fold_left]. apply (IH Hk' Ho').
    cbn [Similarity.accumulate Similarity.dotProduct]. rewrite Hacc.
    apply andb_prop in Hk1. destruct Hk1 as [H1 H2].
    apply nonneg_finite_spec in H1, H2.
    apply Prim2SF_inj. rewrite add_spec, mul_spec, Prim2SF_zero.
    assert (Hz : Prim2SF (Similarity.number_at v1 k) = S754_zero false
                 \/ Prim2SF (Similarity.number_at v2 k) = S754_zero false).
    { destruct Ho1 as [E|E]; rewrite E, Prim2SF_zero; auto. }
    destruct (SFmul_zero _ _ H1 H2 Hz) as [s Hs].
    unfold SF64add, SF64mul. rewrite Hs. apply SFadd_zero. }
  apply H. reflexivity.
Qed.

Lemma sf_root_nonneg x : sf_root x -> sf_nonneg x.
Proof. destruct x as [s|s| |s m e]; simpl; auto. destruct s; auto. Qed.

Lemma SFmul_roots_nonneg x y :
  sf_root x -> sf_root y -> sf_nonneg (SFmul prec emax x y).
Proof.
  destruct x as [sx|sx| |sx mx ex], y as [sy|sy| |sy my ey]; simpl;
    try tauto; try (destruct sx; tauto); try (destruct sy; tauto);
    try (destruct sx, sy; tauto).
  destruct sx, sy; try tauto. intros _ _.
  apply binary_round_aux_nonneg. lia.
Qed.

(** The vectors read zero, one or the other, at every key of the two. *)
Lemma reads_orthogonal (v1 v2 : JsObj.t float) :
  plain_keys v1 -> plain_keys v2 -> orthogonal v1 v2 ->
  Forall (fun key => Similarity.number_at v1 key = 0%float
                     \/ Similarity.number_at v2 key = 0%float)
         (allKeys v1 v2).
Proof.
  intros Hp1 Hp2 Ho. apply Forall_forall. intros k Hk.
  pose proof (allKeys_plain v1 v2 k Hp1 Hp2 Hk) as Hplain.
  unfold plain_key in Hplain. unfold Similarity.number_at. rewrite Hplain.
  destruct (JsObj.get k v1) as [x|] eqn:G1; [|left; reflexivity].
  destruct (JsObj.get k v2) as [y|] eqn:G2; [|right; reflexivity].
  unfold Similarity.or_zero.
  destruct (Ho k x y G1 G2) as [Hz|Hz]; [left|right];
    rewrite Hz, orb_true_r; reflexivity.
Qed.

(** X28.  Two vectors whose keys name no property of [Object.prototype],
    with non-negative, finite entries and no key at which both have a
    non-zero entry, have the cosine similarity exactly 0. *)
Theorem cosineSimilarity_of_orthogonal_vectors (v1 v2 : JsObj.t float) :
  plain_keys v1 -> plain_keys v2 ->
  nonneg_entries v1 -> nonneg_entries v2 ->
  orthogonal v1 v2 ->
  Similarity.cosineSimilarity v1 v2 = 0%float.
Proof.
  intros Hp1 Hp2 Hn1 Hn2 Ho.
  pose proof (reads_nonneg v1 v2 Hp1 Hp2 Hn1 Hn2) as Hentries.
  unfold Similarity.cosineSimilarity.
  destruct (squares_nonneg v1 v2 Hentries) as [Hs1 Hs2].
  rewrite (dot_of_orthogonal v1 v2 Hentries
             (reads_orthogonal v1 v2 Hp1 Hp2 Ho)).
  set (s := Similarity.sums v1 v2) in *.
  destruct (PrimFloat.sqrt (Similarity.mag1 s) =? 0)%float eqn:E1;
    [reflexivity|].
  destruct (PrimFloat.sqrt (Similarity.mag2 s) =? 0)%float eqn:E2;
    [reflexivity|].
  cbn [orb].
  pose proof (sqrt_root _ Hs1 E1) as Hr1.
  pose proof (sqrt_root _ Hs2 E2) as Hr2.
  pose proof (SFmul_roots _ _ Hr1 Hr2) as Hp.
  pose proof (SFmul_roots_nonneg _ _ Hr1 Hr2) as Hn.
  apply Prim2SF_inj. rewrite div_spec, mul_spec, Prim2SF_zero.
  unfold SF64div, SF64mul.
  destruct (SFmul prec emax _ _) as [sy|sy| |sy my ey]; simpl in *;
    try tauto; destruct sy; tauto || reflexivity.
Qed.

Lemma cosineSimilarity_of_orthogonal_vectors_witness :
  Similarity.cosineSimilarity only_a only_b = 0%float.
Proof.
  apply cosineSimilarity_of_orthogonal_vectors.
  - repeat constructor.
  - repeat constructor.
  - repeat constructor.
  - repeat constructor.
  - intros k x y Ha Hb. cbn in Ha, Hb.
    destruct (String.eqb k "a") eqn:Ea; [|discriminate Ha].
    apply String.eqb_eq in Ea. subst k. discriminate Hb.
Defined.

(** *** [findSimilar]: [total] and the limit *)

Section Total.
Variable Math_log : float -> float.

Lemma length_collected th query listed all :
  List.length (flat_map (Similarity.candidate Math_log th query all) listed)
  = List.length (filter (Similarity.retained Math_log th query all) listed).
Proof.
  induction listed as [|e listed IH]; simpl; [reflexivity|].
  unfold Similarity.candidate at 1.
  destruct (Similarity.retained Math_log th query all e); simpl;
    rewrite IH; reflexivity.
Qed.

(** X29.  For a PRO user and a store that is not empty, [total] is the
    number of entries whose unrounded similarity meets the threshold,
    whatever the limit; [results] has [min(limit, total)] elements for a
    limit that is not negative and [max(0, total + limit)] for a negative
    one. *)
Theorem findSimilar_counts_before_it_cuts (query : string)
    (listed : list JSONStorage.Listed) (options : Similarity.Options) :
  listed <> [] ->
  let r := Similarity.findSimilar Math_log true query listed options in
  let lim := Similarity.limit_of options in
  let matching :=
    Z.of_nat (List.length
                (filter (Similarity.retained Math_log
                           (Similarity.threshold_of options) query listed)
                        listed)) in
  Similarity.total r = Some matching
  /\ Z.of_nat (List.length (Similarity.results r))
     = if lim <? 0 then Z.max 0 (matching + lim) else Z.min lim matching.
Proof.
  intros Hne. cbv zeta. unfold Similarity.findSimilar. cbn [negb].
  destruct listed as [|e0 listed']; [congruence|].
  set (all := e0 :: listed').
  cbn [Similarity.total Similarity.results].
  rewrite <- (length_collected _ _ all all).
  fold (Similarity.collected Math_log (Similarity.threshold_of options) query
          all).
  set (kept := Similarity.collected Math_log
                 (Similarity.threshold_of options) query all).
  rewrite (Permutation_length (sort_perm kept)).
  split; [reflexivity|].
  unfold Similarity.slice0. rewrite (Permutation_length (sort_perm kept)).
  destruct (Similarity.limit_of options <? 0) eqn:E.
  - rewrite length_firstn, (Permutation_length (sort_perm kept)). lia.
  - apply Z.ltb_ge in E.
    rewrite length_firstn, (Permutation_length (sort_perm kept)). lia.
Qed.
End Total.

Lemma findSimilar_counts_before_it_cuts_witness :
  Similarity.total
    (Similarity.findSimilar log_table true "python tutorial" three_prompts
       {| Similarity.threshold := None; Similarity.limit := Some 1 |})
  = Some 2.
Proof.
  refine (proj1 (findSimilar_counts_before_it_cuts log_table
                   "python tutorial" three_prompts
                   {| Similarity.threshold := None;
                      Similarity.limit := Some 1 |} _)).
  discriminate.
Defined.

(** *** [getBestMatch] *)

Lemma eqb_refl_number x : PrimFloat.is_nan x = false -> (x =? x)%float = true.
Proof.
  intros H. apply is_nan_spec in H. rewrite eqb_spec. unfold SFeqb.
  rewrite (SFcompare_refl _ H). reflexivity.
Qed.

Lemma leb_refl_number x : PrimFloat.is_nan x = false -> (x <=? x)%float = true.
Proof.
  intros H. apply is_nan_spec in H. rewrite leb_spec. unfold SFleb.
  rewrite (SFcompare_refl _ H). reflexivity.
Qed.

Section BestMatch.
Variable Math_log : float -> float.

(** X30.  [getBestMatch] returns [null] without a PRO license.  With
    one, it returns [null] only when no entry meets the threshold (0.8 by
    default), and otherwise an entry that meets it and whose presented
    similarity no other such entry exceeds; among the entries with that
    presented similarity it is the first in the order of
    [storage.list()]. *)
Theorem getBestMatch_is_the_first_of_the_best (query : string)
    (listed : list JSONStorage.Listed) (minSimilarity : option float) :
  let th := match minSimilarity with Some t => t | None => 0.8%float end in
  let kept := Similarity.collected Math_log th query listed in
  Similarity.getBestMatch Math_log false query listed minSimilarity = None
  /\ match Similarity.getBestMatch Math_log true query listed minSimilarity with
     | None => kept = []
     | Some m =>
         In m kept
         /\ (forall m', In m' kept -> outranks m m')
         /\ exists rest, tied (Similarity.similarity m) kept = m :: rest
     end.
Proof.
  cbv zeta. split; [reflexivity|].
  unfold Similarity.getBestMatch, Similarity.findSimilar.
  cbn [negb Similarity.threshold_of Similarity.limit_of Similarity.threshold
       Similarity.limit].
  set (th := match minSimilarity with Some t => t | None => 0.8%float end).
  destruct listed as [|e0 listed']; [reflexivity|].
  set (all := e0 :: listed').
  set (kept := Similarity.collected Math_log th query all).
  cbn [Similarity.results].
  pose proof (sort_perm kept) as Hperm.
  assert (Hnum : Forall is_number kept) by apply collected_numbers.
  pose proof (sort_sorted kept Hnum) as Hsorted.
  pose proof (sort_tied) as Htied.
  unfold Similarity.slice0. cbn [Z.ltb Z.compare Z.to_nat Pos.to_nat
                                 Pos.iter_op Nat.add].
  destruct (Similarity.sort kept) as [|m l] eqn:Es.
  - cbn [firstn]. apply Permutation_nil in Hperm. exact Hperm.
  - cbn [firstn].
    assert (Hm : In m kept).
    { apply (Permutation_in _ Hperm). left. reflexivity. }
    assert (Hmn : is_number m).
    { rewrite Forall_forall in Hnum. apply Hnum, Hm. }
    split; [exact Hm|]. split.
    + intros m' Hm'.
      apply (Permutation_in _ (Permutation_sym Hperm)) in Hm'.
      inversion Hsorted as [|? ? _ Hall]; subst.
      destruct Hm' as [<-|Hm'].
      * unfold outranks, sim_leb. apply leb_refl_number, Hmn.
      * rewrite Forall_forall in Hall. apply Hall, Hm'.
    + exists (tied (Similarity.similarity m) l).
      rewrite <- (Htied (Similarity.similarity m) kept), Es.
      unfold tied. cbn [filter]. rewrite (eqb_refl_number _ Hmn). reflexivity.
Qed.
End BestMatch.
